(** * The TG autotuning runtime: worker pool, autoscheduler and session driver

    A shallow embedding of
    - [src/tg/utils.h], [src/tg/utils.cc]  (the [ThreadPool] and its task deque),
    - [src/tg/autoschedule/auto_schedule.cc], [interpreter.cc]
      (the per-key search state, the search step and feedback ingestion),
    - [src/tg/runtime/driver.cc]  (the build and evaluate workers, the tuning
      life cycle and the session registry),
    followed by the properties of the specification that these functions decide.

    Conventions.  A C++ [double] is a rational [Q]: only its order and the
    constants [0.7], [0.0], [-1] and [-999] matter below, rounding and NaN are
    not modelled.  An [int] is a [Z]; the two counters that grow for as long
    as the process runs ([counts] and [global_count]) are undefined beyond
    [INT_MAX].  [std::unordered_map] is a [gmap],
    [std::unordered_set] a [gset], [std::queue] and [std::deque] are lists
    with the front at the head.  A call that throws, aborts, has undefined
    behaviour or never returns yields [Fails]. *)

From stdpp Require Import gmap list strings sorting.
From Stdlib Require Import QArith.

Local Open Scope Z_scope.

(** ** Outcomes of fallible calls *)

Inductive failure : Type :=
  | Thrown (what : string)      (* exception, ERROR or ASSERT *)
  | Aborted                     (* abort() *)
  | Undefined (why : string)    (* undefined behaviour *)
  | Spins                       (* a loop that cannot exit any more *)
  | OutOfFuel.                  (* the model's loop bound was too small *)

Inductive outcome (A : Type) : Type :=
  | Done (a : A)
  | Fails (f : failure).
Arguments Done {A} a.
Arguments Fails {A} f.

#[export] Instance outcome_ret : MRet outcome := fun A a => Done a.
#[export] Instance outcome_bind : MBind outcome := fun A B k x =>
  match x with
  | Done a => k a
  | Fails f => Fails f
  end.

(** What an observer [f] sees of a call, if it returns. *)
Definition after {A B} (o : outcome A) (f : A -> B) : option B :=
  match o with
  | Done a => Some (f a)
  | Fails _ => None
  end.

Definition Qltb (x y : Q) : bool := if Qlt_le_dec x y then true else false.

(** ** External collaborators

    The partitioner, the schedule space, the interpreter hook, the measurer
    and the random generator are outside the core; the search and the driver
    only call them.  [randdouble] and [choose_one] read a global generator:
    the argument of type [nat] is the number of draws made so far. *)

Class Collaborators : Type := {
  Entity : Type;                          (* MultiScheduleEntity *)
  Entity_eq_dec :: EqDecision Entity;
  Entity_countable :: Countable Entity;
  Schedule : Type;                        (* te::Schedule *)
  Tensors : Type;                         (* Array<te::Tensor> *)
  TIRGraph : Type;
  Target : Type;
  RtModule : Type;                        (* tvm::runtime::Module *)
  PackedFunc : Type;
  tag : TIRGraph -> string;               (* subgraph->tag *)
  create_schedule : TIRGraph -> Schedule; (* te::create_schedule(subgraph->root_ops) *)
  graph_tensors : TIRGraph -> Tensors;    (* subgraph->tensors *)
  (* Registry::Get("tg.autoschedule.interpret") *)
  registry_interpret :
    option (Schedule -> Tensors -> TIRGraph -> Target -> Entity -> Schedule);
  (* Registry::Get("tg.autoschedule.judge_schedule") *)
  registry_judge :
    option (list Schedule -> Tensors -> Target -> Q -> string -> list Q);
  measure : list Schedule -> Tensors -> Target -> Q -> list Q;
  randdouble : nat -> Q;
  choose_one : TIRGraph -> nat -> option Entity -> Entity;
  exp : Q -> Q;                           (* std::exp *)
  get_gflop : TIRGraph -> Q;
  (* Registry::Get("tg.runtime.evaluate_performance"), in milliseconds *)
  evaluate_performance : RtModule -> Z -> Tensors -> Q;
  get_function : RtModule -> Z -> PackedFunc; (* mod->GetFunction(get_func_name(key)) *)
  is_null : PackedFunc -> bool;           (* func == nullptr *)
  (* FunctionBuilder::build_func for "subgraph_<key>"; None when it throws *)
  build_func : Schedule -> Tensors -> Target -> Z -> option RtModule;
  target_name : Target -> string;
  target_llvm : Target;                   (* target::llvm() *)
  multi_schedule_entity_from_string : string -> Entity;
  stoi : string -> option Z;              (* std::stoi; None when it throws *)
  (* the lines of a reference file, each split at "|"; None when it cannot be opened *)
  read_reference : string -> option (list (list string))
}.

(** ** utils.h, utils.cc: the worker pool *)

Module Pool.
Section ThreadPool.
Context {Task : Type}.

(** [tasks] is the [std::deque]; its front is the head of the list. *)
Record ThreadPool : Type := {
  tasks : list Task;
  stop : bool
}.

(** [ThreadPool::push_front], utils.h 89-112: [tasks.emplace_back(...)]. *)
Definition push_front (t : Task) (tp : ThreadPool) : outcome ThreadPool :=
  if stop tp then Fails (Thrown "push_front on stopped ThreadPool")
  else Done {| tasks := tasks tp ++ [t]; stop := stop tp |}.

(** [ThreadPool::push_back], utils.h 114-137: [tasks.emplace_back(...)]. *)
Definition push_back (t : Task) (tp : ThreadPool) : outcome ThreadPool :=
  if stop tp then Fails (Thrown "push_back on stopped ThreadPool")
  else Done {| tasks := tasks tp ++ [t]; stop := stop tp |}.

(** One round of a worker's loop, utils.cc 12-26, once the condition
    [stop || !tasks.empty()] lets it through. *)
Inductive worker_round : Type :=
  | Waits                                   (* condition not met *)
  | Exits                                   (* stop && tasks.empty() *)
  | Runs (t : Task) (tp : ThreadPool).      (* front() then pop_front() *)

Definition worker_take (tp : ThreadPool) : worker_round :=
  match tasks tp with
  | [] => if stop tp then Exits else Waits
  | t :: rest => Runs t {| tasks := rest; stop := stop tp |}
  end.

(** [task()], utils.cc 25.  The callables in the deque are the ones that
    [push_front] and [push_back] store (utils.h 104-108 and 129-133): the
    job is started on a [std::thread] of its own, the worker sleeps for
    [timeout] ms and cancels that thread, and at the end of the callable
    the [std::thread] object is destroyed while it is still joinable, which
    calls [std::terminate].  The worker does not return from it. *)
Definition run_task (t : Task) : outcome unit := Fails Aborted.

(** The thread of one worker, utils.cc 11-27: the tasks it starts, the pool
    it leaves and how it ends ([Done]: it returns; [Spins]: it is blocked
    in [condition.wait]). *)
Fixpoint worker (fuel : nat) (tp : ThreadPool) : list Task * ThreadPool * outcome unit :=
  match fuel with
  | O => ([], tp, Fails OutOfFuel)
  | S fuel' =>
      match worker_take tp with
      | Waits => ([], tp, Fails Spins)
      | Exits => ([], tp, Done tt)
      | Runs t tp' =>
          match run_task t with
          | Done _ => let '(ts, tp'', e) := worker fuel' tp' in (t :: ts, tp'', e)
          | Fails f => ([t], tp', Fails f)
          end
      end
  end.

(** The tasks that a pool of [threads] workers starts, in order, before the
    process ends.  The workers pass the critical section one at a time; a
    worker whose task has ended the process is given the time until then,
    in which the next worker takes its turn. *)
Fixpoint drain_order (threads : nat) (tp : ThreadPool) : list Task :=
  match threads with
  | O => []
  | S threads' =>
      match worker (S (length (tasks tp))) tp with
      | (ts, tp', Fails Aborted) => ts ++ drain_order threads' tp'
      | (ts, _, _) => ts
      end
  end.
End ThreadPool.
Arguments ThreadPool Task : clear implicits.
End Pool.

(** ** auto_schedule.cc: the per-key search state *)

Module Search.
Section AutoSchedule.
Context `{Collaborators}.

Record ScheduleResult : Type := {
  schedule : Schedule;
  tensors : Tensors;
  schedule_entities : Entity
}.

Record EvaluatedScheduleResult : Type := {
  schedule_result : ScheduleResult;
  evaluation : Q
}.

(** Modelled from the spec: [operator<] of [EvaluatedScheduleResult] is
    declared in auto_schedule.h, which is not among the sources; results
    are "ordered by score". *)
Definition evaluated_lt (a b : EvaluatedScheduleResult) : bool :=
  Qltb (evaluation a) (evaluation b).

(** Modelled from the spec: the type of [topk_schedules] is declared in
    auto_schedule.h; it is the "bounded min-heap of EvaluatedResult".  The
    [std::priority_queue] is kept as the list of its entries in the order
    in which successive [top()]/[pop()] calls would deliver them: [top()]
    is the head, [pop()] the tail, [push] inserts behind the entries that
    are not greater. *)
Fixpoint heap_push (e : EvaluatedScheduleResult)
    (h : list EvaluatedScheduleResult) : list EvaluatedScheduleResult :=
  match h with
  | [] => [e]
  | x :: h' => if evaluated_lt e x then e :: x :: h' else x :: heap_push e h'
  end.

(** The order in which a min-heap delivers its entries. *)
Definition heap_ordered (h : list EvaluatedScheduleResult) : Prop :=
  StronglySorted (fun a b => (evaluation a <= evaluation b)%Q) h.

(** The node behind an [AutoScheduleContext] handle. *)
Record AutoScheduleContext : Type := {
  ctx_key : Z;
  ctx_subgraph : TIRGraph;
  target : Target;
  topk : Z;
  new_trial : Z;
  policy : string;
  counts : Z;
  topk_schedules : list EvaluatedScheduleResult;
  known_schedules : gset Entity;
  knowing_schedules : gset Entity
}.

Definition with_counts (c : Z) (ctx : AutoScheduleContext) : AutoScheduleContext :=
  {| ctx_key := ctx_key ctx; ctx_subgraph := ctx_subgraph ctx; target := target ctx;
     topk := topk ctx; new_trial := new_trial ctx; policy := policy ctx;
     counts := c;
     topk_schedules := topk_schedules ctx;
     known_schedules := known_schedules ctx;
     knowing_schedules := knowing_schedules ctx |}.

Definition with_memory (h : list EvaluatedScheduleResult) (known knowing : gset Entity)
    (ctx : AutoScheduleContext) : AutoScheduleContext :=
  {| ctx_key := ctx_key ctx; ctx_subgraph := ctx_subgraph ctx; target := target ctx;
     topk := topk ctx; new_trial := new_trial ctx; policy := policy ctx;
     counts := counts ctx;
     topk_schedules := h;
     known_schedules := known;
     knowing_schedules := knowing |}.

(** Modelled from the spec: the constructor of [AutoScheduleContext] is
    declared in auto_schedule.h; the state is created with an empty
    top-K, empty seen sets and no completed proposal. *)
Definition new_context (key : Z) (subgraph : TIRGraph) (tgt : Target)
    (k trial : Z) (pol : string) : AutoScheduleContext :=
  {| ctx_key := key; ctx_subgraph := subgraph; target := tgt;
     topk := k; new_trial := trial; policy := pol;
     counts := 0;
     topk_schedules := [];
     known_schedules := ∅;
     knowing_schedules := ∅ |}.

(** Modelled from the spec: [warm_up_trials] is declared in
    auto_schedule.h; "counts > warm_up (=64)". *)
Definition warm_up_trials : Z := 64.

Definition INT_MAX : Z := 2147483647.

(** [calculate_possibility], lines 46-48. *)
Definition calculate_possibility (x best upper : Q) : Q :=
  (exp (x - best) * upper)%Q.

(** [interpret], interpreter.cc 9-19. *)
Definition interpret (sch : Schedule) (ts : Tensors) (subgraph : TIRGraph)
    (tgt : Target) (entity : Entity) : outcome Schedule :=
  match registry_interpret with
  | None => Fails Aborted
  | Some f => Done (f sch ts subgraph tgt entity)
  end.

(** [empty_schedule], lines 13-43. *)
Definition empty_schedule (subgraph : TIRGraph) : Schedule * Tensors :=
  (create_schedule subgraph, graph_tensors subgraph).

(** [AutoScheduleContext::add_feedback], lines 201-223.  The early
    [return] of line 209 leaves before the seen sets are touched. *)
Definition remember (e : Entity) (h : list EvaluatedScheduleResult)
    (self : AutoScheduleContext) : AutoScheduleContext :=
  let knowing := {[ e ]} ∪ knowing_schedules self in
  if decide (500 < size knowing)%nat
  then with_memory h knowing ∅ self
  else with_memory h (known_schedules self) knowing self.

Definition add_feedback (sr : ScheduleResult) (ev : Q)
    (self : AutoScheduleContext) : outcome AutoScheduleContext :=
  if Qltb 0 ev then
    let evaluated := {| schedule_result := sr; evaluation := ev |} in
    if Z.of_nat (length (topk_schedules self)) <? topk self then
      Done (remember (schedule_entities sr)
              (heap_push evaluated (topk_schedules self)) self)
    else
      match topk_schedules self with
      | [] => Fails (Undefined "top() on an empty priority_queue")
      | top :: rest =>
          if evaluated_lt evaluated top then Done self
          else Done (remember (schedule_entities sr) (heap_push evaluated rest) self)
      end
  else Done (remember (schedule_entities sr) (topk_schedules self) self).

(** *** The search step, [AutoScheduler::auto_schedule], lines 77-198 *)

(** Lines 95-100: [while (!topk_schedules.empty())
    { reverse_sort.push_back(top()); pop(); }].  Returns [reverse_sort] and
    what is left of the heap. *)
Fixpoint snapshot_topk (h reverse_sort : list EvaluatedScheduleResult)
    : list EvaluatedScheduleResult * list EvaluatedScheduleResult :=
  match h with
  | [] => (reverse_sort, [])
  | top :: rest => snapshot_topk rest (reverse_sort ++ [top])
  end.

(** Lines 101-107.  [reverse_sort[num_candidates - 1]] is only read inside
    the loop, hence on a non-empty vector. *)
Definition possibilities (k : Z) (reverse_sort : list EvaluatedScheduleResult) : list Q :=
  let num_candidates := Z.of_nat (length reverse_sort) in
  match last reverse_sort with
  | None => []
  | Some best =>
      (fun e => calculate_possibility (evaluation e) (evaluation best)
                  (0.7 * inject_Z num_candidates / inject_Z k)%Q) <$> reverse_sort
  end.

(** Lines 118-124: [for (j = num_candidates; j > 0; --j)], given the pairs
    [(reverse_sort[j-1], p[j-1])] from the last index down to the first. *)
Fixpoint choose_seed (from_best : list (EvaluatedScheduleResult * Q)) (rng : nat)
    : option EvaluatedScheduleResult * nat :=
  match from_best with
  | [] => (None, rng)
  | (e, pj) :: rest =>
      if Qltb (randdouble rng) pj then (Some e, S rng)
      else choose_seed rest (S rng)
  end.

(** One iteration of the [for] loop, lines 114-150: the entities it appends
    to [new_candidates]. *)
Definition propose (ctx : AutoScheduleContext)
    (reverse_sort : list EvaluatedScheduleResult) (p : list Q)
    (must_new : bool) (rng : nat) : list Entity * nat :=
  let r := randdouble rng in
  let '(seed, rng1) :=
    if Qltb r 0.7 && (warm_up_trials <? counts ctx)
    then choose_seed (rev (zip reverse_sort p)) (S rng)
    else (None, S rng) in
  let new_one :=
    choose_one (ctx_subgraph ctx) rng1
      ((fun s => schedule_entities (schedule_result s)) <$> seed) in
  let accepted :=
    if must_new then
      (if decide (new_one ∈ known_schedules ctx) then [] else [new_one])
      ++ (if decide (new_one ∈ knowing_schedules ctx) then [] else [new_one])
    else [new_one] in
  (accepted, S rng1).

(** The [for] loop of line 113, [trials] iterations left. *)
Fixpoint one_pass (trials : nat) (ctx : AutoScheduleContext)
    (reverse_sort : list EvaluatedScheduleResult) (p : list Q)
    (must_new : bool) (new_candidates : list Entity) (rng : nat)
    : list Entity * nat :=
  match trials with
  | O => (new_candidates, rng)
  | S trials' =>
      let '(accepted, rng') := propose ctx reverse_sort p must_new rng in
      one_pass trials' ctx reverse_sort p must_new (new_candidates ++ accepted) rng'
  end.

(** The [while (new_candidates.size() == 0U)] loop, lines 111-153. *)
Fixpoint prepare_candidates (fuel : nat) (ctx : AutoScheduleContext)
    (reverse_sort : list EvaluatedScheduleResult) (p : list Q)
    (must_new : bool) (new_candidates : list Entity) (rng : nat)
    : outcome (list Entity * nat) :=
  match new_candidates with
  | _ :: _ => Done (new_candidates, rng)
  | [] =>
      match fuel with
      | O => Fails OutOfFuel
      | S fuel' =>
          let '(cands, rng') :=
            one_pass (Z.to_nat (new_trial ctx)) ctx reverse_sort p must_new [] rng in
          prepare_candidates fuel' ctx reverse_sort p false cands rng'
      end
  end.

(** Modelled from the spec: the [ERROR] and [ASSERT] macros are defined in a
    logging header that is not among the sources; a configuration error is
    "fatal at the offending call". *)
Definition ERROR {A} (msg : string) : outcome A := Fails (Thrown msg).

(** [AutoScheduler::judge_schedule], lines 51-73. *)
Definition judge_schedule (schedules : list Schedule) (ts : Tensors) (tgt : Target)
    (gflop : Q) (pol : string) (rng : nat) : outcome (list Q * nat) :=
  match registry_judge with
  | None =>
      if decide (pol = "profile") then Done (measure schedules ts tgt gflop, rng)
      else if decide (pol = "random") then
        Done (randdouble <$> seq rng (length schedules), (rng + length schedules)%nat)
      else ERROR "No support for policy"
  | Some f => Done (f schedules ts tgt gflop pol, rng)
  end.

(** Lines 161-168: one fresh schedule per candidate, interpreted in place. *)
Fixpoint interpret_all (subgraph : TIRGraph) (ts : Tensors) (tgt : Target)
    (new_candidates : list Entity) : outcome (list Schedule) :=
  match new_candidates with
  | [] => Done []
  | c :: rest =>
      tmp_sch ← interpret (create_schedule subgraph) ts subgraph tgt c;
      more ← interpret_all subgraph ts tgt rest;
      Done (tmp_sch :: more)
  end.

(** Lines 173-181, from index [i] on; [todo] holds the schedules and
    candidates from [i] on.  The running state is the context, [best_value]
    and [best_ind]. *)
Fixpoint feedback_loop (todo : list (Schedule * Entity)) (i : nat) (ts : Tensors)
    (tmp_judges : list Q) (ctx : AutoScheduleContext) (best_value : Q) (best_ind : Z)
    : outcome (AutoScheduleContext * Q * Z) :=
  match todo with
  | [] => Done (ctx, best_value, best_ind)
  | (tmp_sch, cand) :: rest =>
      match tmp_judges !! i with
      | None => Fails (Undefined "tmp_judges[i] out of range")
      | Some v =>
          ctx' ← (if decide (policy ctx = "profile")
                  then add_feedback
                         {| schedule := tmp_sch; tensors := ts; schedule_entities := cand |}
                         v ctx
                  else Done ctx);
          if Qltb best_value v
          then feedback_loop rest (S i) ts tmp_judges ctx' v (Z.of_nat i)
          else feedback_loop rest (S i) ts tmp_judges ctx' best_value best_ind
      end
  end.

(** Lines 95-153: the snapshot of the top-K and the new candidates.  The
    context is the one the rest of the step goes on with. *)
Definition select_candidates (fuel : nat) (ctx : AutoScheduleContext) (rng : nat)
    : outcome (AutoScheduleContext * list Entity * nat) :=
  let '(reverse_sort, heap) := snapshot_topk (topk_schedules ctx) [] in
  let ctx := with_memory heap (known_schedules ctx) (knowing_schedules ctx) ctx in
  let p := possibilities (topk ctx) reverse_sort in
  '(new_candidates, rng) ← prepare_candidates fuel ctx reverse_sort p true [] rng;
  Done (ctx, new_candidates, rng).

Definition auto_schedule (fuel : nat) (subgraph : TIRGraph)
    (ctx : AutoScheduleContext) (rng : nat)
    : outcome (ScheduleResult * AutoScheduleContext * nat) :=
  let '(sch, ts) := empty_schedule subgraph in
  '(ctx, new_candidates, rng) ← select_candidates fuel ctx rng;
  tmp_schedules ← interpret_all subgraph ts (target ctx) new_candidates;
  '(tmp_judges, rng) ← judge_schedule tmp_schedules ts (target ctx) 1%Q (policy ctx) rng;
  '(ctx, best_value, best_ind) ←
     feedback_loop (zip tmp_schedules new_candidates) 0 ts tmp_judges ctx (-1)%Q (-1);
  if best_ind <? 0 then Fails (Undefined "new_candidates[-1]")
  else
    match new_candidates !! Z.to_nat best_ind with
    | None => Fails (Undefined "new_candidates[best_ind] out of range")
    | Some result_entity =>
        sch' ← interpret sch ts subgraph (target ctx) result_entity;
        if counts ctx =? INT_MAX then Fails (Undefined "signed overflow of counts")
        else
          Done ({| schedule := sch'; tensors := ts; schedule_entities := result_entity |},
                with_counts (counts ctx + 1) ctx, rng)
    end.

(** *** The [AutoScheduler] object, lines 226-304 *)

(** The closure that [schedule_for] binds: [schedule_func(k, g, t)]. *)
Record Job : Type := {
  job_key : Z;
  job_subgraph : TIRGraph;
  job_target : Target
}.

Record AutoScheduler : Type := {
  contexts : gmap Z AutoScheduleContext;
  thread_pool : Pool.ThreadPool Job;
  as_topk : Z;
  as_new_trial : Z;
  as_policy : string
}.

Definition with_contexts (m : gmap Z AutoScheduleContext) (s : AutoScheduler) : AutoScheduler :=
  {| contexts := m; thread_pool := thread_pool s;
     as_topk := as_topk s; as_new_trial := as_new_trial s; as_policy := as_policy s |}.

Definition with_pool (tp : Pool.ThreadPool Job) (s : AutoScheduler) : AutoScheduler :=
  {| contexts := contexts s; thread_pool := tp;
     as_topk := as_topk s; as_new_trial := as_new_trial s; as_policy := as_policy s |}.

(** Lines 227-229 and 241-243: [if (contexts.find(key) == contexts.end())
    contexts[key] = AutoScheduleContext(...)]. *)
Definition ensure_context (key : Z) (subgraph : TIRGraph) (tgt : Target)
    (s : AutoScheduler) : AutoScheduler :=
  match contexts s !! key with
  | Some _ => s
  | None =>
      with_contexts
        (<[key := new_context key subgraph tgt (as_topk s) (as_new_trial s) (as_policy s)]>
           (contexts s)) s
  end.

(** [AutoScheduler::schedule_func], lines 226-236.  [context] is a handle
    on the node stored in [contexts]: what [auto_schedule] does to it is
    seen through the map. *)
Definition schedule_func (fuel : nat) (key : Z) (subgraph : TIRGraph) (tgt : Target)
    (s : AutoScheduler) (rng : nat) : outcome (ScheduleResult * AutoScheduler * nat) :=
  let s := ensure_context key subgraph tgt s in
  match contexts s !! key with
  | None => Fails (Undefined "null AutoScheduleContext")
  | Some context =>
      '(results, context', rng') ← auto_schedule fuel subgraph context rng;
      Done (results, with_contexts (<[key := context']> (contexts s)) s, rng')
  end.

(** [AutoScheduler::schedule_with_entity], lines 239-250. *)
Definition schedule_with_entity (key : Z) (subgraph : TIRGraph) (tgt : Target)
    (entity : Entity) (s : AutoScheduler) : outcome (ScheduleResult * AutoScheduler) :=
  let s := ensure_context key subgraph tgt s in
  let '(sch, ts) := empty_schedule subgraph in
  sch' ← interpret sch ts subgraph tgt entity;
  Done ({| schedule := sch'; tensors := ts; schedule_entities := entity |}, s).

(** [AutoScheduler::schedule_for], lines 253-270. *)
Definition schedule_for (key : Z) (subgraph : TIRGraph) (tgt : Target) (priority : Z)
    (s : AutoScheduler) : outcome AutoScheduler :=
  let job := {| job_key := key; job_subgraph := subgraph; job_target := tgt |} in
  if priority =? 0 then
    tp ← Pool.push_back job (thread_pool s); Done (with_pool tp s)
  else if priority =? 1 then
    tp ← Pool.push_front job (thread_pool s); Done (with_pool tp s)
  else ERROR "Unsupported schedule priority".

(** [AutoScheduler::feedback_for], lines 273-304.  [contexts[key]] on an
    absent key default-constructs a null handle, which [add_feedback]
    dereferences.  The text written to [profile_log] is not modelled. *)
Definition feedback_for (key : Z) (subgraph : TIRGraph) (sr : ScheduleResult)
    (ev : Q) (s : AutoScheduler) : outcome AutoScheduler :=
  match contexts s !! key with
  | None => Fails (Undefined "null AutoScheduleContext")
  | Some context =>
      context' ← add_feedback sr ev context;
      Done (with_contexts (<[key := context']> (contexts s)) s)
  end.
End AutoSchedule.
End Search.


(** ** driver.cc: the session, its workers and the session registry *)

Module Driver.
Import Search.
Section Session.
Context `{Collaborators}.

(** The entries of the per-key queues. *)
Definition BuiltFunction : Type := ScheduleResult * RtModule * PackedFunc.

Record BestRecord : Type := {
  best_schedule : ScheduleResult;
  best_module : RtModule;
  best_func : PackedFunc;
  best_gflops : Q;
  best_elapsed : Q
}.

(** A [std::shared_future<Module>]: what [get()] delivers once the builder
    pool is done, [None] when it throws. *)
Definition FutureModule : Type := option RtModule.

Record GraphAttr : Type := {
  num_predecessor : Z;
  successors : list Z
}.

Record TIRMultiGraph : Type := {
  graphs : gmap Z TIRGraph;
  graph_attrs : gmap Z GraphAttr
}.

(** The three workers that [begin_tuning] launches. *)
Inductive Worker : Type :=
  | RunAutoschedule (task_id advance_number : Z) (reference : string)
      (first_stage_number : Z) (second_stage_topk_ratio : Q)
  | RunBuild (task_id advance_number : Z)
  | RunEvaluate (task_id advance_number : Z).

(** A [std::thread] object: default-constructed (not joinable), running a
    worker (joinable), or joined. *)
Inductive Thread : Type :=
  | NotAThread
  | Spawned (w : Worker)
  | Joined (w : Worker).

Record Session : Type := {
  sess_target : Target;
  auto_scheduler : AutoScheduler;
  task_cache : gmap Z TIRMultiGraph;
  future_functions : gmap Z (list (ScheduleResult * FutureModule));
  built_functions : gmap Z (list BuiltFunction);
  best_functions : gmap Z (list BestRecord);
  emergency_schedule_queue : list Z;
  emergency_build_queue : list Z;
  finish : gmap Z bool;
  in_tuning : gmap Z bool;
  cached_all_functions : gmap Z bool;
  sch_threads : gmap Z Thread;
  build_threads : gmap Z Thread;
  evaluate_threads : gmap Z Thread
}.

Definition set_auto_scheduler (a : AutoScheduler) (s : Session) : Session :=
  {| sess_target := sess_target s; auto_scheduler := a; task_cache := task_cache s;
     future_functions := future_functions s; built_functions := built_functions s;
     best_functions := best_functions s;
     emergency_schedule_queue := emergency_schedule_queue s;
     emergency_build_queue := emergency_build_queue s;
     finish := finish s; in_tuning := in_tuning s;
     cached_all_functions := cached_all_functions s;
     sch_threads := sch_threads s; build_threads := build_threads s;
     evaluate_threads := evaluate_threads s |}.

Definition set_queues
    (ff : gmap Z (list (ScheduleResult * FutureModule)))
    (bf : gmap Z (list BuiltFunction)) (best : gmap Z (list BestRecord))
    (esq ebq : list Z) (s : Session) : Session :=
  {| sess_target := sess_target s; auto_scheduler := auto_scheduler s;
     task_cache := task_cache s;
     future_functions := ff; built_functions := bf; best_functions := best;
     emergency_schedule_queue := esq; emergency_build_queue := ebq;
     finish := finish s; in_tuning := in_tuning s;
     cached_all_functions := cached_all_functions s;
     sch_threads := sch_threads s; build_threads := build_threads s;
     evaluate_threads := evaluate_threads s |}.

Definition set_flags (fin tuning cached : gmap Z bool) (s : Session) : Session :=
  {| sess_target := sess_target s; auto_scheduler := auto_scheduler s;
     task_cache := task_cache s;
     future_functions := future_functions s; built_functions := built_functions s;
     best_functions := best_functions s;
     emergency_schedule_queue := emergency_schedule_queue s;
     emergency_build_queue := emergency_build_queue s;
     finish := fin; in_tuning := tuning; cached_all_functions := cached;
     sch_threads := sch_threads s; build_threads := build_threads s;
     evaluate_threads := evaluate_threads s |}.

Definition set_threads (sch build eval : gmap Z Thread) (s : Session) : Session :=
  {| sess_target := sess_target s; auto_scheduler := auto_scheduler s;
     task_cache := task_cache s;
     future_functions := future_functions s; built_functions := built_functions s;
     best_functions := best_functions s;
     emergency_schedule_queue := emergency_schedule_queue s;
     emergency_build_queue := emergency_build_queue s;
     finish := finish s; in_tuning := in_tuning s;
     cached_all_functions := cached_all_functions s;
     sch_threads := sch; build_threads := build; evaluate_threads := eval |}.

Definition set_future_functions ff (s : Session) : Session :=
  set_queues ff (built_functions s) (best_functions s)
    (emergency_schedule_queue s) (emergency_build_queue s) s.
Definition set_built_functions bf (s : Session) : Session :=
  set_queues (future_functions s) bf (best_functions s)
    (emergency_schedule_queue s) (emergency_build_queue s) s.
Definition set_best_functions best (s : Session) : Session :=
  set_queues (future_functions s) (built_functions s) best
    (emergency_schedule_queue s) (emergency_build_queue s) s.
Definition set_emergency_schedule_queue q (s : Session) : Session :=
  set_queues (future_functions s) (built_functions s) (best_functions s)
    q (emergency_build_queue s) s.
Definition set_emergency_build_queue q (s : Session) : Session :=
  set_queues (future_functions s) (built_functions s) (best_functions s)
    (emergency_schedule_queue s) q s.

(** [m[key]] of a map of queues, of flags and of counters: an absent key
    reads as the value-initialised entry. *)
Definition queue_at {A} (m : gmap Z (list A)) (key : Z) : list A := default [] (m !! key).
Definition flag_at (m : gmap Z bool) (key : Z) : bool := default false (m !! key).
Definition count_at (m : gmap Z Z) (key : Z) : Z := default 0 (m !! key).

(** [cached_all_functions.find(task_id) != end() && cached_all_functions[task_id]]. *)
Definition is_cached (s : Session) (task_id : Z) : bool :=
  match cached_all_functions s !! task_id with
  | Some b => b
  | None => false
  end.

(** *** The DAG walk shared by the workers *)

(** [for (auto succ : successors) { order[succ] -= 1;
    if (order[succ] == 0) update_set.insert(succ); }] *)
Fixpoint decrement_successors (succs : list Z) (order : gmap Z Z) (update_set : gset Z)
    : gmap Z Z * gset Z :=
  match succs with
  | [] => (order, update_set)
  | succ :: rest =>
      let n := count_at order succ - 1 in
      decrement_successors rest (<[succ := n]> order)
        (if n =? 0 then {[ succ ]} ∪ update_set else update_set)
  end.

(** *** [Session::run_build], lines 491-722: the body of [for (auto cand : free_set)] *)

Record BuildWalk : Type := {
  built : gset string;
  build_order : gmap Z Z;
  build_update_set : gset Z;
  build_delete_set : gset Z;
  build_count : Z
}.

(** [delete_set.insert(cand)], the [ASSERT] on [graph_attrs] and the loop
    over the successors; [counted] adds [build_count += 1] and [remember_tag]
    adds [built.insert(subgraph->tag)]. *)
Definition build_advance (mg : TIRMultiGraph) (cand : Z) (counted : bool)
    (remember_tag : option string) (w : BuildWalk) : outcome BuildWalk :=
  match graph_attrs mg !! cand with
  | None => ERROR "Can't find subgraph's attributes."
  | Some attr =>
      let '(order, upd) :=
        decrement_successors (successors attr) (build_order w) (build_update_set w) in
      Done {| built := match remember_tag with
                       | Some t => {[ t ]} ∪ built w
                       | None => built w
                       end;
              build_order := order;
              build_update_set := upd;
              build_delete_set := {[ cand ]} ∪ build_delete_set w;
              build_count := if counted then build_count w + 1 else build_count w |}
  end.

(** Lines 539-563 (and again 693-717): the head of the emergency build
    queue.  The future is read with [front()] and is not popped. *)
Definition emergency_build (s : Session) : Session :=
  match emergency_build_queue s with
  | [] => s
  | key :: rest =>
      match queue_at (future_functions s) key with
      | [] => s
      | (sch, future_mod) :: _ =>
          match future_mod with
          | None => s
          | Some md =>
              let func := get_function md key in
              set_built_functions
                (<[key := queue_at (built_functions s) key ++ [(sch, md, func)]]>
                   (built_functions s))
                (set_emergency_build_queue rest s)
          end
      end
  end.

(** Lines 590-650: the build of [cand] proper. *)
Definition build_proceed (mg : TIRMultiGraph) (allow_missing : bool) (cand : Z)
    (subgraph : TIRGraph) (s : Session) (w : BuildWalk) : outcome (Session * BuildWalk) :=
  match queue_at (future_functions s) cand with
  | (sch, future_mod) :: rest =>
      let s := set_future_functions (<[cand := rest]> (future_functions s)) s in
      match future_mod with
      | Some md =>
          let func := get_function md cand in
          let s :=
            if (1000 <? Z.of_nat (length (queue_at (built_functions s) cand)))
            then s   (* prints "Blocking..." and goes on *)
            else set_built_functions
                   (<[cand := queue_at (built_functions s) cand ++ [(sch, md, func)]]>
                      (built_functions s)) s in
          w ← build_advance mg cand true (Some (tag subgraph)) w;
          Done (s, w)
      | None =>
          if allow_missing
          then w ← build_advance mg cand false None w; Done (s, w)
          else Done (s, w)
      end
  | [] =>
      if allow_missing
      then w ← build_advance mg cand false None w; Done (s, w)
      else Done (s, w)
  end.

(** Lines 526-652.  [None] is the [return] taken when [finish[task_id]]
    is seen. *)
Definition build_node (task_id : Z) (mg : TIRMultiGraph) (allow_missing : bool)
    (cand : Z) (s : Session) (w : BuildWalk) : outcome (option (Session * BuildWalk)) :=
  if flag_at (finish s) task_id then Done None
  else
    let s := emergency_build s in
    match graphs mg !! cand with
    | None => Fails (Thrown "graphs[cand]")
    | Some subgraph =>
        if decide (tag subgraph ∈ built w) then
          w ← build_advance mg cand true None w; Done (Some (s, w))
        else
          r ← build_proceed mg allow_missing cand subgraph s w; Done (Some r)
    end.

(** *** [Session::run_evaluate], lines 725-895: the [evaluate_helper] *)

Record EvaluateWalk : Type := {
  evaluate_cache : gmap string Z;
  evaluate_order : gmap Z Z;
  evaluate_update_set : gset Z;
  evaluate_delete_set : gset Z
}.

(** Line 797: [get_gflop(subgraph) / (elapsed_time / 1e3 + 1e-8)]. *)
Definition gflops_of (subgraph : TIRGraph) (elapsed_time : Q) : Q :=
  (get_gflop subgraph / (elapsed_time / 1000 + 1 / 100000000))%Q.

(** Lines 801-813: the best slot after a measurement that succeeded. *)
Definition store_function (candidate : BestRecord) (slot : list BestRecord)
    : list BestRecord :=
  match slot with
  | [] => [candidate]
  | best :: rest =>
      if Qltb (best_gflops best) (best_gflops candidate)
      then rest ++ [candidate]          (* push(candidate); pop() *)
      else slot
  end.

(** Lines 838-843: the best slot after the record of a sibling with the
    same tag is copied in. *)
Definition push_cache_function (mod_func_perf : BestRecord) (slot : list BestRecord)
    : list BestRecord :=
  match slot with
  | [] => [mod_func_perf]
  | _ :: rest => rest ++ [mod_func_perf]   (* push(mod_func_perf); pop() *)
  end.

(** Lines 776-829: "first, try to get new function".  Returns the session
    and the walk with [succ] and [taken]. *)
Definition try_new_function (key : Z) (subgraph : TIRGraph) (s : Session)
    (w : EvaluateWalk) : outcome (Session * EvaluateWalk * bool * bool) :=
  match queue_at (built_functions s) key with
  | [] => Done (s, w, false, false)
  | (schedule_result, md, func) :: rest =>
      let s := set_built_functions (<[key := rest]> (built_functions s)) s in
      if is_null func
      then ERROR "Get null function, don't know how to deal with it."
      else
        let elapsed_time := evaluate_performance md key (tensors schedule_result) in
        if Qltb 0 elapsed_time then
          let gflops := gflops_of subgraph elapsed_time in
          a ← feedback_for key subgraph schedule_result gflops (auto_scheduler s);
          let s := set_auto_scheduler a s in
          let candidate :=
            {| best_schedule := schedule_result; best_module := md; best_func := func;
               best_gflops := gflops; best_elapsed := elapsed_time |} in
          let s :=
            set_best_functions
              (<[key := store_function candidate (queue_at (best_functions s) key)]>
                 (best_functions s)) s in
          Done (s,
                {| evaluate_cache := <[tag subgraph := key]> (evaluate_cache w);
                   evaluate_order := evaluate_order w;
                   evaluate_update_set := evaluate_update_set w;
                   evaluate_delete_set := evaluate_delete_set w |},
                true, true)
        else
          a ← feedback_for key subgraph schedule_result 0 (auto_scheduler s);
          Done (set_auto_scheduler a s, w, false, true)
  end.

(** Lines 831-849: "then, try to find repeated subgraph"; returns the
    session and [succ]. *)
Definition try_repeated_function (key : Z) (subgraph : TIRGraph) (s : Session)
    (w : EvaluateWalk) : Session * bool :=
  match evaluate_cache w !! tag subgraph with
  | None => (s, false)
  | Some repeat_key =>
      match queue_at (best_functions s) repeat_key with
      | [] => (s, false)
      | mod_func_perf :: _ =>
          (set_best_functions
             (<[key := push_cache_function mod_func_perf (queue_at (best_functions s) key)]>
                (best_functions s)) s,
           true)
      end
  end.

(** Lines 763-870. *)
Definition evaluate_helper (mg : TIRMultiGraph) (allow_missing : bool) (key : Z)
    (s : Session) (w : EvaluateWalk) : outcome (Session * EvaluateWalk) :=
  match graphs mg !! key with
  | None => Fails (Thrown "graphs[key]")
  | Some subgraph =>
      match try_new_function key subgraph s w with
      | Fails f => Fails f
      | Done (s, w, succ, taken) =>
      let again : Session * bool :=
        if succ then (s, true) else try_repeated_function key subgraph s w in
      let '(s, succ) := again in
      let s :=
        match succ, queue_at (best_functions s) key, taken with
        | false, [], true =>
            set_emergency_schedule_queue (emergency_schedule_queue s ++ [key]) s
        | _, _, _ => s
        end in
      if succ || allow_missing then
        match graph_attrs mg !! key with
        | None => Fails (Undefined "graph_attrs[key] is null")
        | Some attr =>
            let '(order, upd) :=
              decrement_successors (successors attr) (evaluate_order w)
                (evaluate_update_set w) in
            Done (s, {| evaluate_cache := evaluate_cache w;
                        evaluate_order := order;
                        evaluate_update_set := upd;
                        evaluate_delete_set := {[ key ]} ∪ evaluate_delete_set w |})
        end
      else Done (s, w)
      end
  end.

(** *** [Session::prepare_for_test], lines 1164-1211 *)

(** Lines 1175-1196: one line of the reference file; [cache] maps a tag to
    the first key loaded for it. *)
Definition load_reference_line (mg : TIRMultiGraph) (parts : list string)
    (s : Session) (cache : gmap string Z) : outcome (Session * gmap string Z) :=
  match parts with
  | part0 :: part1 :: _ =>
      match stoi part0 with
      | None => Fails (Thrown "std::stoi")
      | Some key =>
          let entity := multi_schedule_entity_from_string part1 in
          match graphs mg !! key with
          | None => Fails (Thrown "graphs[key]")
          | Some subgraph =>
              '(schedule_result, a) ←
                 schedule_with_entity key subgraph (sess_target s) entity (auto_scheduler s);
              let s := set_auto_scheduler a s in
              match build_func (schedule schedule_result) (tensors schedule_result)
                      (sess_target s) key with
              | None => Fails (Thrown "build_func")
              | Some module =>
                  let func := get_function module key in
                  let s :=
                    set_built_functions
                      (<[key := queue_at (built_functions s) key
                                ++ [(schedule_result, module, func)]]> (built_functions s)) s in
                  let s :=
                    set_best_functions
                      (<[key := queue_at (best_functions s) key
                                ++ [{| best_schedule := schedule_result;
                                       best_module := module; best_func := func;
                                       best_gflops := -999; best_elapsed := -999 |}]]>
                         (best_functions s)) s in
                  Done (s, match cache !! tag subgraph with
                           | None => <[tag subgraph := key]> cache
                           | Some _ => cache
                           end)
              end
          end
      end
  | _ => ERROR "Bad line"
  end.

Fixpoint load_reference (mg : TIRMultiGraph) (lines : list (list string))
    (s : Session) (cache : gmap string Z) : outcome (Session * gmap string Z) :=
  match lines with
  | [] => Done (s, cache)
  | parts :: rest =>
      '(s, cache) ← load_reference_line mg parts s cache;
      load_reference mg rest s cache
  end.

(** Lines 1203-1208: the keys that the file did not mention take the best
    of the key loaded for their tag. *)
Fixpoint alias_missing (all : list (Z * TIRGraph)) (cache : gmap string Z)
    (s : Session) : outcome Session :=
  match all with
  | [] => Done s
  | (key, subgraph) :: rest =>
      match queue_at (best_functions s) key with
      | _ :: _ => alias_missing rest cache s
      | [] =>
          match cache !! tag subgraph with
          | None => ERROR "Can't find the function for subgraph"
          | Some from =>
              match queue_at (best_functions s) from with
              | [] => Fails (Undefined "front() of an empty queue")
              | best :: _ =>
                  alias_missing rest cache
                    (set_best_functions (<[key := [best]]> (best_functions s)) s)
              end
          end
      end
  end.

Definition prepare_for_test (task_id : Z) (reference : string) (s : Session)
    : outcome Session :=
  match task_cache s !! task_id with
  | None => ERROR "No such task"
  | Some multi_graph =>
      match read_reference reference with
      | None => ERROR "Can't open schedule reference file"
      | Some lines =>
          '(s, cache) ← load_reference multi_graph lines s ∅;
          s ← alias_missing (map_to_list (graphs multi_graph)) cache s;
          Done (set_flags (finish s) (in_tuning s)
                  (<[task_id := true]> (cached_all_functions s)) s)
      end
  end.

(** *** [Session::begin_tuning], lines 1214-1283, and [Session::end_tuning],
    lines 1286-1324 *)

(** [if (threads.find(task_id) == threads.end()) threads[task_id] = std::thread(...)]. *)
Definition launch (task_id : Z) (w : Worker) (threads : gmap Z Thread) : gmap Z Thread :=
  match threads !! task_id with
  | None => <[task_id := Spawned w]> threads
  | Some _ => threads
  end.

Definition begin_tuning (task_id advance_number : Z) (reference : string)
    (first_stage_number : Z) (second_stage_topk_ratio : Q) (s : Session)
    : outcome Session :=
  match task_cache s !! task_id with
  | None => ERROR "No such task"
  | Some multi_graph =>
      let s := set_flags (<[task_id := false]> (finish s)) (in_tuning s)
                 (cached_all_functions s) s in
      let additional_build := 0 in
      s ← (if decide (reference = "") then Done s
           else prepare_for_test task_id reference s);
      let s :=
        set_threads
          (launch task_id
             (RunAutoschedule task_id advance_number reference first_stage_number
                second_stage_topk_ratio) (sch_threads s))
          (launch task_id (RunBuild task_id (advance_number + additional_build))
             (build_threads s))
          (launch task_id (RunEvaluate task_id (advance_number + additional_build))
             (evaluate_threads s)) s in
      Done (set_flags (finish s) (<[task_id := true]> (in_tuning s))
              (cached_all_functions s) s)
  end.

(** [if (threads.find(task_id) == threads.end())
    { threads[task_id].join(); threads.erase(task_id); }].  With no entry,
    [threads[task_id]] is a default-constructed [std::thread], whose
    [join()] throws [std::system_error]. *)
Definition end_thread (task_id : Z) (threads : gmap Z Thread) : outcome (gmap Z Thread) :=
  match threads !! task_id with
  | None => Fails (Thrown "std::system_error: join() of a thread that is not joinable")
  | Some _ => Done threads
  end.

(** The wait loop of lines 1288-1292 reads [cached_all_functions], which
    only the workers write: seen from the calling thread alone it exits at
    once or never. *)
Definition end_tuning (task_id : Z) (s : Session) : outcome Session :=
  if is_cached s task_id then
    let s := set_flags (<[task_id := true]> (finish s))
               (delete task_id (<[task_id := false]> (in_tuning s)))
               (cached_all_functions s) s in
    sch ← end_thread task_id (sch_threads s);
    let s := set_threads sch (build_threads s) (evaluate_threads s) s in
    build ← end_thread task_id (build_threads s);
    let s := set_threads (sch_threads s) build (evaluate_threads s) s in
    eval ← end_thread task_id (evaluate_threads s);
    Done (set_threads (sch_threads s) (build_threads s) eval s)
  else Fails Spins.

(** *** The session registry, lines 1365-1404 *)

(** The fields of [SessionOption] that the search reads; the log files,
    pool sizes and timeouts are not modelled. *)
Record SessionOption : Type := {
  autoschedule_topk : Z;
  autoschedule_new_trial : Z;
  autoschedule_policy : string
}.

(** [Session::Session], lines 69-91. *)
Definition new_session (tgt : Target) (dev_id : Z) (sess_option : SessionOption)
    : outcome Session :=
  if decide (target_name tgt = "cuda" ∨ target_name tgt = "llvm") then
    Done {| sess_target := tgt;
            auto_scheduler :=
              {| contexts := ∅;
                 thread_pool := {| Pool.tasks := []; Pool.stop := false |};
                 as_topk := autoschedule_topk sess_option;
                 as_new_trial := autoschedule_new_trial sess_option;
                 as_policy := autoschedule_policy sess_option |};
            task_cache := ∅; future_functions := ∅; built_functions := ∅;
            best_functions := ∅; emergency_schedule_queue := [];
            emergency_build_queue := []; finish := ∅; in_tuning := ∅;
            cached_all_functions := ∅; sch_threads := ∅; build_threads := ∅;
            evaluate_threads := ∅ |}
  else ERROR "Currently only support CUDA/LLVM".

(** The two function-local statics of [create_or_get_session].  A
    [std::shared_ptr<Session>] is an [option]: [None] is the null pointer. *)
Record Registry : Type := {
  sessions : gmap Z (option Session);
  global_count : Z
}.

Definition no_sessions : Registry := {| sessions := ∅; global_count := 0 |}.

(** [create_or_get_session], lines 1365-1384.  Returns the pointer, the
    value left in the reference parameter [session_id] and the statics.
    Line 1382 reads [sessions[global_count]] after the increment:
    [operator[]] inserts a null pointer under the next id. *)
Definition create_or_get_session (tgt : Target) (dev_id : Z) (sess_option : SessionOption)
    (session_id : Z) (get_session clear_session : bool) (r : Registry)
    : outcome (option Session * Z * Registry) :=
  if get_session then
    match sessions r !! session_id with
    | None => ERROR "Can't find the session"
    | Some ptr =>
        if clear_session
        then Done (None, session_id,
                   {| sessions := delete session_id (sessions r);
                      global_count := global_count r |})
        else Done (ptr, session_id, r)
    end
  else
    match new_session tgt dev_id sess_option with
    | Fails f => Fails f
    | Done sess =>
        let sessions1 : gmap Z (option Session) :=
          <[global_count r := Some sess]> (sessions r) in
        let session_id := global_count r in
        let global_count1 := global_count r + 1 in
        if global_count r =? INT_MAX
        then Fails (Undefined "signed overflow of global_count")
        else
        match sessions1 !! global_count1 with
        | Some ptr =>
            Done (ptr, session_id,
                  {| sessions := sessions1; global_count := global_count1 |})
        | None =>
            Done (None, session_id,
                  {| sessions := <[global_count1 := None]> sessions1;
                     global_count := global_count1 |})
        end
    end.

(** [create_session], lines 1387-1392. *)
Definition create_session (tgt : Target) (dev_id : Z) (sess_option : SessionOption)
    (r : Registry) : outcome (Z * Registry) :=
  '(_, ret, r) ← create_or_get_session tgt dev_id sess_option (-1) false false r;
  if 0 <=? ret then Done (ret, r)
  else ERROR "Invalid session id when creating session".

(** [SessionOption(0)], lines 63-66: a node with unset fields. *)
Definition dummy_option : SessionOption :=
  {| autoschedule_topk := 0; autoschedule_new_trial := 0; autoschedule_policy := "" |}.

(** [get_session], lines 1395-1398. *)
Definition get_session (session_id : Z) (r : Registry)
    : outcome (option Session * Registry) :=
  '(ptr, _, r) ← create_or_get_session target_llvm 0 dummy_option session_id true false r;
  Done (ptr, r).

(** [delete_session], lines 1401-1404. *)
Definition delete_session (session_id : Z) (r : Registry) : outcome Registry :=
  '(_, _, r) ← create_or_get_session target_llvm 0 dummy_option session_id true true r;
  Done r.
End Session.
End Driver.

(** ** A small world to run the model in

    Entities are their strings, a schedule is the list of entities applied
    to it, a subgraph is its tag, a module is the number of milliseconds
    its function takes and a function is its module with its key. *)

Module Sample.
Import Search Driver.

Definition entities : list string := ["a"; "b"; "c"; "d"].

#[export] Instance world : Collaborators := {|
  Entity := string;
  Schedule := list string;
  Tensors := unit;
  TIRGraph := string;
  Target := string;
  RtModule := Z;
  PackedFunc := Z * Z;
  tag := fun g => g;
  create_schedule := fun _ => [];
  graph_tensors := fun _ => tt;
  registry_interpret := Some (fun sch _ _ _ e => sch ++ [e]);
  registry_judge := None;
  measure := fun schedules _ _ _ => (fun sch => inject_Z (Z.of_nat (length sch))) <$> schedules;
  randdouble := fun _ => 1%Q;
  choose_one := fun _ n _ => default "z" (entities !! (n `div` 2)%nat);
  exp := fun _ => 1%Q;
  get_gflop := fun _ => 1%Q;
  evaluate_performance := fun md _ _ => inject_Z md;
  get_function := fun md key => (md, key);
  is_null := fun _ => false;
  build_func := fun sch _ _ _ => Some (Z.of_nat (length sch));
  target_name := fun t => t;
  target_llvm := "llvm";
  multi_schedule_entity_from_string := fun s => s;
  stoi := fun s => if decide (s = "0") then Some 0
                   else if decide (s = "1") then Some 1 else None;
  read_reference := fun name =>
    if decide (name = "ref") then Some [["0"; "b"; "5.0"; "2.0"]] else None
|}.

Definition result_of (e : string) : ScheduleResult :=
  {| schedule := [e]; tensors := tt; schedule_entities := e |}.

Definition scored (e : string) (v : Q) : EvaluatedScheduleResult :=
  {| schedule_result := result_of e; evaluation := v |}.

(** A context for key 0 with capacity [k], [trial] proposals per step and
    the given memory. *)
Definition context_with (k trial : Z) (h : list EvaluatedScheduleResult)
    (known knowing : gset string) : AutoScheduleContext :=
  with_memory h known knowing (new_context 0 "conv" "llvm" k trial "random").

Definition scheduler_with (m : gmap Z AutoScheduleContext) (pending : list Job)
    : AutoScheduler :=
  {| contexts := m;
     thread_pool := {| Pool.tasks := pending; Pool.stop := false |};
     as_topk := 20; as_new_trial := 20; as_policy := "profile" |}.

(** Two subgraphs with the same tag, 0 before 1. *)
Definition chain : TIRMultiGraph :=
  {| graphs := {[ 0 := "conv"; 1 := "conv" ]};
     graph_attrs := {[ 0 := {| num_predecessor := 0; successors := [1] |};
                       1 := {| num_predecessor := 1; successors := [] |} ]} |}.

Definition options : SessionOption :=
  {| autoschedule_topk := 20; autoschedule_new_trial := 20;
     autoschedule_policy := "profile" |}.

Definition session0 : Session :=
  {| sess_target := "llvm";
     auto_scheduler := scheduler_with {[ 0 := context_with 20 20 [] ∅ ∅;
                                         1 := context_with 20 20 [] ∅ ∅ ]} [];
     task_cache := {[ 0 := chain ]};
     future_functions := ∅; built_functions := ∅; best_functions := ∅;
     emergency_schedule_queue := []; emergency_build_queue := [];
     finish := ∅; in_tuning := ∅; cached_all_functions := ∅;
     sch_threads := ∅; build_threads := ∅; evaluate_threads := ∅ |}.

Definition artifact (e : string) (ms : Z) : BuiltFunction := (result_of e, ms, (ms, 0)).

Definition record (e : string) (ms : Z) (gflops : Q) : BestRecord :=
  {| best_schedule := result_of e; best_module := ms; best_func := (ms, 0);
     best_gflops := gflops; best_elapsed := inject_Z ms |}.

Definition build_walk0 : BuildWalk :=
  {| built := ∅; build_order := {[ 0 := 0; 1 := 1 ]};
     build_update_set := ∅; build_delete_set := ∅; build_count := 0 |}.

Definition evaluate_walk0 : EvaluateWalk :=
  {| evaluate_cache := ∅; evaluate_order := {[ 0 := 0; 1 := 1 ]};
     evaluate_update_set := ∅; evaluate_delete_set := ∅ |}.

Definition outcome_value {A} (d : A) (o : outcome A) : A :=
  match o with
  | Done a => a
  | Fails _ => d
  end.

(** A heap of capacity 1 that holds the entity "a" with score 5. *)
Definition full_context : AutoScheduleContext :=
  context_with 1 2 [scored "a" 5] ∅ ∅.

(** The context after one search step from [full_context]. *)
Definition stepped : ScheduleResult * AutoScheduleContext * nat :=
  outcome_value (result_of "z", full_context, 0%nat)
    (auto_schedule 2 "conv" full_context 0).

(** [n] artifacts wait for the evaluation of key 0 and one build is due. *)
Definition session_built (n : nat) : Session :=
  set_built_functions {[ 0 := replicate n (artifact "a" 1) ]}
    (set_future_functions {[ 0 := [(result_of "b", Some 2)] ]} session0).

(** Key 0 holds a record of 5 GFLOPS, key 1 one of 10 GFLOPS; an artifact
    that takes a second waits for key 0, one that takes 50 ms for key 1. *)
Definition session_best : Session :=
  set_built_functions {[ 0 := [artifact "c" 1000]; 1 := [artifact "d" 50] ]}
    (set_best_functions {[ 0 := [record "a" 2 5]; 1 := [record "b" 1 10] ]} session0).

Definition session_alias : Session :=
  set_built_functions {[ 0 := [artifact "c" 1000] ]} session_best.

Definition evaluate_walk1 : EvaluateWalk :=
  {| evaluate_cache := {[ "conv" := 0 ]}; evaluate_order := {[ 0 := 0; 1 := 1 ]};
     evaluate_update_set := ∅; evaluate_delete_set := ∅ |}.

Definition measured : Session * EvaluateWalk * bool * bool :=
  outcome_value (session_best, evaluate_walk1, false, false)
    (try_new_function 1 "conv" session_best evaluate_walk1).

(** The session after [begin_tuning] for task 0, once the evaluate worker
    has completed a pass (line 893). *)
Definition session_tuned : Session :=
  let s := outcome_value session0 (begin_tuning 0 1 "" 1 (1 # 2) session0) in
  set_flags (finish s) (in_tuning s) (<[0 := true]> (cached_all_functions s)) s.

(** The scheduler whose only context is [full_context], after one feedback. *)
Definition scheduler_full : AutoScheduler := scheduler_with {[ 0 := full_context ]} [].


(** Two nodes of one evaluate pass over [session_alias]: key 0, then key 1. *)
Definition evaluated0 : Session * EvaluateWalk :=
  outcome_value (session_alias, evaluate_walk0)
    (evaluate_helper chain false 0 session_alias evaluate_walk0).

Definition evaluated1 : Session * EvaluateWalk :=
  outcome_value evaluated0 (evaluate_helper chain false 1 evaluated0.1 evaluated0.2).

(** A session whose task 0 is cached although no worker was ever launched. *)
Definition session_cached_only : Session :=
  set_flags ∅ ∅ {[ 0 := true ]} session0.

(** Key 0 holds a record of 5 GFLOPS from an earlier tuning; then the
    reference "ref", which names key 0, is loaded, and the artifact built
    from it is measured. *)
Definition session_resumed : Session :=
  set_best_functions {[ 0 := [record "a" 2 5] ]} session0.

Definition reloaded : Session :=
  outcome_value session_resumed (prepare_for_test 0 "ref" session_resumed).

Definition remeasured : Session * EvaluateWalk * bool * bool :=
  outcome_value (reloaded, evaluate_walk0, false, false)
    (try_new_function 0 "conv" reloaded evaluate_walk0).

(** The registry after the first [create_session]. *)
Definition registry1 : Registry :=
  (outcome_value (0, no_sessions) (create_session "llvm" 0 options no_sessions)).2.
End Sample.

(** ** Invariants of the search state and clients of the scheduler *)

Module SearchUse.
Import Search.
Section Use.
Context `{Collaborators}.

(** What [add_feedback] keeps true of a top-K: no more than [topk]
    entries, every entry with a positive score, delivered in ascending
    order. *)
Definition topk_wf (c : AutoScheduleContext) : Prop :=
  Z.of_nat (length (topk_schedules c)) <= topk c
  /\ Forall (fun e => (0 < evaluation e)%Q) (topk_schedules c)
  /\ heap_ordered (topk_schedules c).

Definition scheduler_wf (s : AutoScheduler) : Prop :=
  0 <= as_topk s
  /\ forall k c, contexts s !! k = Some c -> topk_wf c /\ topk c = as_topk s.

(** What lines 173-181 have found after the first [n] judged values:
    nothing above the initial [-1], or the first index that holds the
    largest value. *)
Definition best_among (judges : list Q) (n : nat) (best_value : Q) (best_ind : Z) : Prop :=
  (best_ind = -1 /\ best_value = (-1)%Q
   /\ forall i v, (i < n)%nat -> judges !! i = Some v -> (v <= -1)%Q)
  \/ (0 <= best_ind < Z.of_nat n
      /\ judges !! Z.to_nat best_ind = Some best_value
      /\ (-1 < best_value)%Q
      /\ (forall i v, (i < n)%nat -> judges !! i = Some v -> (v <= best_value)%Q)
      /\ (forall i v, (i < Z.to_nat best_ind)%nat -> judges !! i = Some v ->
            (v < best_value)%Q)).

(** The calls a client makes on an [AutoScheduler]; a search job is shown
    at the moment a worker runs it, after [rng] draws of the generator. *)
Inductive request : Type :=
  | RunJob (fuel : nat) (key : Z) (subgraph : TIRGraph) (tgt : Target) (rng : nat)
  | WithEntity (key : Z) (subgraph : TIRGraph) (tgt : Target) (entity : Entity)
  | Feedback (key : Z) (subgraph : TIRGraph) (sr : ScheduleResult) (ev : Q)
  | Submit (key : Z) (subgraph : TIRGraph) (tgt : Target) (priority : Z).

Definition serve (r : request) (s : AutoScheduler) : outcome AutoScheduler :=
  match r with
  | RunJob fuel key subgraph tgt rng =>
      '(_, s', _) ← schedule_func fuel key subgraph tgt s rng; Done s'
  | WithEntity key subgraph tgt entity =>
      '(_, s') ← schedule_with_entity key subgraph tgt entity s; Done s'
  | Feedback key subgraph sr ev => feedback_for key subgraph sr ev s
  | Submit key subgraph tgt priority => schedule_for key subgraph tgt priority s
  end.

Fixpoint serve_all (rs : list request) (s : AutoScheduler) : outcome AutoScheduler :=
  match rs with
  | [] => Done s
  | r :: rest => s' ← serve r s; serve_all rest s'
  end.
End Use.
End SearchUse.

(** A sequence of pushes on a pool; [true] stands for [push_front]. *)
Module PoolUse.
Section Use.
Context {Task : Type}.


End Use.
End PoolUse.

(** The calls a process makes on the session registry. *)
Module RegistryUse.
Import Search Driver.
Section Use.
Context `{Collaborators}.

Inductive registry_call : Type :=
  | Create (tgt : Target) (dev_id : Z) (sess_option : SessionOption)
  | Get (session_id : Z)
  | Delete (session_id : Z).

Definition call (c : registry_call) (r : Registry) : outcome Registry :=
  match c with
  | Create tgt dev_id sess_option =>
      '(_, r') ← create_session tgt dev_id sess_option r; Done r'
  | Get session_id => '(_, r') ← get_session session_id r; Done r'
  | Delete session_id => delete_session session_id r
  end.

(** The calls that fail are skipped: the caller sees the error and the
    statics are what they were. *)
Fixpoint call_all (cs : list registry_call) (r : Registry) : Registry :=
  match cs with
  | [] => r
  | c :: rest =>
      match call c r with
      | Done r' => call_all rest r'
      | Fails _ => call_all rest r
      end
  end.

(** Every id in the table is one that was handed out, or the next one,
    which then holds a null pointer. *)
Definition registry_wf (r : Registry) : Prop :=
  0 <= global_count r
  /\ forall id ptr, sessions r !! id = Some ptr ->
       0 <= id < global_count r \/ (id = global_count r /\ ptr = None).
End Use.
End RegistryUse.

(** ** utils.cc: the locked queue *)

Module LockedQueue.
Section Queue.
Context {T : Type}.

(** [Queue<T>::push], utils.cc 51-55. *)
Definition push (value : T) (q : list T) : list T := q ++ [value].

(** [Queue<T>::pop], utils.cc 58-64: [front()] of an empty [std::queue] is
    undefined. *)
Definition pop (q : list T) : outcome (T * list T) :=
  match q with
  | [] => Fails (Undefined "front() of an empty queue")
  | ret :: rest => Done (ret, rest)
  end.

(** [Queue<T>::empty], utils.cc 67-71. *)
Definition empty (q : list T) : bool :=
  match q with
  | [] => true
  | _ :: _ => false
  end.

(** A consumer that pops [n] times. *)
Fixpoint pop_many (n : nat) (q : list T) : outcome (list T * list T) :=
  match n with
  | O => Done ([], q)
  | S n' =>
      '(ret, q') ← pop q;
      '(more, q'') ← pop_many n' q';
      Done (ret :: more, q'')
  end.
End Queue.
End LockedQueue.

(** ** driver.cc: the tensor tables and the time report of [run_functions] *)

Module Execute.
Section Tables.
Context {Tensor : Type} `{Countable Tensor} {NDArray : Type}.

(** [Session::get_data], lines 202-214. *)
Fixpoint get_data (persistent_tensors volatile_tensors : gmap Tensor NDArray)
    (keys : list Tensor) : outcome (list NDArray) :=
  match keys with
  | [] => Done []
  | k :: rest =>
      match persistent_tensors !! k, volatile_tensors !! k with
      | Some a, _ => ret ← get_data persistent_tensors volatile_tensors rest; Done (a :: ret)
      | None, Some a => ret ← get_data persistent_tensors volatile_tensors rest; Done (a :: ret)
      | None, None => Search.ERROR "Can't find the array for tensor"
      end
  end.
End Tables.

(** The [std::priority_queue<double> time_queue] of line 1005, largest on
    top, as the list of its entries in the order in which [top()]/[pop()]
    deliver them. *)
Fixpoint time_push (x : Q) (q : list Q) : list Q :=
  match q with
  | [] => [x]
  | y :: q' => if Qltb y x then x :: q else y :: time_push x q'
  end.

(** The order in which a max-heap delivers its entries. *)
Definition descending (q : list Q) : Prop :=
  StronglySorted (fun a b => (b <= a)%Q) q.

(** Line 1074, once per iteration. *)
Definition record_times (times : list Q) : list Q :=
  foldl (fun q t => time_push t q) [] times.

(** Lines 1083-1087: [for (i = 0; i <= total_num / 2; ++i)
    { median_time = top(); min_time = median_time; pop(); }]. *)
Fixpoint median_loop (iterations : nat) (q : list Q) (median_time min_time : Q)
    : outcome (list Q * Q * Q) :=
  match iterations with
  | O => Done (q, median_time, min_time)
  | S n =>
      match q with
      | [] => Fails (Undefined "top() of an empty priority_queue")
      | top :: rest => median_loop n rest top top
      end
  end.

(** Lines 1088-1091: [while (time_queue.size() > 1) { min_time = top(); pop(); }]. *)
Fixpoint min_loop (q : list Q) (min_time : Q) : Q :=
  match q with
  | top :: rest =>
      match rest with
      | [] => min_time
      | _ :: _ => min_loop rest top
      end
  | [] => min_time
  end.

(** Lines 1079-1095, for [profile_level >= 1]: the three numbers of the
    "Time report" line, as (min, med, max).  [median_time] and [min_time]
    are not initialised in the source; the first loop assigns them before
    they are read. *)
Definition time_report (times : list Q) : outcome (Q * Q * Q) :=
  let time_queue := record_times times in
  match time_queue with
  | [] => Fails (Undefined "top() of an empty priority_queue")
  | max_time :: _ =>
      let total_num := length time_queue in
      '(q, median_time, min_time) ←
         median_loop (S (total_num `div` 2)) time_queue max_time max_time;
      Done (min_loop q min_time, median_time, max_time)
  end.
End Execute.

(** ** driver.cc: [Session::add_task] and the static call order *)

Module Tasks.
Import Search Driver.
Section CallOrder.
Context `{Collaborators}.

(** The order in which [for (auto k : free_set)] visits the elements of a
    [std::unordered_set]; the language leaves it open. *)
Variable visit : gset Z -> list Z.

(** Lines 1133-1140: [call_order[kv.first] = kv.second->num_predecessor]
    for every node, and the nodes without predecessor in [free_set]. *)
Definition initial_call_order (mg : TIRMultiGraph) : gmap Z Z :=
  num_predecessor <$> graph_attrs mg.

Definition initial_free_set (mg : TIRMultiGraph) : gset Z :=
  dom (filter (fun kv => num_predecessor kv.2 = 0) (graph_attrs mg)).

(** Lines 1144-1152: the [for] loop over the free set, [free] being what
    is left of it. *)
Fixpoint visit_free (mg : TIRMultiGraph) (free : list Z) (order : list Z)
    (call_order : gmap Z Z) (update_set : gset Z)
    : outcome (list Z * gmap Z Z * gset Z) :=
  match free with
  | [] => Done (order, call_order, update_set)
  | k :: rest =>
      match graph_attrs mg !! k with
      | None => Fails (Undefined "graph_attrs[k] is null")
      | Some attr =>
          let '(call_order', update_set') :=
            decrement_successors (successors attr) call_order update_set in
          visit_free mg rest (order ++ [k]) call_order' update_set'
      end
  end.

(** Lines 1142-1157: [while (!free_set.empty())]. *)
Fixpoint order_loop (fuel : nat) (mg : TIRMultiGraph) (free_set : gset Z)
    (order : list Z) (call_order : gmap Z Z) : outcome (list Z) :=
  if decide (free_set = ∅) then Done order
  else
    match fuel with
    | O => Fails OutOfFuel
    | S fuel' =>
        '(order', call_order', update_set) ←
           visit_free mg (visit free_set) order call_order ∅;
        order_loop fuel' mg update_set order' call_order'
    end.

(** Lines 1131-1159: the order that becomes [static_call_order[task_id]]. *)
Definition static_order (fuel : nat) (mg : TIRMultiGraph) : outcome (list Z) :=
  order_loop fuel mg (initial_free_set mg) [] (initial_call_order mg).

(** The two members of [Session] that [add_task] writes besides
    [task_cache]. *)
Record TaskTable : Type := {
  task_count : Z;
  static_call_order : gmap Z (list Z)
}.

Definition set_task_cache (tc : gmap Z TIRMultiGraph) (s : Session) : Session :=
  {| sess_target := sess_target s; auto_scheduler := auto_scheduler s;
     task_cache := tc;
     future_functions := future_functions s; built_functions := built_functions s;
     best_functions := best_functions s;
     emergency_schedule_queue := emergency_schedule_queue s;
     emergency_build_queue := emergency_build_queue s;
     finish := finish s; in_tuning := in_tuning s;
     cached_all_functions := cached_all_functions s;
     sch_threads := sch_threads s; build_threads := build_threads s;
     evaluate_threads := evaluate_threads s |}.

(** [Session::add_task], lines 1120-1161, given the multi-graph that the
    partition engine made of the graph.  The output buffers that
    [allocate_output_buffer] creates are not modelled. *)
Definition add_task (fuel : nat) (mg : TIRMultiGraph) (s : Session) (t : TaskTable)
    : outcome (Z * Session * TaskTable) :=
  if task_count t =? INT_MAX then Fails (Undefined "signed overflow of task_count")
  else
    let task_id := task_count t in
    order ← static_order fuel mg;
    Done (task_id,
          set_task_cache (<[task_id := mg]> (task_cache s)) s,
          {| task_count := task_id + 1;
             static_call_order := <[task_id := order]> (static_call_order t) |}).

(** The successors of a node, the number of edges into [v] from the nodes
    of a list, and the graphs in which [num_predecessor] counts the edges
    into a node. *)
Definition succs_of (mg : TIRMultiGraph) (p : Z) : list Z :=
  match graph_attrs mg !! p with
  | Some attr => successors attr
  | None => []
  end.

Definition edges_into (mg : TIRMultiGraph) (v : Z) (ps : list Z) : nat :=
  sum_list_with (fun p => length (filter (fun x => x = v) (succs_of mg p))) ps.

Definition counts_predecessors (mg : TIRMultiGraph) : Prop :=
  map_Forall
    (fun v attr =>
       num_predecessor attr
       = Z.of_nat (edges_into mg v (elements (dom (graph_attrs mg)))))
    (graph_attrs mg).

(** All nodes with an edge into [v] are in [done]. *)
Definition preds_done (mg : TIRMultiGraph) (v : Z) (done : list Z) : Prop :=
  forall p, p ∈ dom (graph_attrs mg) -> v ∈ succs_of mg p -> p ∈ done.

(** Every node of the list comes after all the nodes with an edge into it. *)
Definition respects_edges (mg : TIRMultiGraph) (order : list Z) : Prop :=
  forall i v, order !! i = Some v ->
    forall p, p ∈ dom (graph_attrs mg) -> v ∈ succs_of mg p ->
      exists j, (j < i)%nat /\ order !! j = Some p.

(** What holds whenever the [for] loop of lines 1144-1152 is about to
    visit a node: [order] so far, [pending] the rest of the free set. *)
Record walk_inv (mg : TIRMultiGraph) (order pending : list Z)
    (call_order : gmap Z Z) (update_set : gset Z) : Prop := {
  inv_nodup : NoDup (order ++ pending);
  inv_dom : forall k, k ∈ order ++ pending -> k ∈ dom (graph_attrs mg);
  inv_count : forall v,
    count_at call_order v
    = count_at (initial_call_order mg) v - Z.of_nat (edges_into mg v order);
  inv_update : forall v, v ∈ update_set ->
    (v ∉ order ++ pending) /\ v ∈ dom (graph_attrs mg) /\ count_at call_order v <= 0
    /\ (counts_predecessors mg -> preds_done mg v order);
  inv_seen : forall k, k ∈ order ++ pending -> count_at call_order k <= 0;
  inv_order : counts_predecessors mg -> respects_edges mg order;
  inv_pending : counts_predecessors mg ->
    forall v, v ∈ pending -> preds_done mg v order;
  inv_zero : forall v, v ∈ dom (graph_attrs mg) -> count_at call_order v = 0 ->
    v ∈ order ++ pending \/ v ∈ update_set
}.

(** The edges go from lower to higher ranks. *)
Definition acyclic (mg : TIRMultiGraph) : Prop :=
  exists rank : Z -> nat,
    forall p v, p ∈ dom (graph_attrs mg) -> v ∈ succs_of mg p ->
      (rank p < rank v)%nat.
End CallOrder.
End Tasks.

(** ** driver.cc: what a reference file names *)

Module Reference.
Import Search Driver.
Section Lines.
Context `{Collaborators}.

(** The key that a line of the reference file names, line 1177:
    [std::stoi(parts[0])] of a line with two parts or more. *)
Definition line_key (parts : list string) : option Z :=
  match parts with
  | part0 :: _ :: _ => stoi part0
  | _ => None
  end.

(** The keys that the lines of the file name, in the order of the lines. *)
Definition named_keys (lines : list (list string)) : list Z := omap line_key lines.

(** The first key of a list whose subgraph carries the tag. *)
Fixpoint first_with_tag (mg : TIRMultiGraph) (t : string) (keys : list Z) : option Z :=
  match keys with
  | [] => None
  | k :: rest =>
      if decide (tag <$> graphs mg !! k = Some t) then Some k
      else first_with_tag mg t rest
  end.

(** What line 1191 pushes carries -999 for the gflops and for the time. *)
Definition from_reference (r : BestRecord) : Prop :=
  best_gflops r = (-999)%Q /\ best_elapsed r = (-999)%Q.
End Lines.
End Reference.

(** ** driver.cc: the checks of [Session::run] *)

Module Running.
Import Search Driver.
Section Run.
Context `{Collaborators}.

(** [Session::run], lines 1350-1355: what is checked before
    [run_functions] is called.  Both maps are read with [find] first, so
    no entry is created. *)
Definition run_ready (task_id : Z) (s : Session) : outcome unit :=
  match task_cache s !! task_id with
  | None => ERROR "Can't find the task"
  | Some _ =>
      if is_cached s task_id then Done tt
      else if flag_at (in_tuning s) task_id then Done tt
      else ERROR "Functions of task are not ready, but the tuning is stopped!"
  end.
End Run.
End Running.

(** ** Sample runs for the further properties *)

Module Cases.
Import Search Driver Sample SearchUse RegistryUse Tasks Running.

(** [full_context] after the feedback of "b" with score 7. *)
Definition fed_context : AutoScheduleContext :=
  outcome_value full_context (add_feedback (result_of "b") 7 full_context).

(** A context that asks for no proposal per step. *)
Definition no_trial_context : AutoScheduleContext := context_with 1 0 [] ∅ ∅.

Definition selected : AutoScheduleContext * list string * nat :=
  outcome_value (full_context, [], 0%nat) (select_candidates 2 full_context 0).

(** A search job and a feedback on a scheduler that starts without context. *)
Definition requests : list request :=
  [RunJob 2 0 "conv" "llvm" 0; Feedback 0 "conv" (result_of "b") 7].

Definition served : AutoScheduler :=
  outcome_value (scheduler_with ∅ []) (serve_all requests (scheduler_with ∅ [])).

Definition served_context : AutoScheduleContext :=
  default full_context (contexts served !! 0).

Definition searched : ScheduleResult * AutoScheduler * nat :=
  outcome_value (result_of "z", scheduler_full, 0%nat)
    (schedule_func 2 0 "conv" "llvm" scheduler_full 0).

(** One artifact waits for key 0, one future is due, and key 0 heads the
    emergency build queue. *)
Definition session_emergency : Session :=
  set_emergency_build_queue [0] (session_built 1).

Definition built_emergency : Session * BuildWalk :=
  default (session_emergency, build_walk0)
    (outcome_value None (build_node 0 chain false 0 session_emergency build_walk0)).

Definition prepared : Session :=
  outcome_value session0 (prepare_for_test 0 "ref" session0).

Definition session_begun : Session :=
  outcome_value session0 (begin_tuning 0 1 "" 1 (1 # 2) session0).

(** The schedule worker of task 0 is a thread object that is not joinable,
    as a failed [join()] leaves it. *)
Definition session_stale : Session :=
  set_threads {[ 0 := NotAThread ]} ∅ ∅ session0.

Definition session_restarted : Session :=
  outcome_value session_stale (begin_tuning 0 1 "" 1 (1 # 2) session_stale).

Definition registry_deleted : Registry :=
  outcome_value registry1 (delete_session 0 registry1).

(** Two sessions are created, a wrong id is asked for, the first session
    is deleted. *)
Definition calls : list registry_call :=
  [Create "llvm" 0 options; Get 7; Create "llvm" 0 options; Delete 0].

Definition found : option Session * Registry :=
  outcome_value (None, no_sessions) (get_session 1 (call_all calls no_sessions)).

Definition found_session : Session := default session0 found.1.

Definition no_tasks : TaskTable := {| task_count := 0; static_call_order := ∅ |}.

End Cases.

(** * Properties *)

(** ** Comparison of scores *)

Lemma Qltb_lt (x y : Q) : Qltb x y = true <-> (x < y)%Q.
Proof.
  unfold Qltb. destruct (Qlt_le_dec x y) as [Hlt | Hle]; split; intros Hx; try done.
  exfalso. exact (Qle_not_lt _ _ Hle Hx).
Qed.

Lemma Qltb_ge (x y : Q) : Qltb x y = false <-> (y <= x)%Q.
Proof.
  unfold Qltb. destruct (Qlt_le_dec x y) as [Hlt | Hle]; split; intros Hx; try done.
  exfalso. exact (Qle_not_lt _ _ Hx Hlt).
Qed.

(** ** The worker pool *)

Section PoolFacts.
Context {Task : Type}.
Implicit Types (tp : Pool.ThreadPool Task) (t : Task).

(** Both entry points of the pool do the same thing to the deque. *)
Lemma push_front_appends t pending :
  Pool.push_front t {| Pool.tasks := pending; Pool.stop := false |}
  = Done {| Pool.tasks := pending ++ [t]; Pool.stop := false |}.
Proof. reflexivity. Qed.

Lemma push_back_appends t pending :
  Pool.push_back t {| Pool.tasks := pending; Pool.stop := false |}
  = Done {| Pool.tasks := pending ++ [t]; Pool.stop := false |}.
Proof. reflexivity. Qed.

(** A worker starts the front task and the process ends in it. *)
Lemma worker_first_task fuel t rest b :
  Pool.worker (S fuel) {| Pool.tasks := t :: rest; Pool.stop := b |}
  = ([t], {| Pool.tasks := rest; Pool.stop := b |}, Fails Aborted).
Proof. reflexivity. Qed.

(** The workers take the tasks from the front, one each. *)
Lemma drain_order_take (threads : nat) (pending : list Task) b :
  Pool.drain_order threads {| Pool.tasks := pending; Pool.stop := b |}
  = take threads pending.
Proof.
  revert pending. induction threads as [| threads IH]; intros pending; [done |].
  destruct pending as [| t rest]; [by destruct b |].
  unfold Pool.drain_order; fold (Pool.drain_order (Task := Task)).
  cbn [Pool.tasks]. rewrite worker_first_task. simpl. by rewrite IH.
Qed.

Lemma drain_order_all (pending : list Task) b :
  Pool.drain_order (length pending) {| Pool.tasks := pending; Pool.stop := b |} = pending.
Proof. by rewrite drain_order_take, firstn_all. Qed.
End PoolFacts.

Section SearchFacts.
Context `{Collaborators}.
Import Search.

(** C1, as the code has it: a job submitted with priority 1 (emergency)
    while a normal job and any further jobs are pending goes to the back of
    the task deque.  The worker whose turn it is takes the normal job, and
    whatever the number of workers, the jobs that the pool starts are the
    first jobs of the deque, one per worker: the emergency job is started
    after every pending job, and only by a pool that has a worker for each
    of them.  The claim asks for the head of the queue. *)
Theorem C1_emergency_job_goes_to_the_back
    (s : AutoScheduler) (normal : Job) (pending : list Job)
    (key : Z) (subgraph : TIRGraph) (tgt : Target) :
  let emergency := {| job_key := key; job_subgraph := subgraph; job_target := tgt |} in
  let busy := with_pool {| Pool.tasks := normal :: pending; Pool.stop := false |} s in
  exists s',
    schedule_for key subgraph tgt 1 busy = Done s'
    /\ Pool.tasks (thread_pool s') = normal :: pending ++ [emergency]
    /\ (forall threads,
          Pool.drain_order threads (thread_pool s')
          = take threads (normal :: pending ++ [emergency]))
    /\ Pool.drain_order (S (S (length pending))) (thread_pool s')
       = normal :: pending ++ [emergency]
    /\ Pool.worker_take (thread_pool s')
       = Pool.Runs normal {| Pool.tasks := pending ++ [emergency]; Pool.stop := false |}.
Proof.
  intros emergency busy. eexists. split; [reflexivity |].
  cbn [thread_pool with_pool].
  change (Pool.tasks {| Pool.tasks := normal :: pending; Pool.stop := false |} ++ [emergency])
    with (normal :: pending ++ [emergency]).
  split; [done |]. split; [intros threads; apply drain_order_take |].
  split; [| done].
  pose proof (drain_order_all (normal :: pending ++ [emergency]) false) as Hd.
  simpl length in Hd. rewrite length_app in Hd. simpl length in Hd.
  by replace (S (length pending + 1))%nat with (S (S (length pending))) in Hd by lia.
Qed.

(** ** The search step *)

Lemma snapshot_topk_spec (h acc : list EvaluatedScheduleResult) :
  snapshot_topk h acc = (acc ++ h, []).
Proof.
  revert acc. induction h as [| top rest IH]; intros acc; simpl.
  - by rewrite app_nil_r.
  - rewrite IH. by rewrite <- app_assoc.
Qed.

(** What one slot proposes does not depend on the seen sets; only the
    filter reads them. *)
Lemma propose_relaxed ctx reverse_sort p rng :
  exists e n, propose ctx reverse_sort p false rng = ([e], n).
Proof.
  unfold propose.
  destruct (Qltb (randdouble rng) 0.7 && (warm_up_trials <? counts ctx));
    [destruct (choose_seed _ _) as [seed rng1] |]; eauto.
Qed.

Lemma propose_filter ctx reverse_sort p rng e n :
  propose ctx reverse_sort p false rng = ([e], n) ->
  propose ctx reverse_sort p true rng
  = ((if decide (e ∈ known_schedules ctx) then [] else [e])
     ++ (if decide (e ∈ knowing_schedules ctx) then [] else [e]), n).
Proof.
  unfold propose.
  destruct (Qltb (randdouble rng) 0.7 && (warm_up_trials <? counts ctx));
    [destruct (choose_seed _ _) as [seed rng1] |]; intros [= <- <-]; done.
Qed.

Lemma propose_memory h known knowing ctx reverse_sort p rng :
  propose (with_memory h known knowing ctx) reverse_sort p false rng
  = propose ctx reverse_sort p false rng.
Proof. reflexivity. Qed.



(** With no proposal per pass the loop cannot exit: whatever the bound, the
    model runs out of it. *)
Lemma prepare_candidates_spins fuel ctx reverse_sort p must_new rng :
  new_trial ctx <= 0 ->
  prepare_candidates fuel ctx reverse_sort p must_new [] rng = Fails OutOfFuel.
Proof.
  intros Htrial. revert must_new.
  induction fuel as [| fuel IH]; intros must_new; [done |].
  cbn [prepare_candidates].
  replace (Z.to_nat (new_trial ctx)) with 0%nat by lia. simpl. apply IH.
Qed.


(** C6, as the code has it: on the first pass a proposal [e] goes through
    two independent tests.  If it is in [known_schedules] (seen_stable) but
    not in [knowing_schedules] (seen_active), or the other way round, it is
    accepted although it was met before; if it is in neither it is appended
    twice; only if it is in both it is rejected. *)
Theorem C6_first_pass_filter_tests_each_set_alone
    (ctx : AutoScheduleContext) (reverse_sort : list EvaluatedScheduleResult)
    (p : list Q) (rng : nat) (h : list EvaluatedScheduleResult) :
  exists (e : Entity) (n : nat),
    propose ctx reverse_sort p false rng = ([e], n)
    /\ propose (with_memory h {[ e ]} ∅ ctx) reverse_sort p true rng = ([e], n)
    /\ propose (with_memory h ∅ {[ e ]} ctx) reverse_sort p true rng = ([e], n)
    /\ propose (with_memory h ∅ ∅ ctx) reverse_sort p true rng = ([e; e], n)
    /\ propose (with_memory h {[ e ]} {[ e ]} ctx) reverse_sort p true rng = ([], n).
Proof.
  destruct (propose_relaxed ctx reverse_sort p rng) as (e & n & He).
  exists e, n. split; [done |].
  repeat split;
    (erewrite propose_filter; [| by rewrite propose_memory]); simpl;
    repeat case_decide; set_solver.
Qed.

(** ** Feedback ingestion *)

Lemma heap_push_length e h : length (heap_push e h) = S (length h).
Proof.
  induction h as [| x h IH]; simpl; [done |].
  destruct (evaluated_lt e x); simpl; by rewrite ?IH.
Qed.

Lemma heap_push_elem_of e h x : x ∈ heap_push e h <-> x = e \/ x ∈ h.
Proof.
  induction h as [| y h IH]; simpl.
  - rewrite list_elem_of_singleton, elem_of_nil. tauto.
  - destruct (evaluated_lt e y); rewrite !elem_of_cons; [tauto |].
    rewrite IH. tauto.
Qed.

Lemma heap_push_ordered e h : heap_ordered h -> heap_ordered (heap_push e h).
Proof.
  unfold heap_ordered. induction h as [| x h IH]; intros Hh; simpl.
  - repeat constructor.
  - inversion Hh as [| ? ? Hsorted Hall]; subst.
    destruct (evaluated_lt e x) eqn:Hlt; unfold evaluated_lt in Hlt.
    + apply Qltb_lt in Hlt. constructor; [done |].
      constructor; [by apply Qlt_le_weak |].
      eapply Forall_impl; [exact Hall |]. intros y Hy; simpl in Hy.
      eapply Qle_trans; [by apply Qlt_le_weak | done].
    + apply Qltb_ge in Hlt. constructor; [by apply IH |].
      apply Forall_forall. intros y [-> | Hy]%heap_push_elem_of; [done |].
      rewrite Forall_forall in Hall. by apply Hall.
Qed.

Lemma heap_ordered_top top rest :
  heap_ordered (top :: rest) ->
  Forall (fun x => (evaluation top <= evaluation x)%Q) rest /\ heap_ordered rest.
Proof. intros Hh. by inversion Hh. Qed.

Lemma remember_topk e h self : topk_schedules (remember e h self) = h.
Proof. unfold remember. by case_decide. Qed.

Lemma remember_counts e h self : counts (remember e h self) = counts self.
Proof. unfold remember. by case_decide. Qed.

Lemma add_feedback_counts sr ev self self' :
  add_feedback sr ev self = Done self' -> counts self' = counts self.
Proof.
  unfold add_feedback. intros Hfb.
  repeat match type of Hfb with
         | context [if ?b then _ else _] => destruct b
         | context [match ?l with [] => _ | _ :: _ => _ end] => destruct l
         end;
    try discriminate; injection Hfb as <-; by rewrite ?remember_counts.
Qed.


(** C7, amended: with [gflops > 0] and a full heap, whose top is its
    minimum, the new result is dropped, and the whole context left as it
    was, if and only if its score is strictly below the minimum; otherwise,
    also when the two scores are equal, the minimum is evicted and the new
    result inserted. *)
Theorem C7_full_heap_keeps_result_not_below_minimum
    (sr : ScheduleResult) (ev : Q) (self : AutoScheduleContext)
    (top : EvaluatedScheduleResult) (rest : list EvaluatedScheduleResult) :
  (0 < ev)%Q ->
  topk_schedules self = top :: rest ->
  topk self <= Z.of_nat (length (top :: rest)) ->
  heap_ordered (topk_schedules self) ->
  let evaluated := {| schedule_result := sr; evaluation := ev |} in
  let inserted := remember (schedule_entities sr) (heap_push evaluated rest) self in
  Forall (fun x => (evaluation top <= evaluation x)%Q) rest
  /\ ((ev < evaluation top)%Q -> add_feedback sr ev self = Done self)
  /\ ((evaluation top <= ev)%Q ->
        add_feedback sr ev self = Done inserted
        /\ topk_schedules inserted = heap_push evaluated rest
        /\ evaluated ∈ topk_schedules inserted
        /\ length (topk_schedules inserted) = length (topk_schedules self)
        /\ heap_ordered (topk_schedules inserted)).
Proof.
  intros Hpos Hheap Hfull Hord evaluated inserted.
  rewrite Hheap in Hord. destruct (heap_ordered_top _ _ Hord) as [Hmin Hrest].
  split; [done |].
  assert (Hgo : forall b,
    evaluated_lt evaluated top = b ->
    add_feedback sr ev self = if b then Done self else Done inserted).
  { intros b Hb. unfold add_feedback.
    apply Qltb_lt in Hpos. rewrite Hpos, Hheap.
    replace (Z.of_nat (length (top :: rest)) <? topk self) with false
      by (symmetry; by apply Z.ltb_ge).
    fold evaluated. by rewrite Hb. }
  split.
  - intros Hlt. apply (Hgo true). by apply Qltb_lt.
  - intros Hge. split; [apply (Hgo false); by apply Qltb_ge |].
    unfold inserted. rewrite remember_topk, Hheap, heap_push_length.
    repeat split; [apply heap_push_elem_of; by left | by apply heap_push_ordered].
Qed.

Lemma feedback_loop_counts todo i ts tmp_judges ctx best_value best_ind ctx' v' i' :
  feedback_loop todo i ts tmp_judges ctx best_value best_ind = Done (ctx', v', i') ->
  counts ctx' = counts ctx.
Proof.
  revert i ctx best_value best_ind.
  induction todo as [| [tmp_sch cand] rest IH]; intros i ctx best_value best_ind; simpl.
  - by intros [= <- _ _].
  - destruct (tmp_judges !! i) as [v |]; [| done].
    destruct (decide (policy ctx = "profile")); simpl.
    + destruct (add_feedback _ v ctx) as [ctx1 |] eqn:Hfb; simpl; [| done].
      apply add_feedback_counts in Hfb. rewrite <- Hfb.
      destruct (Qltb best_value v); apply IH.
    + destruct (Qltb best_value v); apply IH.
Qed.

Lemma select_candidates_counts fuel ctx rng ctx' cands rng' :
  select_candidates fuel ctx rng = Done (ctx', cands, rng') -> counts ctx' = counts ctx.
Proof.
  unfold select_candidates. rewrite snapshot_topk_spec.
  destruct (prepare_candidates _ _ _ _ _ _ _) as [[c r] |]; simpl; [| done].
  by intros [= <- _ _].
Qed.

Lemma auto_schedule_counts fuel subgraph ctx rng results ctx' rng' :
  auto_schedule fuel subgraph ctx rng = Done (results, ctx', rng') ->
  counts ctx' = counts ctx + 1.
Proof.
  unfold auto_schedule, empty_schedule.
  destruct (select_candidates fuel ctx rng) as [[[ctx1 cands] rng1] |] eqn:Hsel;
    simpl; [| done].
  apply select_candidates_counts in Hsel.
  destruct (interpret_all _ _ _ cands) as [tmp_schedules |]; simpl; [| done].
  destruct (judge_schedule _ _ _ _ _ _) as [[tmp_judges rng2] |]; simpl; [| done].
  destruct (feedback_loop _ _ _ _ _ _ _) as [[[ctx2 best_value] best_ind] |] eqn:Hloop;
    simpl; [| done].
  apply feedback_loop_counts in Hloop.
  destruct (best_ind <? 0); [done |].
  destruct (cands !! Z.to_nat best_ind) as [result_entity |]; [| done].
  destruct (interpret _ _ _ _ result_entity) as [sch' |]; simpl; [| done].
  destruct (counts ctx2 =? INT_MAX); [done |].
  intros [= _ <- _]. simpl. lia.
Qed.


(** C10: [schedule_with_entity] returns the schedule that the interpreter
    makes of the supplied entity, and the search state of the key, if there
    is one, is the same afterwards; if there is none, a context with an
    empty top-K, empty seen sets and [counts = 0] is created.  The other
    keys and the worker pool are not touched. *)
Theorem C10_schedule_with_entity_keeps_search_state
    (key : Z) (subgraph : TIRGraph) (tgt : Target) (entity : Entity)
    (s : AutoScheduler)
    (f : Schedule -> Tensors -> TIRGraph -> Target -> Entity -> Schedule) :
  registry_interpret = Some f ->
  exists s',
    schedule_with_entity key subgraph tgt entity s
    = Done ({| schedule := f (create_schedule subgraph) (graph_tensors subgraph)
                             subgraph tgt entity;
               tensors := graph_tensors subgraph;
               schedule_entities := entity |}, s')
    /\ thread_pool s' = thread_pool s
    /\ (forall k, k <> key -> contexts s' !! k = contexts s !! k)
    /\ match contexts s !! key with
       | Some c => s' = s /\ contexts s' !! key = Some c
       | None =>
           exists c', contexts s' !! key = Some c'
             /\ c' = new_context key subgraph tgt (as_topk s) (as_new_trial s) (as_policy s)
             /\ topk_schedules c' = [] /\ known_schedules c' = ∅
             /\ knowing_schedules c' = ∅ /\ counts c' = 0
       end.
Proof.
  intros Hf. exists (ensure_context key subgraph tgt s).
  unfold schedule_with_entity, empty_schedule, interpret. rewrite Hf. simpl.
  split; [done |]. unfold ensure_context.
  destruct (contexts s !! key) as [c |] eqn:Hc; simpl.
  - by rewrite Hc.
  - split; [done |]. split; [by intros k Hk; rewrite lookup_insert_ne |].
    eexists. by rewrite lookup_insert_eq.
Qed.
End SearchFacts.

(** ** The session *)

Section DriverFacts.
Context `{Collaborators}.
Import Search Driver.

Lemma queue_at_insert_eq {A} (m : gmap Z (list A)) key q :
  queue_at (<[key := q]> m) key = q.
Proof. unfold queue_at. by rewrite lookup_insert_eq. Qed.

Lemma queue_at_insert_ne {A} (m : gmap Z (list A)) key key' q :
  key <> key' -> queue_at (<[key := q]> m) key' = queue_at m key'.
Proof. intros Hne. unfold queue_at. by rewrite lookup_insert_ne. Qed.

(** *** The best slot *)

Lemma store_function_singleton (candidate old : BestRecord) :
  (store_function candidate [old] = [candidate]
   /\ (best_gflops old < best_gflops candidate)%Q)
  \/ (store_function candidate [old] = [old]
      /\ (best_gflops candidate <= best_gflops old)%Q).
Proof.
  unfold store_function.
  destruct (Qltb (best_gflops old) (best_gflops candidate)) eqn:Hlt.
  - left. split; [done | by apply Qltb_lt].
  - right. split; [done | by apply Qltb_ge].
Qed.

(** What lines 801-813 do to a best slot. *)
Lemma store_function_cases (candidate : BestRecord) (slot : list BestRecord) :
  store_function candidate slot = slot
  \/ (slot = [] /\ store_function candidate slot = [candidate])
  \/ (exists old rest,
        slot = old :: rest
        /\ (best_gflops old < best_gflops candidate)%Q
        /\ store_function candidate slot = rest ++ [candidate]).
Proof.
  unfold store_function. destruct slot as [| old rest]; [right; left; done |].
  destruct (Qltb (best_gflops old) (best_gflops candidate)) eqn:Hlt; [| by left].
  right. right. exists old, rest. split; [done |]. split; [by apply Qltb_lt | done].
Qed.

(** C4, amended.  The measurement path of the evaluate worker leaves the
    best slot of its key as it is, or fills an empty slot, or pops the
    front record and pushes at the back a record of strictly greater
    gflops than the one popped; so on a slot that holds one record the
    record stays or gives way to one of strictly greater gflops, and with
    more records in the slot the next one in the queue becomes the front.
    The aliasing path pops the front record, if there is one, and pushes
    the best record of the sibling with the same tag whatever the gflops
    of the two are. *)
Theorem C4_best_grows_on_measurement_and_is_overwritten_by_alias
    (key : Z) (subgraph : TIRGraph) (s : Session) (w : EvaluateWalk) :
  (forall s' w' succ taken,
     try_new_function key subgraph s w = Done (s', w', succ, taken) ->
     (queue_at (best_functions s') key = queue_at (best_functions s) key
      \/ (exists candidate,
            queue_at (best_functions s) key = []
            /\ queue_at (best_functions s') key = [candidate])
      \/ (exists old rest candidate,
            queue_at (best_functions s) key = old :: rest
            /\ (best_gflops old < best_gflops candidate)%Q
            /\ queue_at (best_functions s') key = rest ++ [candidate]))
     /\ (forall old,
           queue_at (best_functions s) key = [old] ->
           exists new,
             queue_at (best_functions s') key = [new]
             /\ (new = old \/ (best_gflops old < best_gflops new)%Q)
             /\ (best_gflops old <= best_gflops new)%Q))
  /\ (forall repeat_key sibling others,
        evaluate_cache w !! tag subgraph = Some repeat_key ->
        queue_at (best_functions s) repeat_key = sibling :: others ->
        exists s2,
          try_repeated_function key subgraph s w = (s2, true)
          /\ queue_at (best_functions s2) key
             = tail (queue_at (best_functions s) key) ++ [sibling]).
Proof.
  split.
  - intros s' w' succ taken Hnew.
    assert (Hslot :
      queue_at (best_functions s') key = queue_at (best_functions s) key
      \/ exists candidate,
           queue_at (best_functions s') key
           = store_function candidate (queue_at (best_functions s) key)).
    { unfold try_new_function in Hnew.
      destruct (queue_at (built_functions s) key) as [| [[sr md] func] rest].
      { injection Hnew as <- _ _ _. by left. }
      destruct (is_null func); [done |].
      destruct (Qltb 0 (evaluate_performance md key (tensors sr))).
      - destruct (feedback_for _ _ _ _ _) as [a |]; simpl in Hnew; [| done].
        injection Hnew as <- _ _ _. right. eexists. simpl.
        by rewrite queue_at_insert_eq.
      - destruct (feedback_for _ _ _ _ _) as [a |]; simpl in Hnew; [| done].
        injection Hnew as <- _ _ _. by left. }
    split.
    + destruct Hslot as [-> | [candidate ->]]; [by left |].
      destruct (store_function_cases candidate (queue_at (best_functions s) key))
        as [-> | [[Hempty ->] | (old & rest & Hq & Hlt & ->)]].
      * by left.
      * right. left. by exists candidate.
      * right. right. by exists old, rest, candidate.
    + intros old Hold. rewrite Hold in Hslot.
      destruct Hslot as [-> | [candidate ->]].
      { exists old. split; [done |]. split; [by left | apply Qle_refl]. }
      destruct (store_function_singleton candidate old) as [[-> Hlt] | [-> Hge]].
      * exists candidate. split; [done |]. split; [by right | by apply Qlt_le_weak].
      * exists old. split; [done |]. split; [by left | apply Qle_refl].
  - intros repeat_key sibling others Hcache Hsibling.
    unfold try_repeated_function. rewrite Hcache, Hsibling.
    eexists. split; [done |]. simpl. rewrite queue_at_insert_eq.
    unfold push_cache_function. by destruct (queue_at (best_functions s) key).
Qed.

(** *** Ending a tuning task *)

Lemma end_thread_spec task_id (threads threads' : gmap Z Thread) :
  end_thread task_id threads = Done threads' ->
  threads' = threads /\ is_Some (threads !! task_id).
Proof.
  unfold end_thread. destruct (threads !! task_id) as [t |] eqn:Ht; [| done].
  intros [= <-]. eauto.
Qed.

(** Whenever [end_tuning] returns, the task was cached when it was called
    and the thread tables are what they were: it has joined and erased
    nothing. *)
Lemma end_tuning_keeps_threads task_id s s' :
  end_tuning task_id s = Done s' ->
  is_cached s task_id = true
  /\ sch_threads s' = sch_threads s
  /\ build_threads s' = build_threads s
  /\ evaluate_threads s' = evaluate_threads s
  /\ is_Some (sch_threads s !! task_id)
  /\ flag_at (finish s') task_id = true.
Proof.
  unfold end_tuning. destruct (is_cached s task_id); [| done]. simpl.
  intros Hend. split; [done |]. revert Hend.
  destruct (end_thread task_id (sch_threads s)) as [sch |] eqn:Hsch; simpl; [| done].
  destruct (end_thread task_id (build_threads s)) as [bld |] eqn:Hbld; simpl; [| done].
  destruct (end_thread task_id (evaluate_threads s)) as [evl |] eqn:Hevl; simpl; [| done].
  apply end_thread_spec in Hsch as [-> Hsome], Hbld as [-> _], Hevl as [-> _].
  intros [= <-]. simpl. repeat split; try done.
  unfold flag_at. by rewrite lookup_insert_eq.
Qed.

(** *** The session registry *)

(** A successful [create_session] leaves, besides the new session, a null
    pointer under the next id, and [get_session] hands it out. *)
Lemma create_session_leaves_null_entry tgt dev_id sess_option r id r' :
  sessions r !! (global_count r + 1) = None ->
  create_session tgt dev_id sess_option r = Done (id, r') ->
  id = global_count r /\ get_session (id + 1) r' = Done (None, r').
Proof.
  intros Hfree. unfold create_session, create_or_get_session.
  destruct (new_session tgt dev_id sess_option) as [sess |]; simpl; [| done].
  destruct (global_count r =? INT_MAX); simpl; [done |].
  rewrite lookup_insert_ne, Hfree by lia. simpl.
  destruct (0 <=? global_count r); [| done].
  intros [= <- <-]. split; [done |].
  unfold get_session, create_or_get_session. simpl.
  by rewrite lookup_insert_eq.
Qed.
End DriverFacts.


(** ** The properties at work in the small world *)

Section Runs.
Import Search Driver Sample.

(** C3, as the code has it: with 1000 artifacts waiting for key 0 the build
    worker pushes one more; with 1001 it pops the future, drops the built
    module and counts the node as built, without waiting for the consumer;
    the emergency path and [prepare_for_test] push whatever the length is. *)
Theorem C3_build_worker_exceeds_1000_and_drops :
  after (build_node 0 chain false 0 (session_built 1000) build_walk0)
    (fmap (fun '(s', _) => length (queue_at (built_functions s') 0)))
  = Some (Some 1001%nat)
  /\ after (build_node 0 chain false 0 (session_built 1001) build_walk0)
       (fmap (fun '(s', w') =>
                (length (queue_at (built_functions s') 0),
                 length (queue_at (future_functions s') 0),
                 build_count w',
                 bool_decide (0 ∈ build_delete_set w'))))
     = Some (Some (1001%nat, 0%nat, 1, true))
  /\ length (queue_at (built_functions
                         (emergency_build
                            (set_emergency_build_queue [0] (session_built 1001)))) 0)
     = 1002%nat
  /\ after (prepare_for_test 0 "ref" (session_built 1001))
       (fun s' => length (queue_at (built_functions s') 0))
     = Some 1002%nat.
Proof. repeat split; vm_compute; reflexivity. Qed.

(** C5, as the code has it: [end_tuning] returns with [finish] set, but
    the three workers that [begin_tuning] launched are still in the thread
    tables, running: the test before each [join()] is the one that
    [begin_tuning] uses before it launches.  Where no worker was launched,
    the [join()] is reached and throws. *)
Theorem C5_end_tuning_joins_no_worker :
  after (begin_tuning 0 1 "" 1 (1 # 2) session0)
    (fun s => (sch_threads s !! 0, build_threads s !! 0, evaluate_threads s !! 0))
  = Some (Some (Spawned (RunAutoschedule 0 1 "" 1 (1 # 2))),
          Some (Spawned (RunBuild 0 1)),
          Some (Spawned (RunEvaluate 0 1)))
  /\ after (end_tuning 0 session_tuned)
       (fun s => (flag_at (finish s) 0,
                  sch_threads s !! 0, build_threads s !! 0, evaluate_threads s !! 0))
     = Some (true,
             Some (Spawned (RunAutoschedule 0 1 "" 1 (1 # 2))),
             Some (Spawned (RunBuild 0 1)),
             Some (Spawned (RunEvaluate 0 1)))
  /\ end_tuning 0 session_cached_only
     = Fails (Thrown "std::system_error: join() of a thread that is not joinable").
Proof. repeat split; vm_compute; reflexivity. Qed.

(** C9, as the code has it: the first [create_session] returns id 0 and
    leaves a null pointer under id 1; [get_session 1] then passes the
    [ASSERT] and returns that null pointer instead of failing, although no
    [create_session] has returned 1.  An id beyond that fails as claimed. *)
Theorem C9_get_session_accepts_the_next_id :
  create_session "llvm" 0 options no_sessions = Done (0, registry1)
  /\ sessions registry1 !! 1 = Some None
  /\ get_session 1 registry1 = Done (None, registry1)
  /\ get_session 2 registry1 = Fails (Thrown "Can't find the session").
Proof. repeat split; vm_compute; reflexivity. Qed.



(** C7 fails as stated: a result whose score equals the minimum of a full
    heap is not dropped, it takes the place of the minimum. *)
Lemma C7_equal_score_replaces_minimum :
  ~ (forall ctx',
       add_feedback (result_of "b") 5 full_context = Done ctx' ->
       topk_schedules ctx' = topk_schedules full_context).
Proof.
  intros Hclaim.
  assert (Hrun : add_feedback (result_of "b") 5 full_context
                 = Done (remember "b" [scored "b" 5] full_context))
    by (vm_compute; reflexivity).
  specialize (Hclaim _ Hrun). vm_compute in Hclaim. discriminate Hclaim.
Qed.

(** The amended C7 on [full_context]: the result "b" with the score of the
    minimum is inserted. *)
Lemma C7_full_heap_keeps_result_not_below_minimum_witness :
  (0 < 5)%Q
  /\ topk_schedules full_context = [scored "a" 5]
  /\ topk full_context <= Z.of_nat (length [scored "a" 5])
  /\ heap_ordered (topk_schedules full_context)
  /\ (5 <= 5)%Q
  /\ add_feedback (result_of "b") 5 full_context
     = Done (remember "b" (heap_push (scored "b" 5) []) full_context).
Proof.
  assert (H1 : (0 < 5)%Q) by reflexivity.
  assert (H2 : topk_schedules full_context = [scored "a" 5]) by reflexivity.
  assert (H3 : topk full_context <= Z.of_nat (length [scored "a" 5])) by (simpl; lia).
  assert (H4 : heap_ordered (topk_schedules full_context))
    by (repeat constructor).
  assert (H5 : (5 <= 5)%Q) by apply Qle_refl.
  exact (conj H1 (conj H2 (conj H3 (conj H4 (conj H5
           (proj1 (proj2 (proj2
              (C7_full_heap_keeps_result_not_below_minimum
                 (result_of "b") 5 full_context (scored "a" 5) [] H1 H2 H3 H4)) H5))))))).
Defined.



(** C10 on a key that has a context: the context is the same afterwards. *)
Lemma C10_schedule_with_entity_keeps_search_state_witness :
  registry_interpret = Some (fun sch (_ : unit) (_ _ : string) e => sch ++ [e])
  /\ exists s',
       schedule_with_entity 0 "conv" "llvm" "b" scheduler_full
       = Done ({| schedule := ["b"]; tensors := tt; schedule_entities := "b" |}, s')
       /\ contexts s' !! 0 = Some full_context.
Proof.
  assert (H1 : registry_interpret
               = Some (fun sch (_ : unit) (_ _ : string) e => sch ++ [e]))
    by reflexivity.
  split; [exact H1 |].
  destruct (@C10_schedule_with_entity_keeps_search_state world
              0 "conv" "llvm" "b" scheduler_full _ H1)
    as (s' & Hrun & _ & _ & Hsame).
  exists s'. split; [exact Hrun |].
  change (contexts scheduler_full !! 0) with (Some full_context) in Hsame.
  exact (proj2 Hsame).
Defined.

(** C4 fails as stated, on each of the two paths.  In one evaluate pass
    over two subgraphs with the same tag, the record of key 1 goes from
    10 GFLOPS to the 5 GFLOPS of the record copied from key 0.  And where
    a reference was loaded for a key that holds a record of 5 GFLOPS, the
    measurement of a faster artifact pops that record and leaves the
    reference record, of -999 GFLOPS, at the front. *)
Lemma C4_alias_and_measurement_lower_best_gflops :
  ~ (forall s1 w1 s2 w2,
       evaluate_helper chain false 0 session_alias evaluate_walk0 = Done (s1, w1) ->
       evaluate_helper chain false 1 s1 w1 = Done (s2, w2) ->
       forall old new,
         head (queue_at (best_functions session_alias) 1) = Some old ->
         head (queue_at (best_functions s2) 1) = Some new ->
         (best_gflops old <= best_gflops new)%Q)
  /\ ~ (forall s1 s2 w2 succ taken,
          prepare_for_test 0 "ref" session_resumed = Done s1 ->
          try_new_function 0 "conv" s1 evaluate_walk0 = Done (s2, w2, succ, taken) ->
          forall old new,
            head (queue_at (best_functions s1) 0) = Some old ->
            head (queue_at (best_functions s2) 0) = Some new ->
            (best_gflops old <= best_gflops new)%Q).
Proof.
  split.
  - intros Hclaim.
    assert (Hrun0 : evaluate_helper chain false 0 session_alias evaluate_walk0
                    = Done (evaluated0.1, evaluated0.2)) by (vm_compute; reflexivity).
    assert (Hrun1 : evaluate_helper chain false 1 evaluated0.1 evaluated0.2
                    = Done (evaluated1.1, evaluated1.2)) by (vm_compute; reflexivity).
    specialize (Hclaim _ _ _ _ Hrun0 Hrun1 (record "b" 1 10) (record "a" 2 5)).
    assert (Hle : (10 <= 5)%Q).
    { apply Hclaim; vm_compute; reflexivity. }
    apply Hle. reflexivity.
  - intros Hclaim.
    assert (Hrun0 : prepare_for_test 0 "ref" session_resumed = Done reloaded)
      by (vm_compute; reflexivity).
    assert (Hrun1 : try_new_function 0 "conv" reloaded evaluate_walk0
                    = Done (remeasured.1.1.1, remeasured.1.1.2,
                            remeasured.1.2, remeasured.2))
      by (vm_compute; reflexivity).
    specialize (Hclaim _ _ _ _ _ Hrun0 Hrun1 (record "a" 2 5)
                  {| best_schedule := result_of "b"; best_module := 1;
                     best_func := (1, 0); best_gflops := -999; best_elapsed := -999 |}).
    assert (Hle : (5 <= -999)%Q).
    { apply Hclaim; vm_compute; reflexivity. }
    apply Hle. reflexivity.
Qed.

(** The amended C4 on key 1 of [session_best]: the measurement of its
    artifact, and the copy from key 0. *)
Lemma C4_best_grows_on_measurement_and_is_overwritten_by_alias_witness :
  queue_at (best_functions session_best) 1 = [record "b" 1 10]
  /\ try_new_function 1 "conv" session_best evaluate_walk1
     = Done (measured.1.1.1, measured.1.1.2, measured.1.2, measured.2)
  /\ evaluate_cache evaluate_walk1 !! tag "conv" = Some 0
  /\ queue_at (best_functions session_best) 0 = [record "a" 2 5]
  /\ (exists new,
        queue_at (best_functions measured.1.1.1) 1 = [new]
        /\ (new = record "b" 1 10 \/ (best_gflops (record "b" 1 10) < best_gflops new)%Q)
        /\ (best_gflops (record "b" 1 10) <= best_gflops new)%Q)
  /\ (exists s2,
        try_repeated_function 1 "conv" session_best evaluate_walk1 = (s2, true)
        /\ queue_at (best_functions s2) 1
           = tail (queue_at (best_functions session_best) 1) ++ [record "a" 2 5]).
Proof.
  assert (H1 : queue_at (best_functions session_best) 1 = [record "b" 1 10])
    by (vm_compute; reflexivity).
  assert (H2 : try_new_function 1 "conv" session_best evaluate_walk1
               = Done (measured.1.1.1, measured.1.1.2, measured.1.2, measured.2))
    by (vm_compute; reflexivity).
  assert (H3 : evaluate_cache evaluate_walk1 !! tag "conv" = Some 0)
    by (vm_compute; reflexivity).
  assert (H4 : queue_at (best_functions session_best) 0 = [record "a" 2 5])
    by (vm_compute; reflexivity).
  pose proof (@C4_best_grows_on_measurement_and_is_overwritten_by_alias world
                1 "conv" session_best evaluate_walk1) as [Hm Ha].
  exact (conj H1 (conj H2 (conj H3 (conj H4
           (conj (proj2 (Hm _ _ _ _ H2) _ H1) (Ha 0 (record "a" 2 5) [] H3 H4)))))).
Defined.
End Runs.

(** * Further properties of the code *)

(** ** The worker pool as a queue *)

Section PoolOrder.
Context {Task : Type}.
Import PoolUse.


(** X2: once [stop] is set both entry points throw and enqueue nothing.
    A worker starts one task at most: whatever the deque holds behind its
    front, whether or not [stop] is set and however often the worker's
    loop may run, the worker starts the front task and the process is
    ended by [std::terminate] in the callable of that task.  On an empty
    deque the worker returns when [stop] is set and stays blocked
    otherwise. *)
Theorem X2_stopped_pool_refuses_pushes_and_worker_starts_one_task
    (t : Task) (pending : list Task) (b : bool) (fuel : nat) :
  Pool.push_front t {| Pool.tasks := pending; Pool.stop := true |}
  = Fails (Thrown "push_front on stopped ThreadPool")
  /\ Pool.push_back t {| Pool.tasks := pending; Pool.stop := true |}
     = Fails (Thrown "push_back on stopped ThreadPool")
  /\ Pool.worker (S fuel) {| Pool.tasks := t :: pending; Pool.stop := b |}
     = ([t], {| Pool.tasks := pending; Pool.stop := b |}, Fails Aborted)
  /\ Pool.worker (S fuel) {| Pool.tasks := []; Pool.stop := true |}
     = ([], {| Pool.tasks := [] : list Task; Pool.stop := true |}, Done tt)
  /\ Pool.worker (S fuel) {| Pool.tasks := []; Pool.stop := false |}
     = ([], {| Pool.tasks := [] : list Task; Pool.stop := false |}, Fails Spins).
Proof. split_and!; reflexivity. Qed.
End PoolOrder.

(** ** The search state *)

Section SearchInvariants.
Context `{Collaborators}.
Import Search SearchUse.

Lemma remember_fields e h self :
  topk (remember e h self) = topk self
  /\ new_trial (remember e h self) = new_trial self
  /\ policy (remember e h self) = policy self
  /\ ctx_subgraph (remember e h self) = ctx_subgraph self
  /\ target (remember e h self) = target self.
Proof. unfold remember. by case_decide. Qed.

Lemma heap_push_Forall (P : EvaluatedScheduleResult -> Prop) e h :
  P e -> Forall P h -> Forall P (heap_push e h).
Proof.
  intros He Hh. apply Forall_forall. intros x [-> | Hx]%heap_push_elem_of; [done |].
  rewrite Forall_forall in Hh. by apply Hh.
Qed.

(** [add_feedback] keeps the top-K well formed: at most [topk] entries,
    all with a positive score, in ascending order of delivery. *)
Lemma add_feedback_topk_wf
    (sr : ScheduleResult) (ev : Q) (self self' : AutoScheduleContext) :
  topk_wf self ->
  add_feedback sr ev self = Done self' ->
  topk_wf self' /\ topk self' = topk self.
Proof.
  intros (Hlen & Hpos & Hord).
  assert (Hkeep : forall h,
    Z.of_nat (length h) <= topk self ->
    Forall (fun e => (0 < evaluation e)%Q) h -> heap_ordered h ->
    topk_wf (remember (schedule_entities sr) h self)
    /\ topk (remember (schedule_entities sr) h self) = topk self).
  { intros h Hh1 Hh2 Hh3.
    destruct (remember_fields (schedule_entities sr) h self) as (Htk & _).
    split; [| done]. unfold topk_wf. by rewrite remember_topk, Htk. }
  unfold add_feedback.
  destruct (Qltb 0 ev) eqn:Hev.
  - apply Qltb_lt in Hev.
    destruct (Z.of_nat (length (topk_schedules self)) <? topk self) eqn:Hroom.
    + apply Z.ltb_lt in Hroom. intros [= <-]. apply Hkeep.
      * rewrite heap_push_length. lia.
      * by apply heap_push_Forall.
      * by apply heap_push_ordered.
    + destruct (topk_schedules self) as [| top rest] eqn:Hheap; [done |].
      destruct (evaluated_lt _ top).
      * intros [= <-]. split; [| done]. unfold topk_wf. by rewrite Hheap.
      * intros [= <-].
        apply Forall_cons in Hpos as [_ Hpos].
        apply heap_ordered_top in Hord as [_ Hord].
        apply Hkeep.
        -- rewrite heap_push_length. simpl in Hlen. lia.
        -- by apply heap_push_Forall.
        -- by apply heap_push_ordered.
  - intros [= <-]. by apply Hkeep.
Qed.

(** X3: the two-generation memory.  Whenever [add_feedback] returns, the
    active set has at most 500 entities if it had before.  Unless the
    result was dropped for its score, its entity is then in one of the two
    sets; and when the active set would reach 501 entities it becomes the
    stable set, the former stable set is forgotten and the active set
    starts empty. *)
Theorem X3_add_feedback_rotates_seen_sets
    (sr : ScheduleResult) (ev : Q) (self self' : AutoScheduleContext) :
  (size (knowing_schedules self) <= 500)%nat ->
  add_feedback sr ev self = Done self' ->
  (size (knowing_schedules self') <= 500)%nat
  /\ (self' = self
      \/ (knowing_schedules self' = {[ schedule_entities sr ]} ∪ knowing_schedules self
          /\ known_schedules self' = known_schedules self)
      \/ (knowing_schedules self' = ∅
          /\ known_schedules self' = {[ schedule_entities sr ]} ∪ knowing_schedules self
          /\ size (known_schedules self') = 501%nat)).
Proof.
  intros Hsize Hfb.
  assert (Hrem : forall h,
    (size (knowing_schedules (remember (schedule_entities sr) h self)) <= 500)%nat
    /\ ((knowing_schedules (remember (schedule_entities sr) h self)
         = {[ schedule_entities sr ]} ∪ knowing_schedules self
         /\ known_schedules (remember (schedule_entities sr) h self)
            = known_schedules self)
        \/ (knowing_schedules (remember (schedule_entities sr) h self) = ∅
            /\ known_schedules (remember (schedule_entities sr) h self)
               = {[ schedule_entities sr ]} ∪ knowing_schedules self
            /\ size (known_schedules (remember (schedule_entities sr) h self))
               = 501%nat))).
  { intros h. unfold remember.
    case_decide as Hbig; cbn [knowing_schedules known_schedules with_memory].
    - split; [rewrite size_empty; lia |]. right. repeat split; try done.
      pose proof (size_union_alt {[ schedule_entities sr ]} (knowing_schedules self))
        as Hu.
      rewrite size_singleton in Hu.
      assert (size (knowing_schedules self ∖ {[ schedule_entities sr ]})
              <= size (knowing_schedules self))%nat
        by (by apply subseteq_size, subseteq_difference_l).
      lia.
    - split; [lia |]. by left. }
  unfold add_feedback in Hfb.
  destruct (Qltb 0 ev).
  - destruct (Z.of_nat (length (topk_schedules self)) <? topk self).
    + injection Hfb as <-. destruct (Hrem (heap_push
        {| schedule_result := sr; evaluation := ev |} (topk_schedules self)))
        as [? ?]. tauto.
    + destruct (topk_schedules self) as [| top rest]; [done |].
      destruct (evaluated_lt _ top); injection Hfb as <-; [by split; [| left] |].
      destruct (Hrem (heap_push {| schedule_result := sr; evaluation := ev |} rest))
        as [? ?]. tauto.
  - injection Hfb as <-. destruct (Hrem (topk_schedules self)) as [? ?]. tauto.
Qed.

(** X4: a result with a score that is not positive never reaches the
    top-K: the heap is left as it was and the entity is recorded as seen. *)
Theorem X4_non_positive_score_is_only_remembered
    (sr : ScheduleResult) (ev : Q) (self : AutoScheduleContext) :
  (ev <= 0)%Q ->
  exists self',
    add_feedback sr ev self = Done self'
    /\ topk_schedules self' = topk_schedules self
    /\ counts self' = counts self
    /\ schedule_entities sr ∈ knowing_schedules self' ∪ known_schedules self'.
Proof.
  intros Hev. apply Qltb_ge in Hev. unfold add_feedback. rewrite Hev.
  eexists. split; [done |]. rewrite remember_topk, remember_counts.
  split; [done |]. split; [done |].
  unfold remember. case_decide; simpl; set_solver.
Qed.
End SearchInvariants.

(** ** The search step, continued *)

Section SearchStep.
Context `{Collaborators}.
Import Search SearchUse.

Lemma propose_length ctx reverse_sort p must_new rng :
  (length (propose ctx reverse_sort p must_new rng).1 <= 2)%nat.
Proof.
  destruct (propose_relaxed ctx reverse_sort p rng) as (e & n & He).
  destruct must_new; [| rewrite He; simpl; lia].
  rewrite (propose_filter _ _ _ _ _ _ He). simpl.
  repeat case_decide; simpl; lia.
Qed.

Lemma one_pass_length_le trials ctx reverse_sort p must_new acc rng :
  (length (one_pass trials ctx reverse_sort p must_new acc rng).1
   <= length acc + 2 * trials)%nat.
Proof.
  revert acc rng. induction trials as [| n IH]; intros acc rng; simpl; [lia |].
  pose proof (propose_length ctx reverse_sort p must_new rng) as Hp.
  destruct (propose ctx reverse_sort p must_new rng) as [accepted rng1].
  etrans; [apply IH |]. rewrite length_app. simpl in Hp. lia.
Qed.

Lemma one_pass_fresh_length trials ctx reverse_sort p acc rng :
  known_schedules ctx = ∅ -> knowing_schedules ctx = ∅ ->
  length (one_pass trials ctx reverse_sort p true acc rng).1
  = (length acc + 2 * trials)%nat.
Proof.
  intros Hknown Hknowing.
  revert acc rng. induction trials as [| n IH]; intros acc rng; simpl; [lia |].
  destruct (propose_relaxed ctx reverse_sort p rng) as (e & m & He).
  rewrite (propose_filter _ _ _ _ _ _ He), Hknown, Hknowing.
  rewrite !decide_False by set_solver. rewrite IH, length_app. simpl. lia.
Qed.

Lemma prepare_candidates_length fuel ctx reverse_sort p must_new acc rng cands rng' :
  (length acc <= 2 * Z.to_nat (new_trial ctx))%nat ->
  prepare_candidates fuel ctx reverse_sort p must_new acc rng = Done (cands, rng') ->
  (1 <= length cands <= 2 * Z.to_nat (new_trial ctx))%nat.
Proof.
  revert must_new acc rng.
  induction fuel as [| fuel IH]; intros must_new acc rng Hacc; simpl.
  - destruct acc; [done |]. intros [= <- _]. simpl in *. lia.
  - destruct acc as [| e acc]; [| intros [= <- _]; simpl in *; lia].
    pose proof (one_pass_length_le (Z.to_nat (new_trial ctx)) ctx reverse_sort p
                  must_new [] rng) as Hlen.
    destruct (one_pass _ ctx reverse_sort p must_new [] rng) as [c1 r1].
    apply IH. simpl in Hlen. lia.
Qed.

Lemma select_candidates_context fuel ctx rng ctx' cands rng' :
  select_candidates fuel ctx rng = Done (ctx', cands, rng') ->
  ctx' = with_memory [] (known_schedules ctx) (knowing_schedules ctx) ctx
  /\ prepare_candidates fuel ctx' (topk_schedules ctx)
       (possibilities (topk ctx) (topk_schedules ctx)) true [] rng
     = Done (cands, rng').
Proof.
  unfold select_candidates. rewrite snapshot_topk_spec. simpl.
  destruct (prepare_candidates _ _ _ _ _ _ _) as [[c r] |] eqn:Hprep; simpl; [| done].
  intros [= <- <- <-]. split; [done |]. exact Hprep.
Qed.

(** X5: the batch of one search step has at least one and at most
    [2 * new_trial] candidates; for a key whose seen sets are both empty it
    has exactly [2 * new_trial], every proposal being appended twice. *)
Theorem X5_batch_holds_up_to_twice_new_trial
    (fuel : nat) (ctx ctx' : AutoScheduleContext) (rng rng' : nat) (cands : list Entity) :
  select_candidates fuel ctx rng = Done (ctx', cands, rng') ->
  (1 <= length cands <= 2 * Z.to_nat (new_trial ctx))%nat
  /\ (known_schedules ctx = ∅ -> knowing_schedules ctx = ∅ ->
      length cands = (2 * Z.to_nat (new_trial ctx))%nat).
Proof.
  intros Hsel. apply select_candidates_context in Hsel as [-> Hprep].
  split.
  - apply prepare_candidates_length in Hprep; [done | simpl; lia].
  - intros Hknown Hknowing.
    destruct fuel as [| fuel]; [done |]. cbn [prepare_candidates] in Hprep.
    pose proof (one_pass_fresh_length (Z.to_nat (new_trial ctx))
                  (with_memory [] (known_schedules ctx) (knowing_schedules ctx) ctx)
                  (topk_schedules ctx)
                  (possibilities (topk ctx) (topk_schedules ctx)) [] rng Hknown Hknowing)
      as Hlen.
    change (new_trial (with_memory [] (known_schedules ctx) (knowing_schedules ctx) ctx))
      with (new_trial ctx) in Hprep.
    destruct (one_pass _ _ _ _ true [] rng) as [c1 r1]. simpl in Hlen.
    destruct c1 as [| e c1].
    + assert (new_trial ctx <= 0) as Hzero by (simpl in Hlen; lia).
      rewrite prepare_candidates_spins in Hprep by done. done.
    + destruct fuel; simpl in Hprep; injection Hprep as <- _; exact Hlen.
Qed.

(** X6: with [new_trial <= 0] no pass proposes anything and the [while]
    loop of the search step cannot exit: whatever bound the model is given,
    it is used up. *)
Theorem X6_search_step_spins_without_trials
    (fuel : nat) (subgraph : TIRGraph) (ctx : AutoScheduleContext) (rng : nat) :
  new_trial ctx <= 0 ->
  select_candidates fuel ctx rng = Fails OutOfFuel
  /\ auto_schedule fuel subgraph ctx rng = Fails OutOfFuel.
Proof.
  intros Htrial.
  assert (Hsel : select_candidates fuel ctx rng = Fails OutOfFuel).
  { unfold select_candidates. rewrite snapshot_topk_spec. simpl.
    by rewrite prepare_candidates_spins. }
  split; [done |]. unfold auto_schedule, empty_schedule. by rewrite Hsel.
Qed.
End SearchStep.

Section SearchResult.
Context `{Collaborators}.
Import Search SearchUse.

Lemma interpret_all_length subgraph ts tgt cands schedules :
  interpret_all subgraph ts tgt cands = Done schedules ->
  length schedules = length cands.
Proof.
  revert schedules. induction cands as [| c rest IH]; intros schedules; simpl.
  - by intros [= <-].
  - destruct (interpret _ _ _ _ c) as [tmp_sch |]; simpl; [| done].
    destruct (interpret_all _ _ _ rest) as [more |]; simpl; [| done].
    intros [= <-]. simpl. by rewrite (IH more).
Qed.

Lemma best_among_start judges : best_among judges 0 (-1)%Q (-1).
Proof. left. repeat split. intros i v Hi. lia. Qed.

Lemma best_among_ge_start judges n best_value best_ind :
  best_among judges n best_value best_ind -> (-1 <= best_value)%Q.
Proof.
  intros [(_ & -> & _) | (_ & _ & Hlt & _)]; [apply Qle_refl | by apply Qlt_le_weak].
Qed.

Lemma best_among_step judges i v best_value best_ind :
  judges !! i = Some v ->
  best_among judges i best_value best_ind ->
  if Qltb best_value v
  then best_among judges (S i) v (Z.of_nat i)
  else best_among judges (S i) best_value best_ind.
Proof.
  intros Hv Hbest.
  assert (Hall : forall j w, (j < i)%nat -> judges !! j = Some w -> (w <= best_value)%Q).
  { destruct Hbest as [(_ & -> & Hle) | (_ & _ & _ & Hle & _)]; done. }
  destruct (Qltb best_value v) eqn:Hcmp.
  - apply Qltb_lt in Hcmp. right. rewrite Nat2Z.id.
    split; [lia |]. split; [done |].
    split; [eapply Qle_lt_trans; [by eapply best_among_ge_start | done] |].
    split.
    + intros j w Hj Hw. destruct (decide (j = i)) as [-> | Hne].
      * rewrite Hv in Hw. injection Hw as <-. apply Qle_refl.
      * apply Qlt_le_weak. eapply Qle_lt_trans; [| exact Hcmp].
        apply (Hall j); [lia | done].
    + intros j w Hj Hw. eapply Qle_lt_trans; [| exact Hcmp]. by apply (Hall j).
  - apply Qltb_ge in Hcmp.
    assert (Hnew : forall j w, (j < S i)%nat -> judges !! j = Some w ->
                               (w <= best_value)%Q).
    { intros j w Hj Hw. destruct (decide (j = i)) as [-> | Hne].
      - rewrite Hv in Hw. by injection Hw as <-.
      - apply (Hall j); [lia | done]. }
    destruct Hbest as [(-> & -> & _) | (Hrange & Hat & Hlt & _ & Hfirst)].
    + left. by repeat split.
    + right. repeat split; try done; lia.
Qed.

Lemma feedback_loop_best todo i ts judges ctx best_value best_ind ctx' v' i' :
  feedback_loop todo i ts judges ctx best_value best_ind = Done (ctx', v', i') ->
  best_among judges i best_value best_ind ->
  best_among judges (i + length todo) v' i'.
Proof.
  revert i ctx best_value best_ind.
  induction todo as [| [tmp_sch cand] rest IH]; intros i ctx best_value best_ind; simpl.
  - intros [= _ <- <-]. by rewrite Nat.add_0_r.
  - destruct (judges !! i) as [v |] eqn:Hv; [| done].
    intros Hloop Hbest. pose proof (best_among_step _ _ _ _ _ Hv Hbest) as Hstep.
    replace (i + S (length rest))%nat with (S i + length rest)%nat by lia.
    destruct (if decide (policy ctx = "profile") then _ else _) as [ctx1 |];
      simpl in Hloop; [| done].
    destruct (Qltb best_value v); eapply IH; eauto.
Qed.

Lemma feedback_loop_other_policy todo i ts judges ctx best_value best_ind ctx' v' i' :
  policy ctx <> "profile" ->
  feedback_loop todo i ts judges ctx best_value best_ind = Done (ctx', v', i') ->
  ctx' = ctx.
Proof.
  intros Hpol. revert i best_value best_ind.
  induction todo as [| [tmp_sch cand] rest IH]; intros i best_value best_ind; simpl.
  - by intros [= <- _ _].
  - destruct (judges !! i) as [v |]; [| done].
    rewrite decide_False by done. simpl.
    destruct (Qltb best_value v); apply IH.
Qed.

(** The stages of a search step that returned. *)
Lemma auto_schedule_stages fuel subgraph ctx rng results ctx' rng' :
  auto_schedule fuel subgraph ctx rng = Done (results, ctx', rng') ->
  exists ctx1 cands rng1 schedules judges ctx2 best_value best_ind result_entity sch',
    select_candidates fuel ctx rng = Done (ctx1, cands, rng1)
    /\ interpret_all subgraph (graph_tensors subgraph) (target ctx1) cands = Done schedules
    /\ judge_schedule schedules (graph_tensors subgraph) (target ctx1) 1%Q (policy ctx1) rng1
       = Done (judges, rng')
    /\ feedback_loop (zip schedules cands) 0 (graph_tensors subgraph) judges ctx1
         (-1)%Q (-1) = Done (ctx2, best_value, best_ind)
    /\ 0 <= best_ind
    /\ cands !! Z.to_nat best_ind = Some result_entity
    /\ interpret (create_schedule subgraph) (graph_tensors subgraph) subgraph
         (target ctx2) result_entity = Done sch'
    /\ results = {| schedule := sch'; tensors := graph_tensors subgraph;
                    schedule_entities := result_entity |}
    /\ ctx' = with_counts (counts ctx2 + 1) ctx2.
Proof.
  unfold auto_schedule, empty_schedule.
  destruct (select_candidates fuel ctx rng) as [[[ctx1 cands] rng1] |] eqn:Hsel;
    simpl; [| done].
  destruct (interpret_all _ _ _ cands) as [schedules |] eqn:Hint; simpl; [| done].
  destruct (judge_schedule _ _ _ _ _ _) as [[judges rng2] |] eqn:Hjudge;
    simpl; [| done].
  destruct (feedback_loop _ _ _ _ _ _ _) as [[[ctx2 best_value] best_ind] |] eqn:Hloop;
    simpl; [| done].
  destruct (best_ind <? 0) eqn:Hneg; [done |]. apply Z.ltb_ge in Hneg.
  destruct (cands !! Z.to_nat best_ind) as [result_entity |] eqn:Hcand; [| done].
  destruct (interpret _ _ _ _ result_entity) as [sch' |] eqn:Hfinal; simpl; [| done].
  destruct (counts ctx2 =? INT_MAX); [done |].
  intros [= <- <- <-].
  exists ctx1, cands, rng1, schedules, judges, ctx2, best_value, best_ind,
    result_entity, sch'.
  by repeat split.
Qed.

(** X7: a search step that returns hands back the first candidate of its
    batch whose judged value is the largest, and that value is above -1. *)
Theorem X7_search_step_returns_first_best_candidate
    (fuel : nat) (subgraph : TIRGraph) (ctx ctx' : AutoScheduleContext)
    (rng rng' : nat) (results : ScheduleResult) :
  auto_schedule fuel subgraph ctx rng = Done (results, ctx', rng') ->
  exists ctx1 cands rng1 schedules judges (i : nat) (v : Q),
    select_candidates fuel ctx rng = Done (ctx1, cands, rng1)
    /\ interpret_all subgraph (graph_tensors subgraph) (target ctx1) cands = Done schedules
    /\ judge_schedule schedules (graph_tensors subgraph) (target ctx1) 1%Q (policy ctx1) rng1
       = Done (judges, rng')
    /\ cands !! i = Some (schedule_entities results)
    /\ judges !! i = Some v
    /\ (-1 < v)%Q
    /\ (forall j w, (j < length cands)%nat -> judges !! j = Some w -> (w <= v)%Q)
    /\ (forall j w, (j < i)%nat -> judges !! j = Some w -> (w < v)%Q).
Proof.
  intros Hstep.
  destruct (auto_schedule_stages _ _ _ _ _ _ _ Hstep)
    as (ctx1 & cands & rng1 & schedules & judges & ctx2 & best_value & best_ind
        & result_entity & sch' & Hsel & Hint & Hjudge & Hloop & Hpos & Hcand & _ & -> & _).
  apply feedback_loop_best in Hloop; [| apply best_among_start].
  rewrite length_zip, (interpret_all_length _ _ _ _ _ Hint), Nat.min_id in Hloop.
  simpl in Hloop.
  destruct Hloop as [(-> & _) | (_ & Hat & Hlt & Hmax & Hfirst)]; [lia |].
  exists ctx1, cands, rng1, schedules, judges, (Z.to_nat best_ind), best_value.
  by repeat split.
Qed.

(** X8: under a policy other than "profile" the step gives no feedback to
    its own context: when it returns, the top-K is empty, the seen sets are
    what they were, and [counts] is one more. *)
Theorem X8_search_step_without_profile_empties_top_k
    (fuel : nat) (subgraph : TIRGraph) (ctx ctx' : AutoScheduleContext)
    (rng rng' : nat) (results : ScheduleResult) :
  policy ctx <> "profile" ->
  auto_schedule fuel subgraph ctx rng = Done (results, ctx', rng') ->
  ctx' = with_counts (counts ctx + 1)
           (with_memory [] (known_schedules ctx) (knowing_schedules ctx) ctx).
Proof.
  intros Hpol Hstep.
  destruct (auto_schedule_stages _ _ _ _ _ _ _ Hstep)
    as (ctx1 & cands & rng1 & schedules & judges & ctx2 & best_value & best_ind
        & result_entity & sch' & Hsel & _ & _ & Hloop & _ & _ & _ & _ & ->).
  apply select_candidates_context in Hsel as [-> _].
  apply feedback_loop_other_policy in Hloop; [| done]. by subst ctx2.
Qed.
End SearchResult.

(** ** The scheduler object *)

Section SchedulerFacts.
Context `{Collaborators}.
Import Search SearchUse.

Lemma feedback_loop_topk_wf todo i ts judges ctx best_value best_ind ctx' v' i' :
  topk_wf ctx ->
  feedback_loop todo i ts judges ctx best_value best_ind = Done (ctx', v', i') ->
  topk_wf ctx' /\ topk ctx' = topk ctx.
Proof.
  revert i ctx best_value best_ind.
  induction todo as [| [tmp_sch cand] rest IH]; intros i ctx best_value best_ind Hwf; simpl.
  - by intros [= <- _ _].
  - destruct (judges !! i) as [v |]; [| done].
    destruct (decide (policy ctx = "profile")); simpl.
    + destruct (add_feedback _ v ctx) as [ctx1 |] eqn:Hfb; simpl; [| done].
      apply add_feedback_topk_wf in Hfb as [Hwf1 <-]; [| done].
      destruct (Qltb best_value v); by apply IH.
    + destruct (Qltb best_value v); by apply IH.
Qed.

Lemma auto_schedule_topk_wf fuel subgraph ctx rng results ctx' rng' :
  topk_wf ctx ->
  auto_schedule fuel subgraph ctx rng = Done (results, ctx', rng') ->
  topk_wf ctx' /\ topk ctx' = topk ctx.
Proof.
  intros (Hlen & _ & _) Hstep.
  destruct (auto_schedule_stages _ _ _ _ _ _ _ Hstep)
    as (ctx1 & cands & rng1 & schedules & judges & ctx2 & best_value & best_ind
        & result_entity & sch' & Hsel & _ & _ & Hloop & _ & _ & _ & _ & ->).
  apply select_candidates_context in Hsel as [-> _].
  apply feedback_loop_topk_wf in Hloop as [Hwf Htk]; [done |].
  unfold topk_wf. simpl. split; [lia |]. split; [done | constructor].
Qed.

Lemma ensure_context_wf key subgraph tgt s :
  scheduler_wf s -> scheduler_wf (ensure_context key subgraph tgt s).
Proof.
  intros [Hk Hctx]. unfold ensure_context.
  destruct (contexts s !! key) eqn:Hkey; [done |].
  split; [done |]. simpl. intros k c.
  destruct (decide (key = k)) as [<- | Hne].
  - rewrite lookup_insert_eq. intros [= <-]. split; [| done].
    unfold topk_wf. simpl. split; [lia |]. split; constructor.
  - rewrite lookup_insert_ne by done. apply Hctx.
Qed.

Lemma insert_context_wf key c s :
  scheduler_wf s -> topk_wf c -> topk c = as_topk s ->
  scheduler_wf (with_contexts (<[key := c]> (contexts s)) s).
Proof.
  intros [Hk Hctx] Hwf Hcap. split; [done |]. simpl. intros k c'.
  destruct (decide (key = k)) as [<- | Hne].
  - rewrite lookup_insert_eq. by intros [= <-].
  - rewrite lookup_insert_ne by done. apply Hctx.
Qed.

Lemma serve_wf r s s' :
  scheduler_wf s -> serve r s = Done s' ->
  scheduler_wf s' /\ as_topk s' = as_topk s.
Proof.
  intros Hwf. destruct r as [fuel key g tgt rng | key g tgt e | key g sr ev | key g tgt pr];
    simpl.
  - unfold schedule_func.
    pose proof (ensure_context_wf key g tgt s Hwf) as Hwf1.
    assert (Hcap : as_topk (ensure_context key g tgt s) = as_topk s).
    { unfold ensure_context. by destruct (contexts s !! key). }
    destruct (contexts (ensure_context key g tgt s) !! key) as [c |] eqn:Hc; [| done].
    destruct (auto_schedule fuel g c rng) as [[[results c'] rng'] |] eqn:Hstep;
      simpl; [| done].
    intros [= <-]. split; [| done].
    destruct (proj2 Hwf1 _ _ Hc) as [Hwfc Hcapc].
    apply auto_schedule_topk_wf in Hstep as [Hwfc' Hcapc']; [| done].
    apply insert_context_wf; [done | done | congruence].
  - unfold schedule_with_entity, empty_schedule.
    destruct (interpret _ _ _ _ e) as [sch' |]; simpl; [| done].
    intros [= <-]. split; [by apply ensure_context_wf |].
    unfold ensure_context. by destruct (contexts s !! key).
  - unfold feedback_for. destruct (contexts s !! key) as [c |] eqn:Hc; [| done].
    destruct (add_feedback sr ev c) as [c' |] eqn:Hfb; simpl; [| done].
    intros [= <-]. split; [| done].
    destruct (proj2 Hwf _ _ Hc) as [Hwfc Hcapc].
    apply add_feedback_topk_wf in Hfb as [Hwfc' Hcapc']; [| done].
    apply insert_context_wf; [done | done | congruence].
  - unfold schedule_for.
    destruct (pr =? 0); [| destruct (pr =? 1); [| done]].
    + destruct (Pool.push_back _ _) as [tp |]; simpl; [| done]. by intros [= <-].
    + destruct (Pool.push_front _ _) as [tp |]; simpl; [| done]. by intros [= <-].
Qed.

(** X9: top-K is bounded in every reachable state.  Starting from a
    scheduler that has no context yet, after any sequence of search jobs,
    [schedule_with_entity], [feedback_for] and [schedule_for] calls that
    return, the top-K of every key holds at most [autoschedule_topk]
    entries, all of them with a positive score. *)
Theorem X9_top_k_stays_bounded_in_every_reachable_state
    (rs : list request) (s0 s : AutoScheduler) (k : Z) (c : AutoScheduleContext) :
  contexts s0 = ∅ ->
  0 <= as_topk s0 ->
  serve_all rs s0 = Done s ->
  contexts s !! k = Some c ->
  Z.of_nat (length (topk_schedules c)) <= as_topk s0
  /\ Forall (fun e => (0 < evaluation e)%Q) (topk_schedules c)
  /\ heap_ordered (topk_schedules c).
Proof.
  intros Hempty Hcap Hrun Hc.
  assert (Hwf0 : scheduler_wf s0).
  { split; [done |]. intros k' c'. by rewrite Hempty, lookup_empty. }
  assert (Hgen : forall rs s1 s2,
    scheduler_wf s1 -> serve_all rs s1 = Done s2 ->
    scheduler_wf s2 /\ as_topk s2 = as_topk s1).
  { clear. induction rs as [| r rs IH]; intros s1 s2 Hwf; simpl.
    - by intros [= <-].
    - destruct (serve r s1) as [s1' |] eqn:Hserve; simpl; [| done].
      apply serve_wf in Hserve as [Hwf' Hcap']; [| done].
      intros Hrest. apply IH in Hrest as [? ?]; [| done]. split; [done | congruence]. }
  destruct (Hgen rs s0 s Hwf0 Hrun) as [[_ Hwf] Hsame].
  destruct (Hwf k c Hc) as [(Hlen & Hpos & Hord) Htk]. repeat split; [lia | done | done].
Qed.

(** X10: a search job that returns has created the context of its key if
    there was none and has advanced [counts] of that key by one (from 0 for
    a new key); the contexts of the other keys, the pool and the
    configuration are what they were. *)
Theorem X10_search_job_touches_its_key_only
    (fuel : nat) (key : Z) (subgraph : TIRGraph) (tgt : Target)
    (s s' : AutoScheduler) (rng rng' : nat) (results : ScheduleResult) :
  schedule_func fuel key subgraph tgt s rng = Done (results, s', rng') ->
  (exists c',
     contexts s' !! key = Some c'
     /\ counts c' = match contexts s !! key with
                    | Some c => counts c + 1
                    | None => 1
                    end)
  /\ (forall k, k <> key -> contexts s' !! k = contexts s !! k)
  /\ thread_pool s' = thread_pool s
  /\ as_topk s' = as_topk s /\ as_new_trial s' = as_new_trial s
  /\ as_policy s' = as_policy s.
Proof.
  unfold schedule_func, ensure_context.
  destruct (contexts s !! key) as [c |] eqn:Hc.
  - rewrite Hc.
    destruct (auto_schedule fuel subgraph c rng) as [[[r c'] n] |] eqn:Hstep;
      simpl; [| done].
    intros [= <- <- <-]. simpl. apply auto_schedule_counts in Hstep.
    split; [exists c'; by rewrite lookup_insert_eq |].
    split; [by intros k Hk; rewrite lookup_insert_ne |]. done.
  - simpl. rewrite lookup_insert_eq.
    destruct (auto_schedule fuel subgraph _ rng) as [[[r c'] n] |] eqn:Hstep;
      simpl; [| done].
    intros [= <- <- <-]. simpl. apply auto_schedule_counts in Hstep. simpl in Hstep.
    split; [exists c'; by rewrite lookup_insert_eq |].
    split; [by intros k Hk; rewrite !lookup_insert_ne |]. done.
Qed.
End SchedulerFacts.

(** ** The workers' walk over the graph *)

Section WalkFacts.
Context `{Collaborators}.
Import Search Driver.

Lemma count_at_insert (order : gmap Z Z) k k' n :
  count_at (<[k := n]> order) k' = if decide (k = k') then n else count_at order k'.
Proof.
  unfold count_at. case_decide as Hk.
  - subst. by rewrite lookup_insert_eq.
  - by rewrite lookup_insert_ne.
Qed.

(** The predecessor counters.  After the loop over the successors of a
    node, the counter of every key has gone down by the number of times the
    key occurs among the successors, and a key has been added to the update
    set exactly if its counter was at least 1 and no more than that number:
    a key is admitted by the edge that brings its counter to 0, and by no
    other. *)
Lemma decrement_successors_spec
    (succs : list Z) (order : gmap Z Z) (update_set : gset Z) (k : Z) :
  let occurrences := Z.of_nat (length (filter (fun v => v = k) succs)) in
  let '(order', update_set') := decrement_successors succs order update_set in
  count_at order' k = count_at order k - occurrences
  /\ (k ∈ update_set' <-> k ∈ update_set \/ 1 <= count_at order k <= occurrences).
Proof.
  revert order update_set.
  induction succs as [| succ rest IH]; intros order update_set; simpl.
  - split; [lia |]. split; [tauto | intros [? | ?]; [done | lia]].
  - specialize (IH (<[succ := count_at order succ - 1]> order)
                  (if count_at order succ - 1 =? 0
                   then {[ succ ]} ∪ update_set else update_set)).
    destruct (decrement_successors rest _ _) as [order' update_set'].
    destruct IH as [IHc IHu]. rewrite count_at_insert in IHc, IHu.
    rewrite filter_cons. destruct (decide (succ = k)) as [-> | Hne].
    + simpl length. split; [lia |]. rewrite IHu.
      destruct (count_at order k - 1 =? 0) eqn:Hz;
        [apply Z.eqb_eq in Hz | apply Z.eqb_neq in Hz];
        rewrite ?elem_of_union, ?elem_of_singleton; split; intros Hk;
        repeat destruct Hk as [Hk | Hk]; try tauto; try (right; lia); try lia.
    + split; [lia |]. rewrite IHu.
      destruct (count_at order succ - 1 =? 0); [| tauto].
      rewrite elem_of_union, elem_of_singleton. split; intros Hk.
      * destruct Hk as [[Hk | Hk] | Hk]; [congruence | tauto | tauto].
      * tauto.
Qed.

(** X11: an emergency build is built twice.  The emergency branch reads the
    head of the key's futures without popping it, so when the node visited
    is the emergency key itself, the same schedule and module are pushed a
    second time by the regular branch of the same visit. *)
Theorem X11_emergency_build_is_pushed_twice
    (task_id : Z) (mg : TIRMultiGraph) (allow_missing : bool) (cand : Z)
    (s : Session) (w : BuildWalk) (more : list Z)
    (sch : ScheduleResult) (md : RtModule)
    (rest : list (ScheduleResult * FutureModule))
    (subgraph : TIRGraph) (attr : GraphAttr) :
  flag_at (finish s) task_id = false ->
  emergency_build_queue s = cand :: more ->
  queue_at (future_functions s) cand = (sch, Some md) :: rest ->
  graphs mg !! cand = Some subgraph ->
  tag subgraph ∉ built w ->
  graph_attrs mg !! cand = Some attr ->
  (length (queue_at (built_functions s) cand) < 1000)%nat ->
  exists s' w',
    build_node task_id mg allow_missing cand s w = Done (Some (s', w'))
    /\ queue_at (built_functions s') cand
       = queue_at (built_functions s) cand
         ++ [(sch, md, get_function md cand); (sch, md, get_function md cand)]
    /\ queue_at (future_functions s') cand = rest
    /\ emergency_build_queue s' = more
    /\ build_count w' = build_count w + 1.
Proof.
  intros Hfin Hq Hfut Hg Htag Hattr Hlen.
  unfold build_node. rewrite Hfin, Hg. rewrite decide_False by done.
  unfold emergency_build. rewrite Hq, Hfut.
  unfold build_proceed.
  cbn [future_functions built_functions emergency_build_queue set_built_functions
       set_future_functions set_emergency_build_queue set_queues].
  rewrite Hfut.
  cbn [future_functions built_functions emergency_build_queue set_built_functions
       set_future_functions set_emergency_build_queue set_queues].
  rewrite queue_at_insert_eq.
  rewrite length_app. simpl length.
  replace (1000 <? Z.of_nat (length (queue_at (built_functions s) cand) + 1)) with false
    by (symmetry; apply Z.ltb_ge; lia).
  unfold build_advance. rewrite Hattr.
  destruct (decrement_successors _ _ _) as [order upd]. simpl.
  eexists _, _. split; [done |]. simpl.
  rewrite !queue_at_insert_eq, <- app_assoc. done.
Qed.
End WalkFacts.

(** ** The evaluate worker *)

Section EvaluateFacts.
Context `{Collaborators}.
Import Search Driver.

Lemma store_function_shape candidate slot :
  store_function candidate slot <> []
  /\ ((length slot <= 1)%nat -> (length (store_function candidate slot) <= 1)%nat).
Proof.
  unfold store_function. destruct slot as [| best rest]; [by split; [| simpl; lia] |].
  destruct (Qltb _ _); split; try done.
  - by destruct rest.
  - rewrite length_app. simpl. lia.
Qed.

Lemma push_cache_function_shape r slot :
  push_cache_function r slot <> []
  /\ ((length slot <= 1)%nat -> (length (push_cache_function r slot) <= 1)%nat).
Proof.
  unfold push_cache_function. destruct slot as [| best rest]; [by split; [| simpl; lia] |].
  split; [by destruct rest |]. rewrite length_app. simpl. lia.
Qed.

(** What the first stage of [evaluate_helper] changes. *)
Lemma try_new_function_effect key subgraph s w s' w' succ taken :
  try_new_function key subgraph s w = Done (s', w', succ, taken) ->
  future_functions s' = future_functions s
  /\ emergency_schedule_queue s' = emergency_schedule_queue s
  /\ emergency_build_queue s' = emergency_build_queue s
  /\ match queue_at (built_functions s) key with
     | [] => taken = false /\ built_functions s' = built_functions s
     | _ :: rest => taken = true /\ built_functions s' = <[key := rest]> (built_functions s)
     end
  /\ ((succ = false /\ best_functions s' = best_functions s)
      \/ exists candidate,
           succ = true
           /\ best_functions s'
              = <[key := store_function candidate (queue_at (best_functions s) key)]>
                  (best_functions s)).
Proof.
  unfold try_new_function.
  destruct (queue_at (built_functions s) key) as [| [[sr md] func] rest].
  { intros [= <- _ <- <-]. repeat split; try done. by left. }
  destruct (is_null func); [done |].
  destruct (Qltb 0 _).
  - destruct (feedback_for _ _ _ _ _) as [a |]; simpl; [| done].
    intros [= <- _ <- <-]. repeat split; try done. right. by eexists.
  - destruct (feedback_for _ _ _ _ _) as [a |]; simpl; [| done].
    intros [= <- _ <- <-]. repeat split; try done. by left.
Qed.

Lemma try_repeated_function_effect key subgraph s w s' succ :
  try_repeated_function key subgraph s w = (s', succ) ->
  future_functions s' = future_functions s
  /\ built_functions s' = built_functions s
  /\ emergency_schedule_queue s' = emergency_schedule_queue s
  /\ emergency_build_queue s' = emergency_build_queue s
  /\ ((succ = false /\ best_functions s' = best_functions s)
      \/ exists r,
           succ = true
           /\ best_functions s'
              = <[key := push_cache_function r (queue_at (best_functions s) key)]>
                  (best_functions s)).
Proof.
  unfold try_repeated_function.
  destruct (evaluate_cache w !! tag subgraph) as [repeat_key |].
  - destruct (queue_at (best_functions s) repeat_key) as [| r rest].
    + intros [= <- <-]. repeat split; try done. by left.
    + intros [= <- <-]. repeat split; try done. right. by eexists.
  - intros [= <- <-]. repeat split; try done. by left.
Qed.

(** The stages of an [evaluate_helper] call that returned: the session
    after the two attempts, and whether the emergency was raised. *)
Lemma evaluate_helper_stages mg allow_missing key s w s' w' :
  evaluate_helper mg allow_missing key s w = Done (s', w') ->
  exists subgraph s1 w1 succ1 taken s2 succ2,
    graphs mg !! key = Some subgraph
    /\ try_new_function key subgraph s w = Done (s1, w1, succ1, taken)
    /\ (if succ1 then (s1, true) else try_repeated_function key subgraph s1 w1)
       = (s2, succ2)
    /\ s' = match succ2, queue_at (best_functions s2) key, taken with
            | false, [], true =>
                set_emergency_schedule_queue (emergency_schedule_queue s2 ++ [key]) s2
            | _, _, _ => s2
            end.
Proof.
  unfold evaluate_helper.
  destruct (graphs mg !! key) as [subgraph |]; [| done].
  destruct (try_new_function key subgraph s w) as [[[[s1 w1] succ1] taken] |] eqn:Hnew;
    [| done].
  destruct (if succ1 then (s1, true) else try_repeated_function key subgraph s1 w1)
    as [s2 succ2] eqn:Hrep.
  intros Hend. exists subgraph, s1, w1, succ1, taken, s2, succ2.
  repeat split; try done.
  destruct (succ2 || allow_missing).
  - destruct (graph_attrs mg !! key); [| done].
    destruct (decrement_successors _ _ _). by injection Hend as <- _.
  - by injection Hend as <- _.
Qed.

(** X12: the best slots only get better filled.  An [evaluate_helper] call
    that returns leaves every slot that held a record with a record, and
    every slot that held at most one record with at most one. *)
Theorem X12_evaluate_keeps_best_slots_filled
    (mg : TIRMultiGraph) (allow_missing : bool) (key : Z)
    (s s' : Session) (w w' : EvaluateWalk) (k : Z) :
  evaluate_helper mg allow_missing key s w = Done (s', w') ->
  (queue_at (best_functions s) k <> [] -> queue_at (best_functions s') k <> [])
  /\ ((length (queue_at (best_functions s) k) <= 1)%nat ->
      (length (queue_at (best_functions s') k) <= 1)%nat).
Proof.
  intros Hrun.
  destruct (evaluate_helper_stages _ _ _ _ _ _ _ Hrun)
    as (g & s1 & w1 & succ1 & taken & s2 & succ2 & _ & Hnew & Hrep & ->).
  assert (Hstep1 :
    (queue_at (best_functions s) k <> [] -> queue_at (best_functions s1) k <> [])
    /\ ((length (queue_at (best_functions s) k) <= 1)%nat ->
        (length (queue_at (best_functions s1) k) <= 1)%nat)).
  { apply try_new_function_effect in Hnew
      as (_ & _ & _ & _ & [[_ ->] | (c & _ & ->)]); [done |].
    destruct (decide (key = k)) as [<- | Hne].
    - rewrite queue_at_insert_eq.
      destruct (store_function_shape c (queue_at (best_functions s) key)). by split.
    - by rewrite queue_at_insert_ne. }
  assert (Hstep2 :
    (queue_at (best_functions s1) k <> [] -> queue_at (best_functions s2) k <> [])
    /\ ((length (queue_at (best_functions s1) k) <= 1)%nat ->
        (length (queue_at (best_functions s2) k) <= 1)%nat)).
  { destruct succ1; [by injection Hrep as <- _ |].
    apply try_repeated_function_effect in Hrep
      as (_ & _ & _ & _ & [[_ ->] | (r & _ & ->)]); [done |].
    destruct (decide (key = k)) as [<- | Hne].
    - rewrite queue_at_insert_eq.
      destruct (push_cache_function_shape r (queue_at (best_functions s1) key)).
      by split.
    - by rewrite queue_at_insert_ne. }
  assert (Hlast : forall q : list BestRecord,
    best_functions (match succ2, q, taken with
                    | false, [], true =>
                        set_emergency_schedule_queue
                          (emergency_schedule_queue s2 ++ [key]) s2
                    | _, _, _ => s2
                    end) = best_functions s2).
  { intros q. by destruct succ2, q, taken. }
  rewrite Hlast. destruct Hstep1, Hstep2. split; auto.
Qed.

(** X13: the queues around one evaluation.  An [evaluate_helper] call that
    returns has taken the head of [built_functions] of its key, if there
    was one, and nothing else from any queue of artifacts or futures; it
    has put its key on the emergency schedule queue only if it took an
    artifact and the key still has no best record. *)
Theorem X13_evaluate_takes_the_head_artifact
    (mg : TIRMultiGraph) (allow_missing : bool) (key : Z)
    (s s' : Session) (w w' : EvaluateWalk) :
  evaluate_helper mg allow_missing key s w = Done (s', w') ->
  queue_at (built_functions s') key = tail (queue_at (built_functions s) key)
  /\ (forall k, k <> key ->
        queue_at (built_functions s') k = queue_at (built_functions s) k)
  /\ future_functions s' = future_functions s
  /\ emergency_build_queue s' = emergency_build_queue s
  /\ (emergency_schedule_queue s' = emergency_schedule_queue s
      \/ (emergency_schedule_queue s' = emergency_schedule_queue s ++ [key]
          /\ queue_at (best_functions s') key = []
          /\ queue_at (built_functions s) key <> [])).
Proof.
  intros Hrun.
  destruct (evaluate_helper_stages _ _ _ _ _ _ _ Hrun)
    as (g & s1 & w1 & succ1 & taken & s2 & succ2 & _ & Hnew & Hrep & ->).
  apply try_new_function_effect in Hnew as (Hf1 & He1 & Hb1 & Hbuilt1 & _).
  assert (Hsame : future_functions s2 = future_functions s1
                  /\ built_functions s2 = built_functions s1
                  /\ emergency_schedule_queue s2 = emergency_schedule_queue s1
                  /\ emergency_build_queue s2 = emergency_build_queue s1).
  { destruct succ1; [by injection Hrep as <- _ |].
    apply try_repeated_function_effect in Hrep as (? & ? & ? & ? & _). done. }
  destruct Hsame as (Hf2 & Hbu2 & He2 & Hb2).
  assert (Hbuilt : queue_at (built_functions s2) key
                   = tail (queue_at (built_functions s) key)
                   /\ (forall k, k <> key ->
                         queue_at (built_functions s2) k
                         = queue_at (built_functions s) k)
                   /\ (taken = true -> queue_at (built_functions s) key <> [])).
  { rewrite Hbu2. destruct (queue_at (built_functions s) key) as [| x rest] eqn:Hq.
    - destruct Hbuilt1 as [-> ->]. rewrite Hq. done.
    - destruct Hbuilt1 as [-> ->]. rewrite queue_at_insert_eq.
      split; [done |]. split; [| done]. intros k Hk. by rewrite queue_at_insert_ne. }
  destruct Hbuilt as (Hhead & Hothers & Htaken).
  destruct succ2; [| destruct (queue_at (best_functions s2) key) eqn:Hbest;
                     [destruct taken |]];
    cbn [built_functions future_functions emergency_build_queue
         emergency_schedule_queue best_functions set_emergency_schedule_queue set_queues];
    (split; [done |]); (split; [done |]); (split; [congruence |]);
    (split; [congruence |]); try (left; congruence).
  right. split; [congruence |]. split; [done | by apply Htaken].
Qed.

(** The first stage leaves the walk's sets and counters alone. *)
Lemma try_new_function_walk key subgraph s w s' w' succ taken :
  try_new_function key subgraph s w = Done (s', w', succ, taken) ->
  evaluate_order w' = evaluate_order w
  /\ evaluate_update_set w' = evaluate_update_set w
  /\ evaluate_delete_set w' = evaluate_delete_set w.
Proof.
  unfold try_new_function.
  destruct (queue_at (built_functions s) key) as [| [[sr md] func] rest].
  { by intros [= _ <- _ _]. }
  destruct (is_null func); [done |].
  destruct (Qltb 0 _).
  - destruct (feedback_for _ _ _ _ _) as [a |]; simpl; [| done].
    by intros [= _ <- _ _].
  - destruct (feedback_for _ _ _ _ _) as [a |]; simpl; [| done].
    by intros [= _ <- _ _].
Qed.

(** X14: without [allow_missing] a node leaves the free set only with a best
    record.  An [evaluate_helper] call that returns either leaves the delete
    set as it was, or adds its key to it and the key has a best record. *)
Theorem X14_evaluate_advances_only_with_a_best_record
    (mg : TIRMultiGraph) (key : Z) (s s' : Session) (w w' : EvaluateWalk) :
  evaluate_helper mg false key s w = Done (s', w') ->
  evaluate_delete_set w' = evaluate_delete_set w
  \/ (evaluate_delete_set w' = {[ key ]} ∪ evaluate_delete_set w
      /\ queue_at (best_functions s') key <> []).
Proof.
  unfold evaluate_helper.
  destruct (graphs mg !! key) as [subgraph |]; [| done].
  destruct (try_new_function key subgraph s w) as [[[[s1 w1] succ1] taken] |] eqn:Hnew;
    [| done].
  pose proof (try_new_function_walk _ _ _ _ _ _ _ _ Hnew) as (_ & _ & Hdel).
  apply try_new_function_effect in Hnew as (_ & _ & _ & _ & Hbest1).
  destruct (if succ1 then (s1, true) else try_repeated_function key subgraph s1 w1)
    as [s2 succ2] eqn:Hrep.
  assert (Hbest : succ2 = true -> queue_at (best_functions s2) key <> []).
  { intros ->. destruct succ1.
    - injection Hrep as <-. destruct Hbest1 as [[? _] | (c & _ & ->)]; [done |].
      rewrite queue_at_insert_eq. apply store_function_shape.
    - apply try_repeated_function_effect in Hrep
        as (_ & _ & _ & _ & [[? _] | (r & _ & ->)]); [done |].
      rewrite queue_at_insert_eq. apply push_cache_function_shape. }
  destruct succ2; simpl.
  - destruct (graph_attrs mg !! key); [| done].
    destruct (decrement_successors _ _ _). intros [= <- <-]. right. simpl.
    split; [by rewrite Hdel | by apply Hbest].
  - intros [= _ <-]. by left.
Qed.
End EvaluateFacts.

(** ** Loading a reference and the tuning life cycle *)

Section LifeCycleFacts.
Context `{Collaborators}.
Import Search Driver Reference.

(** What one line of the reference file does. *)
Lemma load_reference_line_effect mg parts s cache s1 cache1 :
  load_reference_line mg parts s cache = Done (s1, cache1) ->
  exists key subgraph rec,
    line_key parts = Some key
    /\ graphs mg !! key = Some subgraph
    /\ from_reference rec
    /\ best_functions s1
       = <[key := queue_at (best_functions s) key ++ [rec]]> (best_functions s)
    /\ cache1 = match cache !! tag subgraph with
                | None => <[tag subgraph := key]> cache
                | Some _ => cache
                end.
Proof.
  unfold load_reference_line.
  destruct parts as [| part0 [| part1 more]]; try done.
  destruct (stoi part0) as [key |] eqn:Hkey; [| done].
  destruct (graphs mg !! key) as [subgraph |] eqn:Hg; [| done].
  destruct (schedule_with_entity _ _ _ _ _) as [[sr a] |]; simpl; [| done].
  destruct (build_func _ _ _ _) as [module |]; [| done].
  intros [= <- <-]. eexists key, subgraph, _.
  split; [done |]. split; [done |]. split; [| by split]. by split.
Qed.

(** The best slots and the tag cache after the lines of the file. *)
Lemma load_reference_spec mg lines s cache s1 cache1 :
  load_reference mg lines s cache = Done (s1, cache1) ->
  (forall k, exists recs,
      queue_at (best_functions s1) k = queue_at (best_functions s) k ++ recs
      /\ length recs = length (filter (fun k' => k' = k) (named_keys lines))
      /\ Forall from_reference recs)
  /\ (forall t, cache1 !! t = match cache !! t with
                              | Some k => Some k
                              | None => first_with_tag mg t (named_keys lines)
                              end).
Proof.
  revert s cache. induction lines as [| parts rest IH]; intros s cache; simpl.
  { intros [= <- <-]. split.
    - intros k. exists []. by rewrite app_nil_r.
    - intros t. by destruct (cache !! t). }
  destruct (load_reference_line mg parts s cache) as [[sa ca] |] eqn:Hline;
    simpl; [| done].
  intros Hrest. apply IH in Hrest as [Hslots Hcache].
  apply load_reference_line_effect in Hline
    as (key & subgraph & rec & Hkey & Hg & Hrec & Hbest & ->).
  unfold named_keys in *. simpl. rewrite Hkey. simpl. split.
  - intros k. destruct (Hslots k) as (recs & Hq & Hlen & Hall).
    rewrite Hbest in Hq. rewrite filter_cons.
    destruct (decide (key = k)) as [-> | Hne].
    + rewrite queue_at_insert_eq in Hq. exists (rec :: recs).
      split; [by rewrite Hq, <- app_assoc |]. split; [simpl; by rewrite Hlen |].
      by constructor.
    + rewrite queue_at_insert_ne in Hq by done. by exists recs.
  - intros t. rewrite Hcache. clear Hcache Hslots IH.
    destruct (decide (tag <$> graphs mg !! key = Some t)) as [Ht | Ht];
      rewrite Hg in Ht; simpl in Ht.
    + injection Ht as <-. destruct (cache !! tag subgraph) as [k0 |] eqn:Hc.
      * by rewrite Hc.
      * by rewrite lookup_insert_eq.
    + assert (Hne : tag subgraph <> t) by congruence.
      destruct (cache !! tag subgraph) as [k0 |] eqn:Hc; [done |].
      by rewrite lookup_insert_ne.
Qed.

(** The best slots after the loop of lines 1203-1208. *)
Lemma alias_missing_spec all cache s s' :
  alias_missing all cache s = Done s' ->
  NoDup all.*1 ->
  (forall t from, cache !! t = Some from -> queue_at (best_functions s) from <> []) ->
  (forall k, queue_at (best_functions s) k <> [] ->
     queue_at (best_functions s') k = queue_at (best_functions s) k)
  /\ (forall k g, (k, g) ∈ all -> queue_at (best_functions s) k = [] ->
        exists from r others,
          cache !! tag g = Some from
          /\ queue_at (best_functions s) from = r :: others
          /\ queue_at (best_functions s') k = [r]).
Proof.
  revert s. induction all as [| [key g] rest IH]; intros s; simpl.
  { intros [= <-] _ _. split; [done |]. intros k g Hin. by apply elem_of_nil in Hin. }
  intros Hrun Hnd Hcache. apply NoDup_cons in Hnd as [Hfresh Hnd].
  destruct (queue_at (best_functions s) key) as [| b bs] eqn:Hslot.
  - destruct (cache !! tag g) as [from |] eqn:Hfrom; [| done].
    destruct (queue_at (best_functions s) from) as [| best others] eqn:Hbest; [done |].
    assert (Hne : from <> key) by (intros ->; by rewrite Hslot in Hbest).
    apply IH in Hrun as [Hkeep Hfill]; [| done |].
    + split.
      * intros k Hk. assert (key <> k) by (intros ->; by rewrite Hslot in Hk).
        rewrite Hkeep; simpl; by rewrite queue_at_insert_ne.
      * intros k g' [[= -> ->] | Hin]%elem_of_cons Hempty.
        -- exists from, best, others. split; [done |]. split; [done |].
           rewrite Hkeep; simpl; by rewrite queue_at_insert_eq.
        -- assert (key <> k).
           { intros ->. apply Hfresh. apply list_elem_of_fmap. by exists (k, g'). }
           destruct (Hfill k g' Hin) as (from' & r & others' & Hc & Hq & Hk);
             [simpl; by rewrite queue_at_insert_ne |].
           exists from', r, others'. split; [done |]. split; [| done].
           simpl in Hq. rewrite queue_at_insert_ne in Hq; [done |].
           intros ->. apply (Hcache _ _ Hc). done.
    + intros t from' Hc. simpl.
      destruct (decide (key = from')) as [<- | Hne'];
        [by rewrite queue_at_insert_eq | rewrite queue_at_insert_ne by done; eauto].
  - apply IH in Hrun as [Hkeep Hfill]; [| done | done].
    split; [done |].
    intros k g' [[= -> ->] | Hin]%elem_of_cons Hempty; [by rewrite Hslot in Hempty |].
    by apply Hfill.
Qed.

(** The best slot of a subgraph after [prepare_for_test]: what it held,
    then one record per line that names the key; where that is nothing,
    the front record of the first key named for the tag. *)
Lemma prepare_for_test_slots task_id reference s s' mg lines key subgraph :
  prepare_for_test task_id reference s = Done s' ->
  task_cache s !! task_id = Some mg ->
  read_reference reference = Some lines ->
  graphs mg !! key = Some subgraph ->
  exists recs,
    length recs = length (filter (fun k' => k' = key) (named_keys lines))
    /\ Forall from_reference recs
    /\ match queue_at (best_functions s) key ++ recs with
       | [] =>
           exists from r,
             first_with_tag mg (tag subgraph) (named_keys lines) = Some from
             /\ head (queue_at (best_functions s') from) = Some r
             /\ queue_at (best_functions s') key = [r]
       | loaded => queue_at (best_functions s') key = loaded
       end.
Proof.
  unfold prepare_for_test. intros Hrun Hmg Hlines Hkey.
  rewrite Hmg, Hlines in Hrun.
  destruct (load_reference mg lines s ∅) as [[s1 cache] |] eqn:Hload;
    simpl in Hrun; [| done].
  destruct (alias_missing _ cache s1) as [s2 |] eqn:Halias; simpl in Hrun; [| done].
  injection Hrun as <-. cbn [best_functions set_flags].
  apply load_reference_spec in Hload as [Hslots Hcache].
  assert (Hnamed : forall t from, cache !! t = Some from ->
            queue_at (best_functions s1) from <> []).
  { intros t from Hc. rewrite Hcache, lookup_empty in Hc.
    destruct (Hslots from) as (recs & -> & Hlen & _).
    assert (Hin : from ∈ named_keys lines).
    { clear -Hc. induction (named_keys lines) as [| k ks IH]; [done |].
      simpl in Hc. case_decide; [injection Hc as ->; left | right; auto]. }
    destruct recs as [| r recs]; [| by destruct (queue_at _ _)].
    exfalso. simpl in Hlen. symmetry in Hlen. apply length_zero_iff_nil in Hlen.
    assert (Hf : from ∈ filter (fun k' => k' = from) (named_keys lines))
      by (by apply list_elem_of_filter).
    rewrite Hlen in Hf. by apply elem_of_nil in Hf. }
  apply alias_missing_spec in Halias as [Hkeep Hfill];
    [| apply NoDup_fst_map_to_list | done].
  destruct (Hslots key) as (recs & Hq & Hlen & Hall).
  exists recs. split; [done |]. split; [done |].
  destruct (queue_at (best_functions s) key ++ recs) as [| r0 loaded] eqn:Hloaded.
  - destruct (Hfill key subgraph) as (from & r & others & Hc & Hfrom & Hk);
      [by apply elem_of_map_to_list | done |].
    rewrite Hcache, lookup_empty in Hc.
    exists from, r. split; [done |]. split; [| done].
    rewrite Hkeep; by rewrite Hfrom.
  - rewrite Hkeep; by rewrite Hq.
Qed.

(** X15: when [prepare_for_test] returns, the task is marked as cached
    and every subgraph of the task has a best record.  Its slot holds what
    it held before, followed by one record of -999 gflops and -999 ms for
    each line of the file that names its key; where that leaves the slot
    empty, the slot holds the front record of the first key that the file
    names for a subgraph with the same tag. *)
Theorem X15_prepare_for_test_fills_every_best_slot
    (task_id : Z) (reference : string) (s s' : Session)
    (mg : TIRMultiGraph) (lines : list (list string))
    (key : Z) (subgraph : TIRGraph) :
  prepare_for_test task_id reference s = Done s' ->
  task_cache s !! task_id = Some mg ->
  read_reference reference = Some lines ->
  graphs mg !! key = Some subgraph ->
  is_cached s' task_id = true
  /\ queue_at (best_functions s') key <> []
  /\ exists recs,
       length recs = length (filter (fun k' => k' = key) (named_keys lines))
       /\ Forall from_reference recs
       /\ match queue_at (best_functions s) key ++ recs with
          | [] =>
              exists from r,
                first_with_tag mg (tag subgraph) (named_keys lines) = Some from
                /\ head (queue_at (best_functions s') from) = Some r
                /\ queue_at (best_functions s') key = [r]
          | loaded => queue_at (best_functions s') key = loaded
          end.
Proof.
  intros Hrun Hmg Hlines Hkey.
  pose proof (prepare_for_test_slots _ _ _ _ _ _ _ _ Hrun Hmg Hlines Hkey)
    as (recs & Hlen & Hall & Hslot).
  split; [| split; [| by exists recs]].
  - unfold prepare_for_test in Hrun. rewrite Hmg, Hlines in Hrun.
    destruct (load_reference mg lines s ∅) as [[s1 cache] |]; simpl in Hrun; [| done].
    destruct (alias_missing _ cache s1) as [s2 |]; simpl in Hrun; [| done].
    injection Hrun as <-. unfold is_cached. simpl. by rewrite lookup_insert_eq.
  - destruct (queue_at (best_functions s) key ++ recs) as [| r0 loaded].
    + destruct Hslot as (from & r & _ & _ & ->). done.
    + by rewrite Hslot.
Qed.






Lemma launch_again task_id w1 w2 (threads : gmap Z Thread) :
  launch task_id w2 (launch task_id w1 threads) = launch task_id w1 threads.
Proof.
  unfold launch. destruct (threads !! task_id) as [t |] eqn:Ht.
  - by rewrite Ht.
  - by rewrite lookup_insert_eq.
Qed.

(** X17: [begin_tuning] without a reference is idempotent.  A second call
    for the same task, whatever its numbers, launches nothing (the workers
    of the first call stay, with the first call's numbers) and leaves the
    session exactly as the first call left it. *)
Theorem X17_begin_tuning_twice_is_begin_tuning_once
    (task_id a1 a2 f1 f2 : Z) (r1 r2 : Q) (s s1 : Session) :
  begin_tuning task_id a1 "" f1 r1 s = Done s1 ->
  begin_tuning task_id a2 "" f2 r2 s1 = Done s1.
Proof.
  unfold begin_tuning.
  destruct (task_cache s !! task_id) as [mg |] eqn:Hmg; [| done].
  rewrite decide_True by done. simpl. intros [= <-]. simpl. rewrite Hmg.
  rewrite !launch_again, !insert_insert_eq. done.
Qed.

(** What [launch] leaves under each key. *)
Lemma launch_lookup task_id w (threads : gmap Z Thread) :
  launch task_id w threads !! task_id
  = Some (default (Spawned w) (threads !! task_id))
  /\ forall k, k <> task_id -> launch task_id w threads !! k = threads !! k.
Proof.
  unfold launch. destruct (threads !! task_id) as [t |] eqn:Ht.
  - by rewrite Ht.
  - rewrite lookup_insert_eq. split; [done |].
    intros k Hk. by rewrite lookup_insert_ne.
Qed.

(** X18: [begin_tuning] launches a worker of a kind only where the task
    has no entry in the table of that kind.  An entry that is there, be it
    a running worker or a thread object that is not joinable, is kept as it
    is and nothing is launched for it; an absent entry becomes the worker
    started with the arguments of this call.  The entries of the other
    tasks are not touched, [finish] is cleared and [in_tuning] is set. *)
Theorem X18_begin_tuning_launches_only_missing_workers
    (task_id advance_number first_stage_number : Z) (reference : string)
    (ratio : Q) (s s' : Session) :
  begin_tuning task_id advance_number reference first_stage_number ratio s = Done s' ->
  sch_threads s' !! task_id
  = Some (default
            (Spawned (RunAutoschedule task_id advance_number reference
                        first_stage_number ratio))
            (sch_threads s !! task_id))
  /\ build_threads s' !! task_id
     = Some (default (Spawned (RunBuild task_id advance_number))
               (build_threads s !! task_id))
  /\ evaluate_threads s' !! task_id
     = Some (default (Spawned (RunEvaluate task_id advance_number))
               (evaluate_threads s !! task_id))
  /\ (forall k, k <> task_id ->
        sch_threads s' !! k = sch_threads s !! k
        /\ build_threads s' !! k = build_threads s !! k
        /\ evaluate_threads s' !! k = evaluate_threads s !! k)
  /\ flag_at (finish s') task_id = false
  /\ flag_at (in_tuning s') task_id = true.
Proof.
  unfold begin_tuning.
  destruct (task_cache s !! task_id) as [mg |]; [| done].
  assert (Hkeep : forall s0 s1,
    (if decide (reference = "") then Done s0 else prepare_for_test task_id reference s0)
    = Done s1 ->
    sch_threads s1 = sch_threads s0 /\ build_threads s1 = build_threads s0
    /\ evaluate_threads s1 = evaluate_threads s0 /\ finish s1 = finish s0).
  { intros s0 s1. case_decide; [by intros [= <-] |].
    unfold prepare_for_test.
    destruct (task_cache s0 !! task_id) as [mg0 |]; [| done].
    destruct (read_reference reference) as [lines |]; [| done].
    destruct (load_reference mg0 lines s0 ∅) as [[s2 cache] |] eqn:Hload; simpl; [| done].
    destruct (alias_missing _ cache s2) as [s3 |] eqn:Halias; simpl; [| done].
    intros [= <-]. simpl.
    assert (Hal : forall all sa sb, alias_missing all cache sa = Done sb ->
      sch_threads sb = sch_threads sa /\ build_threads sb = build_threads sa
      /\ evaluate_threads sb = evaluate_threads sa /\ finish sb = finish sa).
    { clear. induction all as [| [k g] rest IH]; intros sa sb; simpl.
      - by intros [= <-].
      - destruct (queue_at (best_functions sa) k); [| apply IH].
        destruct (cache !! tag g) as [from |]; [| done].
        destruct (queue_at (best_functions sa) from); [done |].
        intros Hr. by apply IH in Hr. }
    assert (Hld : forall lines sa ca sb cb, load_reference mg0 lines sa ca = Done (sb, cb) ->
      sch_threads sb = sch_threads sa /\ build_threads sb = build_threads sa
      /\ evaluate_threads sb = evaluate_threads sa /\ finish sb = finish sa).
    { clear. induction lines as [| parts rest IH]; intros sa ca sb cb; simpl.
      - by intros [= <- _].
      - destruct (load_reference_line mg0 parts sa ca) as [[sc cc] |] eqn:Hline;
          simpl; [| done].
        intros Hr. apply IH in Hr as (-> & -> & -> & ->).
        unfold load_reference_line in Hline.
        destruct parts as [| p0 [| p1 ps]]; try done.
        destruct (stoi p0); [| done]. destruct (graphs mg0 !! _); [| done].
        destruct (schedule_with_entity _ _ _ _ _) as [[sr a] |]; simpl in Hline; [| done].
        destruct (build_func _ _ _ _); [| done]. by injection Hline as <- _. }
    apply Hal in Halias as (-> & -> & -> & ->). by apply Hld in Hload. }
  simpl.
  destruct (if decide (reference = "") then _ else _) as [s1 |] eqn:Hprep; simpl; [| done].
  apply Hkeep in Hprep as (Hs & Hb & He & Hf). simpl in Hs, Hb, He, Hf.
  intros [= <-]. simpl. rewrite Hs, Hb, He, Hf, Z.add_0_r.
  destruct (launch_lookup task_id
              (RunAutoschedule task_id advance_number reference first_stage_number ratio)
              (sch_threads s)) as [Hs1 Hs2].
  destruct (launch_lookup task_id (RunBuild task_id advance_number) (build_threads s))
    as [Hb1 Hb2].
  destruct (launch_lookup task_id (RunEvaluate task_id advance_number)
              (evaluate_threads s)) as [He1 He2].
  split_and!; try done.
  - intros k Hk. by rewrite Hs2, Hb2, He2.
  - unfold flag_at. by rewrite lookup_insert_eq.
  - unfold flag_at. by rewrite lookup_insert_eq.
Qed.
End LifeCycleFacts.

(** ** The session registry, continued *)

Section RegistryFacts.
Context `{Collaborators}.
Import Search Driver RegistryUse.

(** What a [create_session] that returned has done to the statics. *)
Lemma create_session_effect tgt dev_id sess_option r id r' :
  create_session tgt dev_id sess_option r = Done (id, r') ->
  exists sess,
    new_session tgt dev_id sess_option = Done sess
    /\ id = global_count r /\ 0 <= id /\ global_count r' = id + 1
    /\ sessions r' !! id = Some (Some sess)
    /\ sessions r' !! (id + 1)
       = Some (default None (sessions r !! (id + 1)))
    /\ forall id', id' <> id -> id' <> id + 1 -> sessions r' !! id' = sessions r !! id'.
Proof.
  unfold create_session, create_or_get_session.
  destruct (new_session tgt dev_id sess_option) as [sess |]; simpl; [| done].
  destruct (global_count r =? INT_MAX); simpl; [done |].
  rewrite lookup_insert_ne by lia.
  destruct (sessions r !! (global_count r + 1)) as [ptr |] eqn:Hnext; simpl.
  - destruct (0 <=? global_count r) eqn:Hpos; [| done]. apply Z.leb_le in Hpos.
    intros [= <- <-]. exists sess. simpl.
    rewrite lookup_insert_eq, lookup_insert_ne, Hnext by lia.
    repeat split; try done. intros id' Hne _. by rewrite lookup_insert_ne.
  - destruct (0 <=? global_count r) eqn:Hpos; [| done]. apply Z.leb_le in Hpos.
    intros [= <- <-]. exists sess. simpl.
    rewrite lookup_insert_eq, lookup_insert_ne, lookup_insert_eq, Hnext by lia.
    repeat split; try done. intros id' Hne Hne'. by rewrite !lookup_insert_ne.
Qed.

(** X19: create and look up.  The id that [create_session] returns is the
    count of sessions created so far, and [get_session] on that id returns
    the session just constructed and changes nothing; the entries under
    all ids but this one and the next are what they were. *)
Theorem X19_created_session_is_found_under_its_id
    (tgt : Target) (dev_id : Z) (sess_option : SessionOption)
    (r r' : Registry) (id : Z) :
  create_session tgt dev_id sess_option r = Done (id, r') ->
  exists sess,
    new_session tgt dev_id sess_option = Done sess
    /\ get_session id r' = Done (Some sess, r')
    /\ id = global_count r
    /\ global_count r' = id + 1
    /\ forall id', id' <> id -> id' <> id + 1 -> sessions r' !! id' = sessions r !! id'.
Proof.
  intros Hcreate.
  destruct (create_session_effect _ _ _ _ _ _ Hcreate)
    as (sess & Hnew & Hid & _ & Hcount & Hat & _ & Hothers).
  exists sess. repeat split; try done.
  unfold get_session, create_or_get_session. simpl. by rewrite Hat.
Qed.

(** An id below the counter that has no entry gets none again. *)
Lemma call_keeps_gone c r r' id :
  call c r = Done r' ->
  id < global_count r -> sessions r !! id = None ->
  id < global_count r' /\ sessions r' !! id = None.
Proof.
  intros Hcall Hlt Hnone. destruct c as [tgt dev_id opt | id0 | id0]; simpl in Hcall.
  - destruct (create_session tgt dev_id opt r) as [[id1 r1] |] eqn:Hcreate;
      simpl in Hcall; [| done].
    injection Hcall as <-.
    destruct (create_session_effect _ _ _ _ _ _ Hcreate)
      as (sess & _ & -> & _ & Hcount & _ & _ & Hothers).
    split; [lia |]. rewrite Hothers by lia. done.
  - unfold get_session, create_or_get_session in Hcall. simpl in Hcall.
    destruct (sessions r !! id0); simpl in Hcall; [| done]. by injection Hcall as <-.
  - unfold delete_session, create_or_get_session in Hcall. simpl in Hcall.
    destruct (sessions r !! id0) as [p |]; simpl in Hcall; [| done].
    injection Hcall as <-. simpl. split; [done |].
    destruct (decide (id0 = id)) as [-> | Hne];
      [by rewrite lookup_delete_eq | by rewrite lookup_delete_ne].
Qed.

Lemma call_all_keeps_gone cs r id :
  id < global_count r -> sessions r !! id = None ->
  id < global_count (call_all cs r) /\ sessions (call_all cs r) !! id = None.
Proof.
  revert r. induction cs as [| c cs IH]; intros r Hlt Hnone; simpl; [done |].
  destruct (call c r) as [r1 |] eqn:Hcall; [| by apply IH].
  destruct (call_keeps_gone _ _ _ _ Hcall Hlt Hnone). by apply IH.
Qed.

(** X20: delete and look up.  After [delete_session] the id is unknown:
    [get_session] and a second [delete_session] on it fail, and the other
    entries and the counter are untouched.  When the id is below the
    counter, that is, when [create_session] has returned it, it stays
    unknown through every later sequence of registry calls, and no later
    [create_session] returns it. *)
Theorem X20_deleted_session_stays_gone
    (session_id : Z) (r r' : Registry) :
  delete_session session_id r = Done r' ->
  get_session session_id r' = Fails (Thrown "Can't find the session")
  /\ delete_session session_id r' = Fails (Thrown "Can't find the session")
  /\ global_count r' = global_count r
  /\ (forall id', id' <> session_id -> sessions r' !! id' = sessions r !! id')
  /\ (session_id < global_count r ->
      forall cs,
        sessions (call_all cs r') !! session_id = None
        /\ forall tgt dev_id sess_option id r2,
             create_session tgt dev_id sess_option (call_all cs r') = Done (id, r2) ->
             id <> session_id).
Proof.
  unfold delete_session, get_session, create_or_get_session. simpl.
  destruct (sessions r !! session_id) as [ptr |]; simpl; [| done].
  intros [= <-]. simpl. rewrite lookup_delete_eq.
  split_and!; try done.
  - intros id' Hne. by rewrite lookup_delete_ne.
  - intros Hlt cs.
    destruct (call_all_keeps_gone cs
                {| sessions := delete session_id (sessions r);
                   global_count := global_count r |} session_id)
      as [Hlt' Hnone]; [done | apply lookup_delete_eq |].
    split; [done |]. intros tgt dev_id sess_option id r2 Hcreate.
    destruct (create_session_effect _ _ _ _ _ _ Hcreate) as (_ & _ & -> & _).
    lia.
Qed.

Lemma call_wf c r r' : registry_wf r -> call c r = Done r' -> registry_wf r'.
Proof.
  intros [Hpos Hwf]. destruct c as [tgt dev_id opt | id | id]; simpl.
  - destruct (create_session tgt dev_id opt r) as [[id r1] |] eqn:Hcreate;
      simpl; [| done].
    intros [= <-].
    destruct (create_session_effect _ _ _ _ _ _ Hcreate)
      as (sess & _ & -> & _ & Hcount & Hat & Hnext & Hothers).
    split; [lia |]. intros id' ptr Hlook. rewrite Hcount.
    destruct (decide (id' = global_count r)) as [-> | Hne]; [left; lia |].
    destruct (decide (id' = global_count r + 1)) as [-> | Hne'].
    + right. split; [done |]. rewrite Hnext in Hlook. injection Hlook as <-.
      destruct (sessions r !! (global_count r + 1)) as [p |] eqn:Hp; [| done].
      destruct (Hwf _ _ Hp) as [? | [? _]]; lia.
    + rewrite Hothers in Hlook by done.
      destruct (Hwf _ _ Hlook) as [? | [? _]]; [left; lia | done].
  - unfold get_session, create_or_get_session. simpl.
    destruct (sessions r !! id); simpl; [| done]. by intros [= <-].
  - unfold delete_session, create_or_get_session. simpl.
    destruct (sessions r !! id) as [p |]; simpl; [| done]. intros [= <-].
    split; [done |]. simpl. intros id' ptr.
    destruct (decide (id = id')) as [<- | Hne];
      [by rewrite lookup_delete_eq | rewrite lookup_delete_ne by done; apply Hwf].
Qed.

(** X21: only created sessions are handed out.  In a process that starts
    with no session and makes any sequence of registry calls, a
    [get_session] that returns a session (not a null pointer) was asked
    for an id between 0 and the number of sessions created so far, that
    is, for an id that [create_session] has returned. *)
Theorem X21_get_session_returns_created_sessions_only
    (cs : list registry_call) (session_id : Z) (sess : Session) (r' : Registry) :
  get_session session_id (call_all cs no_sessions) = Done (Some sess, r') ->
  0 <= session_id < global_count (call_all cs no_sessions)
  /\ r' = call_all cs no_sessions.
Proof.
  assert (Hreach : forall cs r, registry_wf r -> registry_wf (call_all cs r)).
  { clear. induction cs as [| c cs IH]; intros r Hwf; simpl; [done |].
    destruct (call c r) as [r1 |] eqn:Hcall; [| by apply IH].
    apply IH. by eapply call_wf. }
  assert (Hstart : registry_wf no_sessions).
  { split; [done |]. intros id ptr. simpl. by rewrite lookup_empty. }
  specialize (Hreach cs _ Hstart). destruct Hreach as [_ Hwf].
  unfold get_session, create_or_get_session. simpl.
  destruct (sessions (call_all cs no_sessions) !! session_id) as [ptr |] eqn:Hlook;
    simpl; [| done].
  intros [= -> <-]. split; [| done].
  destruct (Hwf _ _ Hlook) as [? | [_ ?]]; done.
Qed.
End RegistryFacts.

(** ** The locked queue and the tensor tables *)

Section QueueFacts.
Context {T : Type}.
Import LockedQueue.

Lemma push_all (xs q : list T) : foldl (fun q x => push x q) q xs = q ++ xs.
Proof.
  revert q. induction xs as [| x xs IH]; intros q; simpl.
  - by rewrite app_nil_r.
  - rewrite IH. unfold push. by rewrite <- app_assoc.
Qed.

Lemma pop_many_all (q rest : list T) :
  pop_many (length q) (q ++ rest) = Done (q, rest).
Proof.
  induction q as [| x q IH]; simpl; [done |]. by rewrite IH.
Qed.

(** X22: the queue is first-in first-out and exact: after the values [xs]
    are pushed on a queue that holds [q], as many pops as there are
    elements return [q] and then [xs], in that order, and leave the queue
    empty; one further [pop] is a [front()] on an empty queue. *)
Theorem X22_queue_pops_in_push_order (q xs : list T) :
  let filled := foldl (fun q x => push x q) q xs in
  pop_many (length q + length xs) filled = Done (q ++ xs, [])
  /\ empty filled = empty (q ++ xs)
  /\ pop_many (S (length q + length xs)) filled
     = Fails (Undefined "front() of an empty queue").
Proof.
  simpl. rewrite push_all.
  pose proof (pop_many_all (q ++ xs) []) as Hall.
  rewrite app_nil_r, length_app in Hall. split; [done |]. split; [done |].
  assert (Hover : forall (l : list T),
    pop_many (S (length l)) l = Fails (Undefined "front() of an empty queue")).
  { induction l as [| x l IH]; [done |].
    change (pop_many (S (length (x :: l))) (x :: l))
      with ('(more, q'') ← pop_many (S (length l)) l; Done (x :: more, q'')).
    by rewrite IH. }
  specialize (Hover (q ++ xs)). by rewrite length_app in Hover.
Qed.
End QueueFacts.

Section TableFacts.
Context {Tensor : Type} `{Countable Tensor} {NDArray : Type}.
Import Execute.

(** X23: [get_data] returns exactly when every key has an array in one of
    the two tables, and then the arrays are those of the keys, in order,
    the persistent table taking precedence over the volatile one. *)
Theorem X23_get_data_reads_persistent_before_volatile
    (persistent_tensors volatile_tensors : gmap Tensor NDArray)
    (keys : list Tensor) (arrays : list NDArray) :
  get_data persistent_tensors volatile_tensors keys = Done arrays
  <-> Forall2 (fun k a => (persistent_tensors ∪ volatile_tensors) !! k = Some a)
        keys arrays.
Proof.
  revert arrays. induction keys as [| k keys IH]; intros arrays; simpl.
  - split; [intros [= <-]; constructor | by intros ->%Forall2_nil_inv_l].
  - split.
    + destruct (persistent_tensors !! k) as [a |] eqn:Hp;
        [| destruct (volatile_tensors !! k) as [a |] eqn:Hv; [| done]];
        (destruct (get_data _ _ keys) as [ret |] eqn:Hrest; simpl; [| done]);
        intros [= <-]; (constructor; [| by apply IH]);
        apply lookup_union_Some_raw; auto.
    + intros (a & ret & Ha & Hrest & ->)%Forall2_cons_inv_l.
      apply IH in Hrest. rewrite Hrest.
      apply lookup_union_Some_raw in Ha as [Ha | [Hnone Ha]].
      * by rewrite Ha.
      * by rewrite Hnone, Ha.
Qed.
End TableFacts.

(** ** The time report *)

Section ReportFacts.
Import Execute.

Lemma time_push_perm x q : time_push x q ≡ₚ x :: q.
Proof.
  induction q as [| y q IH]; simpl; [done |].
  destruct (Qltb y x); [done |]. rewrite IH. apply Permutation_swap.
Qed.

Lemma time_push_descending x q : descending q -> descending (time_push x q).
Proof.
  unfold descending. induction q as [| y q IH]; intros Hq; simpl.
  - repeat constructor.
  - inversion Hq as [| ? ? Hsorted Hall]; subst.
    destruct (Qltb y x) eqn:Hcmp.
    + apply Qltb_lt in Hcmp. constructor; [done |].
      constructor; [by apply Qlt_le_weak |].
      eapply Forall_impl; [exact Hall |]. intros z Hz; simpl in Hz.
      eapply Qle_trans; [exact Hz | by apply Qlt_le_weak].
    + apply Qltb_ge in Hcmp. constructor; [by apply IH |].
      rewrite time_push_perm. by constructor.
Qed.

Lemma record_times_spec times :
  record_times times ≡ₚ times /\ descending (record_times times).
Proof.
  unfold record_times.
  assert (Hgen : forall acc,
    descending acc ->
    foldl (fun q t => time_push t q) acc times ≡ₚ acc ++ times
    /\ descending (foldl (fun q t => time_push t q) acc times)).
  { induction times as [| t times IH]; intros acc Hacc; simpl.
    - by rewrite app_nil_r.
    - destruct (IH (time_push t acc)) as [Hperm Hdesc];
        [by apply time_push_descending |].
      split; [| done]. rewrite Hperm, time_push_perm. simpl.
      apply Permutation_middle. }
  apply (Hgen []). constructor.
Qed.

Lemma median_loop_spec k q a b :
  (1 <= k <= length q)%nat ->
  exists m, q !! (k - 1)%nat = Some m /\ median_loop k q a b = Done (drop k q, m, m).
Proof.
  revert q a b. induction k as [| k IH]; intros q a b Hk; [lia |].
  destruct q as [| top rest]; [simpl in Hk; lia |]. simpl in Hk.
  destruct k as [| k].
  - exists top. by split.
  - destruct (IH rest top top) as (m & Hm & Hrun); [lia |].
    exists m. split; [| exact Hrun].
    replace (S (S k) - 1)%nat with (S (S k - 1)) by lia. done.
Qed.

Lemma min_loop_spec q m : (m :: q) !! (length q - 1)%nat = Some (min_loop q m).
Proof.
  revert m. induction q as [| top rest IH]; intros m; [done |].
  destruct rest as [| next rest]; [done |].
  specialize (IH top). cbn [min_loop].
  replace (length (top :: next :: rest) - 1)%nat
    with (S (length (next :: rest) - 1)) by (simpl; lia).
  exact IH.
Qed.

Lemma time_report_unfold times mx tl :
  record_times times = mx :: tl ->
  time_report times
  = ('(q, median_time, min_time) ←
       median_loop (S (length (record_times times) `div` 2)) (record_times times) mx mx;
     Done (min_loop q min_time, median_time, mx)).
Proof. intros Hs. unfold time_report. by rewrite Hs. Qed.

(** X24: the time report of a run with at least one timed iteration.  With
    the recorded times in descending order, "max" is the first, "med" the
    one at position [n / 2], and "min" the last but one when there are
    three times or more (the second loop stops with one time left in the
    queue) and the last one otherwise. *)
Theorem X24_time_report_reads_sorted_times (times : list Q) :
  times <> [] ->
  exists sorted mn med mx,
    sorted ≡ₚ times
    /\ descending sorted
    /\ time_report times = Done (mn, med, mx)
    /\ sorted !! 0%nat = Some mx
    /\ sorted !! (length times `div` 2)%nat = Some med
    /\ sorted !! (if decide (length times <= 2)%nat
                  then (length times - 1)%nat else (length times - 2)%nat) = Some mn.
Proof.
  intros Hne. destruct (record_times_spec times) as [Hperm Hdesc].
  pose proof (Permutation_length Hperm) as Hlen.
  assert (Hpos : (1 <= length times)%nat) by (destruct times; [done | simpl; lia]).
  destruct (record_times times) as [| mx tl] eqn:Hs; [simpl in Hlen; lia |].
  rewrite <- Hs in Hperm, Hdesc, Hlen.
  assert (Hfirst : record_times times !! 0%nat = Some mx) by (by rewrite Hs).
  rewrite (time_report_unfold _ _ _ Hs). clear Hs.
  assert (Hhalf : (length times `div` 2 < length times)%nat)
    by (apply Nat.div_lt; lia).
  destruct (median_loop_spec (S (length (record_times times) `div` 2))
              (record_times times) mx mx) as (med & Hmed & Hrun).
  { rewrite Hlen. lia. }
  rewrite Hrun. cbn [mbind outcome_bind]. rewrite Nat.sub_succ, Nat.sub_0_r in Hmed.
  exists (record_times times),
    (min_loop (drop (S (length (record_times times) `div` 2)) (record_times times)) med),
    med, mx.
  split; [done |]. split; [done |]. split; [done |]. split; [done |].
  rewrite <- Hlen. split; [done |].
  pose proof (min_loop_spec
                (drop (S (length (record_times times) `div` 2)) (record_times times)) med)
    as Hmin.
  rewrite <- (drop_S _ _ _ Hmed), lookup_drop, length_drop in Hmin.
  rewrite <- Hmin. f_equal.
  pose proof (Nat.div_mod_eq (length (record_times times)) 2) as Hdiv.
  pose proof (Nat.mod_upper_bound (length (record_times times)) 2) as Hmod.
  rewrite <- Hlen in Hpos. case_decide; lia.
Qed.
End ReportFacts.

(** ** The static call order *)

Section CallOrderFacts.
Context `{Collaborators}.
Import Search Driver Tasks.
Variable visit : gset Z -> list Z.
Hypothesis visit_perm : forall X, visit X ≡ₚ elements X.

Lemma visit_elem_of X k : k ∈ visit X <-> k ∈ X.
Proof. by rewrite visit_perm, elem_of_elements. Qed.

Lemma visit_NoDup X : NoDup (visit X).
Proof. rewrite visit_perm. apply NoDup_elements. Qed.

Lemma count_at_initial mg v :
  count_at (initial_call_order mg) v
  = match graph_attrs mg !! v with
    | Some attr => num_predecessor attr
    | None => 0
    end.
Proof.
  unfold count_at, initial_call_order. rewrite lookup_fmap.
  by destruct (graph_attrs mg !! v).
Qed.

Lemma edges_into_app mg v l k :
  edges_into mg v (l ++ k) = (edges_into mg v l + edges_into mg v k)%nat.
Proof. apply sum_list_with_app. Qed.

Lemma edges_into_bound mg v l attr :
  counts_predecessors mg ->
  NoDup l -> (forall k, k ∈ l -> k ∈ dom (graph_attrs mg)) ->
  graph_attrs mg !! v = Some attr ->
  Z.of_nat (edges_into mg v l) <= num_predecessor attr
  /\ (num_predecessor attr <= Z.of_nat (edges_into mg v l) -> preds_done mg v l).
Proof.
  intros Hwf Hnd Hdom Hv. specialize (Hwf v attr Hv). simpl in Hwf.
  assert (Hsub : l ⊆+ elements (dom (graph_attrs mg))).
  { apply NoDup_submseteq; [done |]. intros k Hk. apply elem_of_elements. by apply Hdom. }
  apply submseteq_Permutation in Hsub as [others Hperm].
  assert (Hsplit : edges_into mg v (elements (dom (graph_attrs mg)))
                   = (edges_into mg v l + edges_into mg v others)%nat).
  { unfold edges_into. rewrite Hperm. apply sum_list_with_app. }
  split; [lia |]. intros Hge p Hp Hedge.
  apply elem_of_elements in Hp. rewrite Hperm in Hp.
  apply elem_of_app in Hp as [Hp | Hp]; [done |]. exfalso.
  pose proof (sum_list_with_in p
    (fun p => length (filter (fun x => x = v) (succs_of mg p))) others Hp) as Hterm.
  simpl in Hterm.
  assert (Hin : v ∈ filter (fun x => x = v) (succs_of mg p))
    by (by apply list_elem_of_filter).
  destruct (filter (fun x => x = v) (succs_of mg p)); [by inversion Hin |].
  unfold edges_into in *. simpl in Hterm. lia.
Qed.

Lemma preds_done_mono mg v l k : preds_done mg v l -> preds_done mg v (l ++ k).
Proof. intros Hd p Hp Hedge. apply elem_of_app. left. by apply Hd. Qed.

(** One node of the free set. *)
Lemma walk_inv_step mg order k rest call_order update_set attr :
  walk_inv mg order (k :: rest) call_order update_set ->
  graph_attrs mg !! k = Some attr ->
  walk_inv mg (order ++ [k]) rest
    (decrement_successors (successors attr) call_order update_set).1
    (decrement_successors (successors attr) call_order update_set).2.
Proof.
  intros [Hnd Hdom Hcount Hupd Hseen Horder Hpending Hzero] Hattr.
  assert (Hspec : forall v,
    count_at (decrement_successors (successors attr) call_order update_set).1 v
    = count_at call_order v
      - Z.of_nat (length (filter (fun x => x = v) (successors attr)))
    /\ (v ∈ (decrement_successors (successors attr) call_order update_set).2
        <-> v ∈ update_set
            \/ 1 <= count_at call_order v
               <= Z.of_nat (length (filter (fun x => x = v) (successors attr))))).
  { intros v.
    pose proof (decrement_successors_spec (successors attr) call_order update_set v) as Hs.
    simpl in Hs. by destruct (decrement_successors _ _ _). }
  assert (Hedges : forall v,
    edges_into mg v (order ++ [k])
    = (edges_into mg v order
       + length (filter (fun x => x = v) (successors attr)))%nat).
  { intros v. rewrite edges_into_app. unfold edges_into at 2, succs_of. simpl.
    rewrite Hattr. lia. }
  assert (Hsame : forall x, x ∈ (order ++ [k]) ++ rest <-> x ∈ order ++ k :: rest).
  { intros x. by rewrite <- app_assoc. }
  assert (Hnd' : NoDup (order ++ [k])).
  { apply NoDup_app in Hnd as (Hnd1 & Hdisj & Hnd2).
    apply NoDup_app. split; [done |]. split; [| apply NoDup_singleton].
    intros x Hx ->%list_elem_of_singleton. apply (Hdisj k Hx). left. }
  split.
  - by rewrite <- app_assoc.
  - intros x Hx%Hsame. by apply Hdom.
  - intros v. destruct (Hspec v) as [-> _]. rewrite Hcount, Hedges. lia.
  - intros v Hv. destruct (Hspec v) as [Hc Hu]. apply Hu in Hv as [Hv | Hnew].
    + destruct (Hupd v Hv) as (Hfresh & Hvdom & Hle & Hdone).
      split; [by rewrite Hsame |]. split; [done |]. split; [lia |].
      intros Hwf. by apply preds_done_mono, Hdone.
    + assert (Hfresh : v ∉ order ++ k :: rest).
      { intros Hin. specialize (Hseen v Hin). lia. }
      assert (Hinit : 1 <= count_at (initial_call_order mg) v).
      { specialize (Hcount v). lia. }
      rewrite count_at_initial in Hinit.
      destruct (graph_attrs mg !! v) as [attr_v |] eqn:Hattr_v; [| lia].
      split; [by rewrite Hsame |].
      split; [apply elem_of_dom; by rewrite Hattr_v |]. split; [lia |].
      intros Hwf.
      destruct (edges_into_bound mg v (order ++ [k]) attr_v Hwf Hnd') as [_ Hdone];
        [| done | ].
      * intros x Hx. apply Hdom. apply elem_of_app in Hx as [Hx | Hx%list_elem_of_singleton].
        -- apply elem_of_app. by left.
        -- subst. apply elem_of_app. right. left.
      * apply Hdone. rewrite Hedges. specialize (Hcount v).
        rewrite count_at_initial, Hattr_v in Hcount. lia.
  - intros x Hx%Hsame. destruct (Hspec x) as [-> _]. specialize (Hseen x Hx). lia.
  - intros Hwf i v Hi p Hp Hedge.
    destruct (decide (i < length order)%nat) as [Hlt | Hge].
    + rewrite lookup_app_l in Hi by done.
      destruct (Horder Hwf i v Hi p Hp Hedge) as (j & Hj & Hjp).
      exists j. split; [done |]. rewrite lookup_app_l by lia. done.
    + assert (i = length order) as ->.
      { apply lookup_lt_Some in Hi. rewrite length_app in Hi. simpl in Hi. lia. }
      rewrite lookup_app_r, Nat.sub_diag in Hi by lia. injection Hi as <-.
      assert (Hin : p ∈ order) by (apply (Hpending Hwf k); [left | done | done]).
      apply list_elem_of_lookup in Hin as [j Hj]. exists j.
      split; [by eapply lookup_lt_Some |]. by rewrite lookup_app_l by by eapply lookup_lt_Some.
  - intros Hwf v Hv. apply preds_done_mono, (Hpending Hwf). by right.
  - intros v Hv Hc. destruct (Hspec v) as [Hc' Hu]. rewrite Hsame, Hu.
    destruct (decide (count_at call_order v = 0)) as [Hz | Hnz].
    + destruct (Hzero v Hv Hz); auto.
    + right. right. lia.
Qed.

Lemma visit_free_spec mg pending order call_order update_set :
  walk_inv mg order pending call_order update_set ->
  exists call_order' update_set',
    visit_free mg pending order call_order update_set
    = Done (order ++ pending, call_order', update_set')
    /\ walk_inv mg (order ++ pending) [] call_order' update_set'.
Proof.
  revert order call_order update_set.
  induction pending as [| k rest IH]; intros order call_order update_set Hinv; simpl.
  - rewrite app_nil_r. by eexists _, _.
  - assert (is_Some (graph_attrs mg !! k)) as [attr Hattr].
    { apply elem_of_dom, (inv_dom _ _ _ _ _ Hinv), elem_of_app. right. left. }
    rewrite Hattr. pose proof (walk_inv_step _ _ _ _ _ _ _ Hinv Hattr) as Hstep.
    destruct (decrement_successors _ _ _) as [co' upd']. simpl in Hstep.
    destruct (IH _ _ _ Hstep) as (co'' & upd'' & Hrun & Hinv').
    rewrite <- app_assoc in Hrun, Hinv'. by eexists _, _.
Qed.

(** From one round of the [while] loop to the next. *)
Lemma walk_inv_next mg order call_order update_set :
  walk_inv mg order [] call_order update_set ->
  walk_inv mg order (visit update_set) call_order ∅.
Proof.
  intros [Hnd Hdom Hcount Hupd Hseen Horder Hpending Hzero].
  rewrite app_nil_r in Hnd.
  assert (Hold : forall x, x ∈ order -> x ∈ order ++ [])
    by (intros x Hx; by rewrite app_nil_r).
  split.
  - apply NoDup_app. split; [done |]. split; [| apply visit_NoDup].
    intros x Hx Hv%visit_elem_of. destruct (Hupd x Hv) as (Hfresh & _). auto.
  - intros x [Hx | Hx%visit_elem_of]%elem_of_app; [auto |].
    by destruct (Hupd x Hx) as (_ & ? & _).
  - done.
  - intros v Hv. by apply not_elem_of_empty in Hv.
  - intros x [Hx | Hx%visit_elem_of]%elem_of_app; [auto |].
    by destruct (Hupd x Hx) as (_ & _ & ? & _).
  - done.
  - intros Hwf v Hv%visit_elem_of. destruct (Hupd v Hv) as (_ & _ & _ & Hdone). auto.
  - intros v Hv Hc. left. rewrite elem_of_app, visit_elem_of.
    destruct (Hzero v Hv Hc) as [Hin | Hin]; [| by right].
    left. by rewrite app_nil_r in Hin.
Qed.

Lemma initial_free_set_spec mg k :
  k ∈ initial_free_set mg
  <-> exists attr, graph_attrs mg !! k = Some attr /\ num_predecessor attr = 0.
Proof.
  unfold initial_free_set. rewrite elem_of_dom. unfold is_Some.
  setoid_rewrite map_lookup_filter_Some. simpl. naive_solver.
Qed.

Lemma walk_inv_initial mg :
  walk_inv mg [] (visit (initial_free_set mg)) (initial_call_order mg) ∅.
Proof.
  split; simpl.
  - apply visit_NoDup.
  - intros k (attr & Hattr & _)%visit_elem_of%initial_free_set_spec.
    apply elem_of_dom. by rewrite Hattr.
  - intros v. unfold edges_into. simpl. lia.
  - intros v Hv. by apply not_elem_of_empty in Hv.
  - intros k (attr & Hattr & Hzero)%visit_elem_of%initial_free_set_spec.
    rewrite count_at_initial, Hattr. lia.
  - intros Hwf i v Hi. by rewrite lookup_nil in Hi.
  - intros Hwf v (attr & Hattr & Hzero)%visit_elem_of%initial_free_set_spec.
    destruct (edges_into_bound mg v [] attr Hwf) as [_ Hdone];
      [apply NoDup_nil_2 | by intros k Hk; inversion Hk | done |].
    apply Hdone. rewrite Hzero. unfold edges_into. simpl. lia.
  - intros v Hv Hc. left. apply visit_elem_of, initial_free_set_spec.
    rewrite count_at_initial in Hc. apply elem_of_dom in Hv as [attr Hattr].
    rewrite Hattr in Hc. eauto.
Qed.

Lemma order_loop_sound fuel mg free_set order call_order final :
  walk_inv mg order (visit free_set) call_order ∅ ->
  order_loop visit fuel mg free_set order call_order = Done final ->
  (exists call_order', walk_inv mg final [] call_order' ∅)
  /\ (forall k, k ∈ order ++ visit free_set -> k ∈ final).
Proof.
  revert free_set order call_order.
  induction fuel as [| fuel IH]; intros free_set order call_order Hinv; simpl;
    (destruct (decide (free_set = ∅)) as [-> | Hne];
     [ assert (visit (∅ : gset Z) = []) as Hnil
         by (apply Permutation_nil_r; by rewrite visit_perm, elements_empty);
       rewrite Hnil in *; intros [= <-]; split; [by eexists |];
       intros k Hk; by rewrite app_nil_r in Hk
     | ]); [done |].
  destruct (visit_free_spec _ _ _ _ _ Hinv) as (co' & upd' & Hrun & Hinv').
  rewrite Hrun. simpl. intros Hloop.
  apply walk_inv_next in Hinv'.
  destruct (IH _ _ _ Hinv' Hloop) as (Hfinal & Hin).
  split; [done |]. intros k Hk. apply Hin, elem_of_app. by left.
Qed.

(** With right counts and no cycle, a walk that has nothing left to visit
    has listed every node. *)
Lemma walk_complete mg order call_order :
  counts_predecessors mg -> acyclic mg ->
  walk_inv mg order [] call_order ∅ ->
  forall v, v ∈ dom (graph_attrs mg) -> v ∈ order.
Proof.
  intros Hwf [rank Hrank] Hinv.
  assert (Hstrong : forall n v, (rank v < n)%nat -> v ∈ dom (graph_attrs mg) -> v ∈ order).
  { induction n as [| n IH]; intros v Hn Hv; [lia |].
    assert (Hready : preds_done mg v order).
    { intros p Hp Hedge. apply (IH p); [| done]. specialize (Hrank p v Hp Hedge). lia. }
    destruct (inv_zero _ _ _ _ _ Hinv v Hv) as [Hin | Hin].
    - rewrite (inv_count _ _ _ _ _ Hinv), count_at_initial.
      pose proof Hv as [attr Hattr]%elem_of_dom. rewrite Hattr.
      pose proof (Hwf v attr Hattr) as Hnum. simpl in Hnum. rewrite Hnum.
      assert (Hnd : NoDup order).
      { pose proof (inv_nodup _ _ _ _ _ Hinv) as Hnd. by rewrite app_nil_r in Hnd. }
      assert (Hsub : order ⊆+ elements (dom (graph_attrs mg))).
      { apply NoDup_submseteq; [done |]. intros k Hk. apply elem_of_elements.
        apply (inv_dom _ _ _ _ _ Hinv). by rewrite app_nil_r. }
      apply submseteq_Permutation in Hsub as [others Hperm].
      assert (Hall : edges_into mg v (elements (dom (graph_attrs mg)))
                     = (edges_into mg v order + edges_into mg v others)%nat).
      { unfold edges_into. rewrite Hperm. apply sum_list_with_app. }
      assert (Hnone : edges_into mg v others = 0%nat).
      { assert (Hdisj : forall p, p ∈ others -> p ∉ order).
        { intros p Hp Hin.
          pose proof (NoDup_elements (dom (graph_attrs mg))) as Hnd'.
          rewrite Hperm in Hnd'. apply NoDup_app in Hnd' as (_ & Hd & _).
          by apply (Hd p). }
        assert (Hothers : forall p, p ∈ others -> p ∈ dom (graph_attrs mg)).
        { intros p Hp. apply elem_of_elements. rewrite Hperm.
          apply elem_of_app. by right. }
        clear Hperm Hall. unfold edges_into.
        induction others as [| p others IHo]; [done |]. simpl.
        rewrite IHo by (intros; first [apply Hdisj; by right | apply Hothers; by right]).
        assert (Hp : filter (fun x => x = v) (succs_of mg p) = []).
        { destruct (filter (fun x => x = v) (succs_of mg p)) as [| x l] eqn:Hf; [done |].
          exfalso. assert (Hx : x ∈ filter (fun x => x = v) (succs_of mg p))
            by (rewrite Hf; left).
          apply list_elem_of_filter in Hx as [-> Hedge].
          apply (Hdisj p); [left |]. apply Hready; [apply Hothers; left | done]. }
        by rewrite Hp. }
      lia.
    - by rewrite app_nil_r in Hin.
    - by apply not_elem_of_empty in Hin. }
  intros v Hv. by apply (Hstrong (S (rank v))); [lia |].
Qed.

Lemma order_loop_returns fuel mg free_set order call_order :
  walk_inv mg order (visit free_set) call_order ∅ ->
  (size (graph_attrs mg) <= length order + fuel)%nat ->
  exists final, order_loop visit fuel mg free_set order call_order = Done final.
Proof.
  revert free_set order call_order.
  induction fuel as [| fuel IH]; intros free_set order call_order Hinv Hsize; simpl;
    (destruct (decide (free_set = ∅)) as [-> | Hne]; [by eexists |]).
  - exfalso.
    assert (Hlen : (length (order ++ visit free_set) <= size (graph_attrs mg))%nat).
    { rewrite <- size_dom. apply submseteq_length, NoDup_submseteq.
      - apply (inv_nodup _ _ _ _ _ Hinv).
      - intros k Hk. apply elem_of_elements, (inv_dom _ _ _ _ _ Hinv k Hk). }
    rewrite length_app, (Permutation_length (visit_perm free_set)) in Hlen.
    assert (size free_set <> 0%nat) by (by intros ?%size_empty_inv%leibniz_equiv).
    unfold size, set_size in *. simpl in *. lia.
  - destruct (visit_free_spec _ _ _ _ _ Hinv) as (co' & upd' & Hrun & Hinv').
    rewrite Hrun. simpl. apply walk_inv_next in Hinv'. apply IH; [done |].
    rewrite length_app, (Permutation_length (visit_perm free_set)).
    assert (size free_set <> 0%nat) by (by intros ?%size_empty_inv%leibniz_equiv).
    unfold size, set_size in *. simpl in *. lia.
Qed.

(** X25: [add_task] always finds a call order.  Whatever the graph and
    the order in which the free sets are visited, the [while] loop is over
    after at most as many rounds as the graph has nodes; the order lists no
    node twice, only nodes of the graph, and every node whose
    [num_predecessor] is 0.  The task gets the next id and the tables of
    the other tasks are kept. *)
Theorem X25_add_task_finds_a_call_order
    (fuel : nat) (mg : TIRMultiGraph) (s : Session) (t : TaskTable) :
  task_count t <> INT_MAX ->
  (size (graph_attrs mg) <= fuel)%nat ->
  exists order,
    add_task visit fuel mg s t
    = Done (task_count t,
            set_task_cache (<[task_count t := mg]> (task_cache s)) s,
            {| task_count := task_count t + 1;
               static_call_order := <[task_count t := order]> (static_call_order t) |})
    /\ NoDup order
    /\ (forall k, k ∈ order -> k ∈ dom (graph_attrs mg))
    /\ (forall k attr, graph_attrs mg !! k = Some attr -> num_predecessor attr = 0 ->
          k ∈ order).
Proof.
  intros Hmax Hfuel. unfold add_task, static_order.
  replace (task_count t =? INT_MAX) with false by (symmetry; by apply Z.eqb_neq).
  pose proof (walk_inv_initial mg) as Hinv.
  destruct (order_loop_returns fuel mg _ _ _ Hinv) as [order Hrun]; [simpl; lia |].
  destruct (order_loop_sound _ _ _ _ _ _ Hinv Hrun) as ([co Hfinal] & Hin).
  destruct Hfinal as [Hnd Hdom _ _ _ _ _ _]. rewrite app_nil_r in Hnd.
  exists order. rewrite Hrun. simpl. repeat split; try done.
  - intros k Hk. apply Hdom. by rewrite app_nil_r.
  - intros k attr Hattr Hzero. apply Hin. simpl.
    apply visit_elem_of, initial_free_set_spec. eauto.
Qed.

(** X26: the static call order is a topological order.  In a graph whose
    [num_predecessor] fields count the edges into each node, every node
    of the order comes after all the nodes that have it as a successor. *)
Theorem X26_call_order_runs_predecessors_first
    (fuel : nat) (mg : TIRMultiGraph) (order : list Z) (i : nat) (v p : Z) :
  counts_predecessors mg ->
  static_order visit fuel mg = Done order ->
  order !! i = Some v ->
  p ∈ dom (graph_attrs mg) ->
  v ∈ succs_of mg p ->
  exists j, (j < i)%nat /\ order !! j = Some p.
Proof.
  intros Hwf Hrun Hi Hp Hedge.
  destruct (order_loop_sound _ _ _ _ _ _ (walk_inv_initial mg) Hrun)
    as ([co Hfinal] & _).
  by apply (inv_order _ _ _ _ _ Hfinal Hwf i v Hi p Hp Hedge).
Qed.

(** X27: on a graph without cycles whose [num_predecessor] fields count
    the edges into each node, the static call order lists every node of
    the graph exactly once. *)
Theorem X27_call_order_lists_every_node_once
    (fuel : nat) (mg : TIRMultiGraph) (order : list Z) :
  counts_predecessors mg ->
  acyclic mg ->
  static_order visit fuel mg = Done order ->
  order ≡ₚ elements (dom (graph_attrs mg)).
Proof.
  intros Hwf Hacyclic Hrun.
  destruct (order_loop_sound _ _ _ _ _ _ (walk_inv_initial mg) Hrun)
    as ([co Hfinal] & _).
  pose proof (walk_complete _ _ _ Hwf Hacyclic Hfinal) as Hall.
  destruct Hfinal as [Hnd Hdom _ _ _ _ _ _]. rewrite app_nil_r in Hnd.
  apply NoDup_Permutation; [done | apply NoDup_elements |].
  intros k. rewrite elem_of_elements. split; [| apply Hall].
  intros Hk. apply Hdom. by rewrite app_nil_r.
Qed.
End CallOrderFacts.

(** ** One visit of the build worker *)

Section BuildFacts.
Context `{Collaborators}.
Import Search Driver.

Lemma built_push_prefix (bf : gmap Z (list BuiltFunction)) key x k :
  queue_at bf k `prefix_of` queue_at (<[key := queue_at bf key ++ [x]]> bf) k.
Proof.
  destruct (decide (key = k)) as [<- | Hne].
  - rewrite queue_at_insert_eq. by apply prefix_app_r.
  - by rewrite queue_at_insert_ne.
Qed.

(** What the emergency branch changes. *)
Lemma emergency_build_effect s :
  best_functions (emergency_build s) = best_functions s
  /\ auto_scheduler (emergency_build s) = auto_scheduler s
  /\ emergency_schedule_queue (emergency_build s) = emergency_schedule_queue s
  /\ future_functions (emergency_build s) = future_functions s
  /\ finish (emergency_build s) = finish s
  /\ (forall k, queue_at (built_functions s) k
                `prefix_of` queue_at (built_functions (emergency_build s)) k)
  /\ (emergency_build_queue (emergency_build s) = emergency_build_queue s
      \/ emergency_build_queue (emergency_build s) = tail (emergency_build_queue s)).
Proof.
  unfold emergency_build.
  destruct (emergency_build_queue s) as [| key rest] eqn:Hq.
  { rewrite Hq. split_and!; try done. by left. }
  destruct (queue_at (future_functions s) key) as [| [sch [md |]] more].
  - rewrite Hq. split_and!; try done. by left.
  - split_and!; try done.
    + intros k. simpl. apply built_push_prefix.
    + by right.
  - rewrite Hq. split_and!; try done. by left.
Qed.

(** What the regular branch changes. *)
Lemma build_proceed_effect mg allow_missing cand subgraph s w s' w' :
  build_proceed mg allow_missing cand subgraph s w = Done (s', w') ->
  best_functions s' = best_functions s
  /\ auto_scheduler s' = auto_scheduler s
  /\ emergency_schedule_queue s' = emergency_schedule_queue s
  /\ emergency_build_queue s' = emergency_build_queue s
  /\ (forall k, queue_at (built_functions s) k `prefix_of` queue_at (built_functions s') k)
  /\ (forall k, k <> cand ->
        queue_at (future_functions s') k = queue_at (future_functions s) k)
  /\ (queue_at (future_functions s') cand = queue_at (future_functions s) cand
      \/ queue_at (future_functions s') cand
         = tail (queue_at (future_functions s) cand)).
Proof.
  unfold build_proceed.
  destruct (queue_at (future_functions s) cand) as [| [sch future_mod] rest] eqn:Hq.
  { destruct allow_missing.
    - destruct (build_advance mg cand false None w); simpl; [| done].
      intros [= <- _]. split_and!; try done. by left.
    - intros [= <- _]. split_and!; try done. by left. }
  assert (Hfuture : forall k, k <> cand ->
            queue_at (<[cand := rest]> (future_functions s)) k
            = queue_at (future_functions s) k)
    by (intros k Hk; by rewrite queue_at_insert_ne).
  destruct future_mod as [md |].
  - destruct (1000 <? _).
    + destruct (build_advance mg cand true _ w); simpl; [| done].
      intros [= <- _]. simpl. split_and!; try done.
      right. by rewrite queue_at_insert_eq.
    + destruct (build_advance mg cand true _ w); simpl; [| done].
      intros [= <- _]. simpl. split_and!; try done.
      * intros k. apply built_push_prefix.
      * right. by rewrite queue_at_insert_eq.
  - destruct allow_missing.
    + destruct (build_advance mg cand false None w); simpl; [| done].
      intros [= <- _]. simpl. split_and!; try done.
      right. by rewrite queue_at_insert_eq.
    + intros [= <- _]. simpl. split_and!; try done.
      right. by rewrite queue_at_insert_eq.
Qed.

(** X29: the queues around one visit of the build worker.  A visit that
    returns removes no built artifact: every [built_functions] queue is
    extended at its back or left alone.  It takes at most the head of the
    futures of the node visited and at most the head of the emergency
    build queue, and it leaves the best records, the search state and the
    emergency schedule queue as they were. *)
Theorem X29_build_visit_only_adds_artifacts
    (task_id : Z) (mg : TIRMultiGraph) (allow_missing : bool) (cand : Z)
    (s s' : Session) (w w' : BuildWalk) :
  build_node task_id mg allow_missing cand s w = Done (Some (s', w')) ->
  (forall k, queue_at (built_functions s) k `prefix_of` queue_at (built_functions s') k)
  /\ (forall k, k <> cand ->
        queue_at (future_functions s') k = queue_at (future_functions s) k)
  /\ (queue_at (future_functions s') cand = queue_at (future_functions s) cand
      \/ queue_at (future_functions s') cand
         = tail (queue_at (future_functions s) cand))
  /\ (emergency_build_queue s' = emergency_build_queue s
      \/ emergency_build_queue s' = tail (emergency_build_queue s))
  /\ best_functions s' = best_functions s
  /\ auto_scheduler s' = auto_scheduler s
  /\ emergency_schedule_queue s' = emergency_schedule_queue s.
Proof.
  unfold build_node.
  destruct (flag_at (finish s) task_id); [done |].
  destruct (emergency_build_effect s) as (Hbest & Hsched & Hesq & Hfut & _ & Hbuilt & Hebq).
  destruct (graphs mg !! cand) as [subgraph |]; [| done].
  destruct (decide (tag subgraph ∈ built w)) as [Hin | Hnew].
  - destruct (build_advance mg cand true None w); simpl; [| done].
    intros [= <- _]. rewrite Hfut. split_and!; try done. by left.
  - destruct (build_proceed mg allow_missing cand subgraph (emergency_build s) w)
      as [[s2 w2] |] eqn:Hrun; simpl; [| done].
    intros [= <- _].
    apply build_proceed_effect in Hrun
      as (Hbest2 & Hsched2 & Hesq2 & Hebq2 & Hbuilt2 & Hothers & Hhead).
    rewrite Hfut in Hothers, Hhead. rewrite Hebq2.
    split_and!; try congruence; try done.
    intros k. etrans; [apply Hbuilt | apply Hbuilt2].
Qed.
End BuildFacts.

(** ** When [run] may be called *)

Section RunFacts.
Context `{Collaborators}.
Import Search Driver Running.

Lemma load_reference_task_cache mg lines s cache s' cache' :
  load_reference mg lines s cache = Done (s', cache') ->
  task_cache s' = task_cache s.
Proof.
  revert s cache. induction lines as [| parts rest IH]; intros s cache; simpl.
  { by intros [= <- _]. }
  destruct (load_reference_line mg parts s cache) as [[s1 cache1] |] eqn:Hline;
    simpl; [| done].
  intros Hrest. rewrite (IH _ _ Hrest). clear Hrest IH.
  unfold load_reference_line in Hline.
  destruct parts as [| part0 [| part1 more]]; try done.
  destruct (stoi part0) as [key |]; [| done].
  destruct (graphs mg !! key) as [subgraph |]; [| done].
  destruct (schedule_with_entity _ _ _ _ _) as [[sr a] |]; simpl in Hline; [| done].
  destruct (build_func _ _ _ _) as [module |]; [| done].
  by injection Hline as <- _.
Qed.

Lemma alias_missing_task_cache all cache s s' :
  alias_missing all cache s = Done s' ->
  task_cache s' = task_cache s /\ in_tuning s' = in_tuning s.
Proof.
  revert s. induction all as [| [key g] rest IH]; intros s; simpl.
  { by intros [= <-]. }
  destruct (queue_at (best_functions s) key) as [| b bs]; [| apply IH].
  destruct (cache !! tag g) as [from |]; [| done].
  destruct (queue_at (best_functions s) from) as [| best others]; [done |].
  intros Hrest. by apply IH in Hrest as [-> ->].
Qed.

(** What [prepare_for_test] leaves for [run]. *)
Lemma prepare_for_test_ready task_id reference s s' :
  prepare_for_test task_id reference s = Done s' ->
  task_cache s' = task_cache s
  /\ is_Some (task_cache s !! task_id)
  /\ is_cached s' task_id = true.
Proof.
  unfold prepare_for_test.
  destruct (task_cache s !! task_id) as [mg |]; [| done].
  destruct (read_reference reference) as [lines |]; [| done].
  destruct (load_reference mg lines s ∅) as [[s1 cache] |] eqn:Hload; simpl; [| done].
  destruct (alias_missing _ cache s1) as [s2 |] eqn:Halias; simpl; [| done].
  intros [= <-].
  apply load_reference_task_cache in Hload.
  apply alias_missing_task_cache in Halias as [Htc _].
  split; [simpl; congruence |]. split; [by eexists |].
  unfold is_cached. simpl. by rewrite lookup_insert_eq.
Qed.

(** X28: [run] may be called for a task as soon as [prepare_for_test],
    [begin_tuning] or [end_tuning] has returned for it: the task is then
    cached or in tuning, and the checks that [run] makes before it executes
    anything pass. *)
Theorem X28_run_is_ready_after_setup (task_id : Z) (s s' : Session) :
  (exists reference, prepare_for_test task_id reference s = Done s')
  \/ (exists advance_number reference first_stage_number ratio,
        begin_tuning task_id advance_number reference first_stage_number ratio s
        = Done s')
  \/ (is_Some (task_cache s !! task_id) /\ end_tuning task_id s = Done s') ->
  run_ready task_id s' = Done tt.
Proof.
  unfold run_ready.
  intros [[reference Hrun] | [(a & reference & f & q & Hrun) | [[mg Hmg] Hrun]]].
  - apply prepare_for_test_ready in Hrun as (-> & [mg ->] & ->). done.
  - unfold begin_tuning in Hrun.
    destruct (task_cache s !! task_id) as [mg |] eqn:Hmg; [| done].
    destruct (decide (reference = "")) as [-> | Hne]; simpl in Hrun.
    + injection Hrun as <-. simpl. rewrite Hmg.
      unfold flag_at at 1. simpl. rewrite lookup_insert_eq. simpl.
      by destruct (is_cached _ _).
    + destruct (prepare_for_test _ _ _) as [s1 |] eqn:Hprep; simpl in Hrun; [| done].
      injection Hrun as <-.
      apply prepare_for_test_ready in Hprep as (Htc & _ & _).
      simpl in *. rewrite Htc, Hmg.
      unfold flag_at at 1. simpl. rewrite lookup_insert_eq. simpl.
      by destruct (is_cached _ _).
  - unfold end_tuning in Hrun.
    destruct (is_cached s task_id) eqn:Hcached; [| done].
    simpl in Hrun.
    destruct (end_thread task_id (sch_threads s)) as [sch |]; simpl in Hrun; [| done].
    destruct (end_thread task_id (build_threads s)) as [build |]; simpl in Hrun; [| done].
    destruct (end_thread task_id (evaluate_threads s)) as [eval |]; simpl in Hrun;
      [| done].
    injection Hrun as <-. simpl. rewrite Hmg.
    unfold is_cached in *. simpl. by rewrite Hcached.
Qed.
End RunFacts.

(** ** The further properties on the sample runs *)

Section FurtherRuns.
Import Search Driver Sample SearchUse RegistryUse Execute Tasks Running Reference Cases.

(** A rank under which every edge of the graph goes upwards shows that
    the graph has no cycle. *)
Lemma acyclic_by_rank (mg : TIRMultiGraph) (rank : Z -> nat) :
  map_Forall (fun p attr => Forall (fun v => (rank p < rank v)%nat) (successors attr))
    (graph_attrs mg) ->
  acyclic mg.
Proof.
  intros Hrank. exists rank. intros p v _ Hv. unfold succs_of in Hv.
  destruct (graph_attrs mg !! p) as [attr |] eqn:Hattr; [| by apply elem_of_nil in Hv].
  specialize (Hrank p attr Hattr). simpl in Hrank.
  rewrite Forall_forall in Hrank. by apply Hrank.
Qed.

(** A decidable proposition about the sample data is settled by
    evaluating its decision procedure. *)
Ltac decided :=
  match goal with
  | |- ?P => apply (bool_decide_unpack P); vm_compute; exact I
  end.

(** The feedback of "b" with score 7 on [full_context]. *)
Lemma X3_add_feedback_rotates_seen_sets_witness :
  (size (knowing_schedules full_context) <= 500)%nat
  /\ add_feedback (result_of "b") 7 full_context = Done fed_context
  /\ (size (knowing_schedules fed_context) <= 500)%nat
  /\ (fed_context = full_context
      \/ (knowing_schedules fed_context
          = {[ schedule_entities (result_of "b") ]} ∪ knowing_schedules full_context
          /\ known_schedules fed_context = known_schedules full_context)
      \/ (knowing_schedules fed_context = ∅
          /\ known_schedules fed_context
             = {[ schedule_entities (result_of "b") ]} ∪ knowing_schedules full_context
          /\ size (known_schedules fed_context) = 501%nat)).
Proof.
  assert (H1 : (size (knowing_schedules full_context) <= 500)%nat) by (vm_compute; lia).
  assert (H2 : add_feedback (result_of "b") 7 full_context = Done fed_context)
    by (vm_compute; reflexivity).
  exact (conj H1 (conj H2
           (@X3_add_feedback_rotates_seen_sets world
              (result_of "b") 7 full_context fed_context H1 H2))).
Defined.

(** The feedback of "b" with score 0 on [full_context]. *)
Lemma X4_non_positive_score_is_only_remembered_witness :
  (0 <= 0)%Q
  /\ exists self',
       add_feedback (result_of "b") 0 full_context = Done self'
       /\ topk_schedules self' = topk_schedules full_context
       /\ counts self' = counts full_context
       /\ schedule_entities (result_of "b")
          ∈ knowing_schedules self' ∪ known_schedules self'.
Proof.
  assert (H1 : (0 <= 0)%Q) by (unfold Qle; simpl; lia).
  exact (conj H1
           (@X4_non_positive_score_is_only_remembered world
              (result_of "b") 0 full_context H1)).
Defined.

(** The batch selected from [full_context], which has seen nothing. *)
Lemma X5_batch_holds_up_to_twice_new_trial_witness :
  select_candidates 2 full_context 0 = Done (selected.1.1, selected.1.2, selected.2)
  /\ (1 <= length selected.1.2 <= 2 * Z.to_nat (new_trial full_context))%nat
  /\ (known_schedules full_context = ∅ -> knowing_schedules full_context = ∅ ->
      length selected.1.2 = (2 * Z.to_nat (new_trial full_context))%nat).
Proof.
  assert (H1 : select_candidates 2 full_context 0
               = Done (selected.1.1, selected.1.2, selected.2))
    by (vm_compute; reflexivity).
  exact (conj H1
           (@X5_batch_holds_up_to_twice_new_trial world
              2%nat full_context selected.1.1 0%nat selected.2 selected.1.2 H1)).
Defined.

(** A context with [new_trial = 0]. *)
Lemma X6_search_step_spins_without_trials_witness :
  new_trial no_trial_context <= 0
  /\ select_candidates 2 no_trial_context 0 = Fails OutOfFuel
  /\ auto_schedule 2 "conv" no_trial_context 0 = Fails OutOfFuel.
Proof.
  assert (H1 : new_trial no_trial_context <= 0) by (simpl; lia).
  exact (conj H1
           (@X6_search_step_spins_without_trials world
              2%nat "conv" no_trial_context 0%nat H1)).
Defined.

(** The search step from [full_context]. *)
Lemma X7_search_step_returns_first_best_candidate_witness :
  auto_schedule 2 "conv" full_context 0 = Done (stepped.1.1, stepped.1.2, stepped.2)
  /\ exists ctx1 cands rng1 schedules judges (i : nat) (v : Q),
       select_candidates 2 full_context 0 = Done (ctx1, cands, rng1)
       /\ interpret_all "conv" (graph_tensors "conv") (target ctx1) cands = Done schedules
       /\ judge_schedule schedules (graph_tensors "conv") (target ctx1) 1%Q
            (policy ctx1) rng1
          = Done (judges, stepped.2)
       /\ cands !! i = Some (schedule_entities stepped.1.1)
       /\ judges !! i = Some v
       /\ (-1 < v)%Q
       /\ (forall j w, (j < length cands)%nat -> judges !! j = Some w -> (w <= v)%Q)
       /\ (forall j w, (j < i)%nat -> judges !! j = Some w -> (w < v)%Q).
Proof.
  assert (H1 : auto_schedule 2 "conv" full_context 0
               = Done (stepped.1.1, stepped.1.2, stepped.2))
    by (vm_compute; reflexivity).
  exact (conj H1
           (@X7_search_step_returns_first_best_candidate world
              2%nat "conv" full_context stepped.1.2 0%nat stepped.2 stepped.1.1 H1)).
Defined.

(** The search step from [full_context], whose policy is "random". *)
Lemma X8_search_step_without_profile_empties_top_k_witness :
  policy full_context <> "profile"
  /\ auto_schedule 2 "conv" full_context 0 = Done (stepped.1.1, stepped.1.2, stepped.2)
  /\ stepped.1.2
     = with_counts (counts full_context + 1)
         (with_memory [] (known_schedules full_context)
            (knowing_schedules full_context) full_context).
Proof.
  assert (H1 : policy full_context <> "profile")
    by decided.
  assert (H2 : auto_schedule 2 "conv" full_context 0
               = Done (stepped.1.1, stepped.1.2, stepped.2))
    by (vm_compute; reflexivity).
  exact (conj H1 (conj H2
           (@X8_search_step_without_profile_empties_top_k world
              2%nat "conv" full_context stepped.1.2 0%nat stepped.2 stepped.1.1 H1 H2))).
Defined.

(** A search job and a feedback on a scheduler without contexts. *)
Lemma X9_top_k_stays_bounded_in_every_reachable_state_witness :
  contexts (scheduler_with ∅ []) = ∅
  /\ 0 <= as_topk (scheduler_with ∅ [])
  /\ serve_all requests (scheduler_with ∅ []) = Done served
  /\ contexts served !! 0 = Some served_context
  /\ Z.of_nat (length (topk_schedules served_context)) <= as_topk (scheduler_with ∅ [])
  /\ Forall (fun e => (0 < evaluation e)%Q) (topk_schedules served_context)
  /\ heap_ordered (topk_schedules served_context).
Proof.
  assert (H1 : contexts (scheduler_with ∅ []) = ∅) by reflexivity.
  assert (H2 : 0 <= as_topk (scheduler_with ∅ [])) by (simpl; lia).
  assert (H3 : serve_all requests (scheduler_with ∅ []) = Done served)
    by (vm_compute; reflexivity).
  assert (H4 : contexts served !! 0 = Some served_context) by (vm_compute; reflexivity).
  exact (conj H1 (conj H2 (conj H3 (conj H4
           (@X9_top_k_stays_bounded_in_every_reachable_state world
              requests (scheduler_with ∅ []) served 0 served_context H1 H2 H3 H4))))).
Defined.

(** A search job for key 0 on [scheduler_full]. *)
Lemma X10_search_job_touches_its_key_only_witness :
  schedule_func 2 0 "conv" "llvm" scheduler_full 0
  = Done (searched.1.1, searched.1.2, searched.2)
  /\ (exists c',
        contexts searched.1.2 !! 0 = Some c'
        /\ counts c' = match contexts scheduler_full !! 0 with
                       | Some c => counts c + 1
                       | None => 1
                       end)
  /\ (forall k, k <> 0 -> contexts searched.1.2 !! k = contexts scheduler_full !! k)
  /\ thread_pool searched.1.2 = thread_pool scheduler_full
  /\ as_topk searched.1.2 = as_topk scheduler_full
  /\ as_new_trial searched.1.2 = as_new_trial scheduler_full
  /\ as_policy searched.1.2 = as_policy scheduler_full.
Proof.
  assert (H1 : schedule_func 2 0 "conv" "llvm" scheduler_full 0
               = Done (searched.1.1, searched.1.2, searched.2))
    by (vm_compute; reflexivity).
  exact (conj H1
           (@X10_search_job_touches_its_key_only world
              2%nat 0 "conv" "llvm" scheduler_full searched.1.2 0%nat searched.2
              searched.1.1 H1)).
Defined.

(** Key 0 heads the emergency build queue and its future is ready. *)
Lemma X11_emergency_build_is_pushed_twice_witness :
  flag_at (finish session_emergency) 0 = false
  /\ emergency_build_queue session_emergency = [0]
  /\ queue_at (future_functions session_emergency) 0 = [(result_of "b", Some 2)]
  /\ graphs chain !! 0 = Some "conv"
  /\ (tag "conv" ∉ built build_walk0)
  /\ graph_attrs chain !! 0 = Some {| num_predecessor := 0; successors := [1] |}
  /\ (length (queue_at (built_functions session_emergency) 0) < 1000)%nat
  /\ exists s' w',
       build_node 0 chain false 0 session_emergency build_walk0 = Done (Some (s', w'))
       /\ queue_at (built_functions s') 0
          = queue_at (built_functions session_emergency) 0
            ++ [(result_of "b", 2, get_function 2 0); (result_of "b", 2, get_function 2 0)]
       /\ queue_at (future_functions s') 0 = []
       /\ emergency_build_queue s' = []
       /\ build_count w' = build_count build_walk0 + 1.
Proof.
  assert (H1 : flag_at (finish session_emergency) 0 = false) by (vm_compute; reflexivity).
  assert (H2 : emergency_build_queue session_emergency = [0]) by reflexivity.
  assert (H3 : queue_at (future_functions session_emergency) 0
               = [(result_of "b", Some 2)]) by (vm_compute; reflexivity).
  assert (H4 : graphs chain !! 0 = Some "conv") by (vm_compute; reflexivity).
  assert (H5 : tag "conv" ∉ built build_walk0)
    by decided.
  assert (H6 : graph_attrs chain !! 0
               = Some {| num_predecessor := 0; successors := [1] |})
    by (vm_compute; reflexivity).
  assert (H7 : (length (queue_at (built_functions session_emergency) 0) < 1000)%nat)
    by (vm_compute; lia).
  exact (conj H1 (conj H2 (conj H3 (conj H4 (conj H5 (conj H6 (conj H7
           (@X11_emergency_build_is_pushed_twice world
              0 chain false 0 session_emergency build_walk0 [] (result_of "b") 2 []
              "conv" {| num_predecessor := 0; successors := [1] |}
              H1 H2 H3 H4 H5 H6 H7)))))))).
Defined.

(** The evaluation of key 0 of [session_alias], seen from slot 0. *)
Lemma X12_evaluate_keeps_best_slots_filled_witness :
  evaluate_helper chain false 0 session_alias evaluate_walk0
  = Done (evaluated0.1, evaluated0.2)
  /\ (queue_at (best_functions session_alias) 0 <> [] ->
      queue_at (best_functions evaluated0.1) 0 <> [])
  /\ ((length (queue_at (best_functions session_alias) 0) <= 1)%nat ->
      (length (queue_at (best_functions evaluated0.1) 0) <= 1)%nat).
Proof.
  assert (H1 : evaluate_helper chain false 0 session_alias evaluate_walk0
               = Done (evaluated0.1, evaluated0.2)) by (vm_compute; reflexivity).
  exact (conj H1
           (@X12_evaluate_keeps_best_slots_filled world
              chain false 0 session_alias evaluated0.1 evaluate_walk0 evaluated0.2 0 H1)).
Defined.

(** The evaluation of key 0 of [session_alias] and its queues. *)
Lemma X13_evaluate_takes_the_head_artifact_witness :
  evaluate_helper chain false 0 session_alias evaluate_walk0
  = Done (evaluated0.1, evaluated0.2)
  /\ queue_at (built_functions evaluated0.1) 0
     = tail (queue_at (built_functions session_alias) 0)
  /\ (forall k, k <> 0 ->
        queue_at (built_functions evaluated0.1) k
        = queue_at (built_functions session_alias) k)
  /\ future_functions evaluated0.1 = future_functions session_alias
  /\ emergency_build_queue evaluated0.1 = emergency_build_queue session_alias
  /\ (emergency_schedule_queue evaluated0.1 = emergency_schedule_queue session_alias
      \/ (emergency_schedule_queue evaluated0.1
          = emergency_schedule_queue session_alias ++ [0]
          /\ queue_at (best_functions evaluated0.1) 0 = []
          /\ queue_at (built_functions session_alias) 0 <> [])).
Proof.
  assert (H1 : evaluate_helper chain false 0 session_alias evaluate_walk0
               = Done (evaluated0.1, evaluated0.2)) by (vm_compute; reflexivity).
  exact (conj H1
           (@X13_evaluate_takes_the_head_artifact world
              chain false 0 session_alias evaluated0.1 evaluate_walk0 evaluated0.2 H1)).
Defined.

(** The evaluation of key 0 of [session_alias] and the delete set. *)
Lemma X14_evaluate_advances_only_with_a_best_record_witness :
  evaluate_helper chain false 0 session_alias evaluate_walk0
  = Done (evaluated0.1, evaluated0.2)
  /\ (evaluate_delete_set evaluated0.2 = evaluate_delete_set evaluate_walk0
      \/ (evaluate_delete_set evaluated0.2 = {[ 0 ]} ∪ evaluate_delete_set evaluate_walk0
          /\ queue_at (best_functions evaluated0.1) 0 <> [])).
Proof.
  assert (H1 : evaluate_helper chain false 0 session_alias evaluate_walk0
               = Done (evaluated0.1, evaluated0.2)) by (vm_compute; reflexivity).
  exact (conj H1
           (@X14_evaluate_advances_only_with_a_best_record world
              chain 0 session_alias evaluated0.1 evaluate_walk0 evaluated0.2 H1)).
Defined.

(** The reference "ref" names key 0 only; key 1 gets its record by tag. *)
Lemma X15_prepare_for_test_fills_every_best_slot_witness :
  prepare_for_test 0 "ref" session0 = Done prepared
  /\ task_cache session0 !! 0 = Some chain
  /\ read_reference "ref" = Some [["0"; "b"; "5.0"; "2.0"]]
  /\ graphs chain !! 1 = Some "conv"
  /\ is_cached prepared 0 = true
  /\ queue_at (best_functions prepared) 1 <> []
  /\ exists recs,
       length recs
       = length (filter (fun k' => k' = 1) (named_keys [["0"; "b"; "5.0"; "2.0"]]))
       /\ Forall from_reference recs
       /\ match queue_at (best_functions session0) 1 ++ recs with
          | [] =>
              exists from r,
                first_with_tag chain (tag "conv") (named_keys [["0"; "b"; "5.0"; "2.0"]])
                = Some from
                /\ head (queue_at (best_functions prepared) from) = Some r
                /\ queue_at (best_functions prepared) 1 = [r]
          | loaded => queue_at (best_functions prepared) 1 = loaded
          end.
Proof.
  assert (H1 : prepare_for_test 0 "ref" session0 = Done prepared)
    by (vm_compute; reflexivity).
  assert (H2 : task_cache session0 !! 0 = Some chain) by (vm_compute; reflexivity).
  assert (H3 : read_reference "ref" = Some [["0"; "b"; "5.0"; "2.0"]]) by reflexivity.
  assert (H4 : graphs chain !! 1 = Some "conv") by (vm_compute; reflexivity).
  exact (conj H1 (conj H2 (conj H3 (conj H4
           (@X15_prepare_for_test_fills_every_best_slot world
              0 "ref" session0 prepared chain [["0"; "b"; "5.0"; "2.0"]] 1 "conv"
              H1 H2 H3 H4))))).
Defined.


(** A second [begin_tuning] for task 0 with other numbers. *)
Lemma X17_begin_tuning_twice_is_begin_tuning_once_witness :
  begin_tuning 0 1 "" 1 (1 # 2) session0 = Done session_begun
  /\ begin_tuning 0 5 "" 3 (1 # 3) session_begun = Done session_begun.
Proof.
  assert (H1 : begin_tuning 0 1 "" 1 (1 # 2) session0 = Done session_begun)
    by (vm_compute; reflexivity).
  exact (conj H1
           (@X17_begin_tuning_twice_is_begin_tuning_once world
              0 1 5 1 3 (1 # 2) (1 # 3) session0 session_begun H1)).
Defined.

(** [begin_tuning] for task 0 while its schedule worker is a thread object
    that is not joinable. *)
Lemma X18_begin_tuning_launches_only_missing_workers_witness :
  begin_tuning 0 1 "" 1 (1 # 2) session_stale = Done session_restarted
  /\ sch_threads session_restarted !! 0
     = Some (default (Spawned (RunAutoschedule 0 1 "" 1 (1 # 2)))
               (sch_threads session_stale !! 0))
  /\ build_threads session_restarted !! 0
     = Some (default (Spawned (RunBuild 0 1)) (build_threads session_stale !! 0))
  /\ evaluate_threads session_restarted !! 0
     = Some (default (Spawned (RunEvaluate 0 1)) (evaluate_threads session_stale !! 0))
  /\ (forall k, k <> 0 ->
        sch_threads session_restarted !! k = sch_threads session_stale !! k
        /\ build_threads session_restarted !! k = build_threads session_stale !! k
        /\ evaluate_threads session_restarted !! k = evaluate_threads session_stale !! k)
  /\ flag_at (finish session_restarted) 0 = false
  /\ flag_at (in_tuning session_restarted) 0 = true.
Proof.
  assert (H1 : begin_tuning 0 1 "" 1 (1 # 2) session_stale = Done session_restarted)
    by (vm_compute; reflexivity).
  exact (conj H1
           (@X18_begin_tuning_launches_only_missing_workers world
              0 1 1 "" (1 # 2) session_stale session_restarted H1)).
Defined.

(** The first [create_session] of a process. *)
Lemma X19_created_session_is_found_under_its_id_witness :
  create_session "llvm" 0 options no_sessions = Done (0, registry1)
  /\ exists sess,
       new_session "llvm" 0 options = Done sess
       /\ get_session 0 registry1 = Done (Some sess, registry1)
       /\ 0 = global_count no_sessions
       /\ global_count registry1 = 0 + 1
       /\ forall id', id' <> 0 -> id' <> 0 + 1 ->
            sessions registry1 !! id' = sessions no_sessions !! id'.
Proof.
  assert (H1 : create_session "llvm" 0 options no_sessions = Done (0, registry1))
    by (vm_compute; reflexivity).
  exact (conj H1
           (@X19_created_session_is_found_under_its_id world
              "llvm" 0 options no_sessions registry1 0 H1)).
Defined.

(** The first session is deleted. *)
Lemma X20_deleted_session_stays_gone_witness :
  delete_session 0 registry1 = Done registry_deleted
  /\ get_session 0 registry_deleted = Fails (Thrown "Can't find the session")
  /\ delete_session 0 registry_deleted = Fails (Thrown "Can't find the session")
  /\ global_count registry_deleted = global_count registry1
  /\ (forall id', id' <> 0 -> sessions registry_deleted !! id' = sessions registry1 !! id')
  /\ (0 < global_count registry1 ->
      forall cs,
        sessions (call_all cs registry_deleted) !! 0 = None
        /\ forall tgt dev_id sess_option id r2,
             create_session tgt dev_id sess_option (call_all cs registry_deleted)
             = Done (id, r2) ->
             id <> 0).
Proof.
  assert (H1 : delete_session 0 registry1 = Done registry_deleted)
    by (vm_compute; reflexivity).
  exact (conj H1 (@X20_deleted_session_stays_gone world 0 registry1 registry_deleted H1)).
Defined.

(** The second of two sessions is fetched after the first was deleted. *)
Lemma X21_get_session_returns_created_sessions_only_witness :
  get_session 1 (call_all calls no_sessions) = Done (Some found_session, found.2)
  /\ 0 <= 1 < global_count (call_all calls no_sessions)
  /\ found.2 = call_all calls no_sessions.
Proof.
  assert (H1 : get_session 1 (call_all calls no_sessions)
               = Done (Some found_session, found.2)) by (vm_compute; reflexivity).
  exact (conj H1
           (@X21_get_session_returns_created_sessions_only world
              calls 1 found_session found.2 H1)).
Defined.

(** A tensor held by both tables and one held by the volatile table only. *)
Lemma X23_get_data_reads_persistent_before_volatile_witness :
  Forall2 (fun k a => (({[ 1 := "p" ]} : gmap Z string) ∪ {[ 1 := "v"; 2 := "w" ]}) !! k
                      = Some a) [1; 2] ["p"; "w"]
  /\ get_data ({[ 1 := "p" ]} : gmap Z string) {[ 1 := "v"; 2 := "w" ]} [1; 2]
     = Done ["p"; "w"].
Proof.
  assert (H1 : Forall2 (fun k a => (({[ 1 := "p" ]} : gmap Z string)
                                      ∪ {[ 1 := "v"; 2 := "w" ]}) !! k = Some a)
                 [1; 2] ["p"; "w"])
    by (repeat constructor).
  exact (conj H1
           (proj2 (X23_get_data_reads_persistent_before_volatile
                     ({[ 1 := "p" ]} : gmap Z string) {[ 1 := "v"; 2 := "w" ]}
                     [1; 2] ["p"; "w"]) H1)).
Defined.

(** Three iterations that took 3, 1 and 2 ms: the report reads 2, 2, 3. *)
Lemma X24_time_report_reads_sorted_times_witness :
  [3; 1; 2]%Q <> []
  /\ exists sorted mn med mx,
       sorted ≡ₚ [3; 1; 2]%Q
       /\ descending sorted
       /\ time_report [3; 1; 2]%Q = Done (mn, med, mx)
       /\ sorted !! 0%nat = Some mx
       /\ sorted !! (length [3; 1; 2]%Q `div` 2)%nat = Some med
       /\ sorted !! (if decide (length [3; 1; 2]%Q <= 2)%nat
                     then (length [3; 1; 2]%Q - 1)%nat
                     else (length [3; 1; 2]%Q - 2)%nat) = Some mn.
Proof.
  assert (H1 : [3; 1; 2]%Q <> []) by discriminate.
  exact (conj H1 (X24_time_report_reads_sorted_times [3; 1; 2]%Q H1)).
Defined.

(** [add_task] on the chain of two nodes, each free set visited as
    [elements] lists it. *)
Lemma X25_add_task_finds_a_call_order_witness :
  (forall X : gset Z, elements X ≡ₚ elements X)
  /\ task_count no_tasks <> INT_MAX
  /\ (size (graph_attrs chain) <= 2)%nat
  /\ exists order,
       add_task elements 2 chain session0 no_tasks
       = Done (task_count no_tasks,
               set_task_cache (<[task_count no_tasks := chain]> (task_cache session0))
                 session0,
               {| task_count := task_count no_tasks + 1;
                  static_call_order :=
                    <[task_count no_tasks := order]> (static_call_order no_tasks) |})
       /\ NoDup order
       /\ (forall k, k ∈ order -> k ∈ dom (graph_attrs chain))
       /\ (forall k attr, graph_attrs chain !! k = Some attr ->
             num_predecessor attr = 0 -> k ∈ order).
Proof.
  assert (H0 : forall X : gset Z, elements X ≡ₚ elements X) by reflexivity.
  assert (H1 : task_count no_tasks <> INT_MAX)
    by decided.
  assert (H2 : (size (graph_attrs chain) <= 2)%nat) by (vm_compute; lia).
  exact (conj H0 (conj H1 (conj H2
           (@X25_add_task_finds_a_call_order world elements H0
              2%nat chain session0 no_tasks H1 H2)))).
Defined.

(** Node 1 of the chain comes after node 0. *)
Lemma X26_call_order_runs_predecessors_first_witness :
  (forall X : gset Z, elements X ≡ₚ elements X)
  /\ counts_predecessors chain
  /\ static_order elements 2 chain = Done [0; 1]
  /\ [0; 1] !! 1%nat = Some 1
  /\ 0 ∈ dom (graph_attrs chain)
  /\ 1 ∈ succs_of chain 0
  /\ exists j, (j < 1)%nat /\ [0; 1] !! j = Some 0.
Proof.
  assert (H0 : forall X : gset Z, elements X ≡ₚ elements X) by reflexivity.
  assert (H1 : counts_predecessors chain)
    by decided.
  assert (H2 : static_order elements 2 chain = Done [0; 1]) by (vm_compute; reflexivity).
  assert (H3 : [0; 1] !! 1%nat = Some 1) by reflexivity.
  assert (H4 : 0 ∈ dom (graph_attrs chain))
    by decided.
  assert (H5 : 1 ∈ succs_of chain 0)
    by decided.
  exact (conj H0 (conj H1 (conj H2 (conj H3 (conj H4 (conj H5
           (@X26_call_order_runs_predecessors_first world elements H0
              2%nat chain [0; 1] 1%nat 1 0 H1 H2 H3 H4 H5))))))).
Defined.

(** The chain of two nodes, ranked by key. *)
Lemma X27_call_order_lists_every_node_once_witness :
  (forall X : gset Z, elements X ≡ₚ elements X)
  /\ counts_predecessors chain
  /\ acyclic chain
  /\ static_order elements 2 chain = Done [0; 1]
  /\ [0; 1] ≡ₚ elements (dom (graph_attrs chain)).
Proof.
  assert (H0 : forall X : gset Z, elements X ≡ₚ elements X) by reflexivity.
  assert (H1 : counts_predecessors chain)
    by decided.
  assert (H2 : acyclic chain)
    by (apply (acyclic_by_rank chain Z.to_nat); decided).
  assert (H3 : static_order elements 2 chain = Done [0; 1]) by (vm_compute; reflexivity).
  exact (conj H0 (conj H1 (conj H2 (conj H3
           (@X27_call_order_lists_every_node_once world elements H0
              2%nat chain [0; 1] H1 H2 H3))))).
Defined.

(** [run] for task 0 after the reference "ref" was loaded. *)
Lemma X28_run_is_ready_after_setup_witness :
  ((exists reference, prepare_for_test 0 reference session0 = Done prepared)
   \/ (exists advance_number reference first_stage_number ratio,
         begin_tuning 0 advance_number reference first_stage_number ratio session0
         = Done prepared)
   \/ (is_Some (task_cache session0 !! 0) /\ end_tuning 0 session0 = Done prepared))
  /\ run_ready 0 prepared = Done tt.
Proof.
  assert (H0 : prepare_for_test 0 "ref" session0 = Done prepared)
    by (vm_compute; reflexivity).
  assert (H1 :
    (exists reference, prepare_for_test 0 reference session0 = Done prepared)
    \/ (exists advance_number reference first_stage_number ratio,
          begin_tuning 0 advance_number reference first_stage_number ratio session0
          = Done prepared)
    \/ (is_Some (task_cache session0 !! 0) /\ end_tuning 0 session0 = Done prepared))
    by (left; exists "ref"; exact H0).
  exact (conj H1 (@X28_run_is_ready_after_setup world 0 session0 prepared H1)).
Defined.

(** The visit of key 0 while it heads the emergency build queue. *)
Lemma X29_build_visit_only_adds_artifacts_witness :
  build_node 0 chain false 0 session_emergency build_walk0
  = Done (Some (built_emergency.1, built_emergency.2))
  /\ (forall k, queue_at (built_functions session_emergency) k
                `prefix_of` queue_at (built_functions built_emergency.1) k)
  /\ (forall k, k <> 0 ->
        queue_at (future_functions built_emergency.1) k
        = queue_at (future_functions session_emergency) k)
  /\ (queue_at (future_functions built_emergency.1) 0
      = queue_at (future_functions session_emergency) 0
      \/ queue_at (future_functions built_emergency.1) 0
         = tail (queue_at (future_functions session_emergency) 0))
  /\ (emergency_build_queue built_emergency.1 = emergency_build_queue session_emergency
      \/ emergency_build_queue built_emergency.1
         = tail (emergency_build_queue session_emergency))
  /\ best_functions built_emergency.1 = best_functions session_emergency
  /\ auto_scheduler built_emergency.1 = auto_scheduler session_emergency
  /\ emergency_schedule_queue built_emergency.1
     = emergency_schedule_queue session_emergency.
Proof.
  assert (H1 : build_node 0 chain false 0 session_emergency build_walk0
               = Done (Some (built_emergency.1, built_emergency.2)))
    by (vm_compute; reflexivity).
  exact (conj H1
           (@X29_build_visit_only_adds_artifacts world
              0 chain false 0 session_emergency built_emergency.1
              build_walk0 built_emergency.2 H1)).
Defined.
End FurtherRuns.
